(** * yt-assorted: the stitch server ([server/index.js])

    A shallow embedding of the Express server that cuts and stitches video
    segments: the timestamp codec ([parseTimestamp], [formatTimestamp]), the
    external process runner ([runCommand]), the request handler of
    [POST /api/process], the job registry with its periodic eviction
    ([cleanupOldJobs]) and the handler of [GET /api/download/:id].

    Conventions of the embedding.
    - A JavaScript string is a [string]; a character stands for one code
      unit (code units above 255 do not occur in the model).
    - A JavaScript number is a [number]: [NaN], one of the two infinities,
      or a finite binary64 value, held as the rational it stands for.  The
      arithmetic rounds to the nearest binary64 value, to the even one of
      two equally near, and overflows to an infinity.  The sign of zero is
      not represented: the program never divides by a zero that it has
      computed, and both zeros print and compare alike.
    - Effects (response writes, child processes, file system calls) are
      recorded in order in a trace; their outcomes come from an [env]. *)

From Stdlib Require Import ZArith QArith Qround Qreduction.
From Stdlib Require Import String Ascii List Bool Lia.
Import ListNotations.

Open Scope string_scope.
Open Scope Z_scope.

(* ================================================================== *)
(** ** Strings *)

Module Str.

Definition code (c : ascii) : Z := Z.of_nat (nat_of_ascii c).

(** [\d] of a regular expression without the unicode flag. *)
Definition is_digit (c : ascii) : bool :=
  (48 <=? code c) && (code c <=? 57).

(** WhiteSpace and LineTerminator code units below 256: TAB, LF, VT, FF,
    CR, SP and NBSP. *)
Definition is_space (c : ascii) : bool :=
  ((9 <=? code c) && (code c <=? 13)) || (code c =? 32) || (code c =? 160).

Fixpoint trimStart (s : string) : string :=
  match s with
  | String c r => if is_space c then trimStart r else s
  | EmptyString => EmptyString
  end.

Fixpoint trimEnd (s : string) : string :=
  match s with
  | String c r =>
      match trimEnd r with
      | EmptyString => if is_space c then EmptyString else String c EmptyString
      | r' => String c r'
      end
  | EmptyString => EmptyString
  end.

(** [String.prototype.trim]. *)
Definition trim (s : string) : string := trimEnd (trimStart s).

(** [s.split(sep)] for a separator of one character. *)
Fixpoint split (sep : ascii) (s : string) : list string :=
  match s with
  | EmptyString => [EmptyString]
  | String c r =>
      if Ascii.eqb c sep then EmptyString :: split sep r
      else match split sep r with
           | h :: t => String c h :: t
           | [] => [String c EmptyString]
           end
  end.

Fixpoint all_digits (s : string) : bool :=
  match s with
  | EmptyString => true
  | String c r => is_digit c && all_digits r
  end.

(** [/^\d+$/.test(s)]. *)
Definition test_digits (s : string) : bool :=
  negb (String.eqb s "") && all_digits s.

Fixpoint repeat_char (c : ascii) (n : nat) : string :=
  match n with
  | O => EmptyString
  | S k => String c (repeat_char c k)
  end.

(** [s.padStart(n, c)] for a filler of one character. *)
Definition padStart (n : nat) (c : ascii) (s : string) : string :=
  repeat_char c (n - String.length s) ++ s.

(** [s.replace(/c/g, by)]: every occurrence of the character replaced. *)
Fixpoint replaceAll (c : ascii) (by_ : string) (s : string) : string :=
  match s with
  | EmptyString => EmptyString
  | String d r =>
      if Ascii.eqb d c then by_ ++ replaceAll c by_ r
      else String d (replaceAll c by_ r)
  end.

(** [l.join(sep)]. *)
Fixpoint join (sep : string) (l : list string) : string :=
  match l with
  | [] => EmptyString
  | [x] => x
  | x :: r => x ++ sep ++ join sep r
  end.

(** Value of a string of decimal digits, most significant first. *)
Fixpoint dec_acc (acc : Z) (s : string) : Z :=
  match s with
  | EmptyString => acc
  | String c r => dec_acc (acc * 10 + (code c - 48)) r
  end.

Definition dec (s : string) : Z := dec_acc 0 s.

(** The longest prefix of decimal digits, and what follows it. *)
Fixpoint take_digits (s : string) : string * string :=
  match s with
  | String c r =>
      if is_digit c then let '(d, t) := take_digits r in (String c d, t)
      else (EmptyString, s)
  | EmptyString => (EmptyString, EmptyString)
  end.

Definition digit_char (d : Z) : ascii := ascii_of_nat (48 + Z.to_nat d).

Fixpoint digits_fuel (fuel : nat) (n : Z) : string :=
  match fuel with
  | O => EmptyString
  | S f =>
      if n <? 10 then String (digit_char n) EmptyString
      else digits_fuel f (n / 10) ++ String (digit_char (n mod 10)) EmptyString
  end.

(** Decimal digits of a non-negative integer, without leading zeros. *)
Definition digits (n : Z) : string :=
  digits_fuel (S (Z.to_nat (Z.log2 n))) n.

(** Decimal rendering of an integer, as [Number.prototype.toString]
    prints an integral value. *)
Definition of_Z (z : Z) : string :=
  if z <? 0 then String "-" (digits (- z)) else digits z.

(** [s] is a non-empty string of digits with value [n]. *)
Definition renders (s : string) (n : Z) : Prop :=
  all_digits s = true /\ s <> "" /\ dec s = n.

End Str.

(* ================================================================== *)
(** ** Numbers *)

Module Num.

(** A binary64 value.  A finite value is the rational it stands for,
    in lowest terms, so that equal numbers are equal terms. *)
Inductive number : Type :=
| NaN
| PInf
| NInf
| Fin (q : Q).

(** The result of an operation that needs no rounding. *)
Definition exact (q : Q) : number := Fin (Qred q).

(** An integer that is a binary64 value. *)
Definition of_Z (z : Z) : number := Fin (inject_Z z).

(** The integers of magnitude below [2^53] are binary64 values, one
    apart from the next. *)
Definition safe : Z := 2 ^ 53.

Definition isNaN (a : number) : bool :=
  match a with NaN => true | _ => false end.

Definition sgn (a : number) : Z :=
  match a with
  | NaN => 0
  | PInf => 1
  | NInf => -1
  | Fin q => Z.sgn (Qnum q)
  end.

Definition neg (a : number) : number :=
  match a with
  | NaN => NaN
  | PInf => NInf
  | NInf => PInf
  | Fin q => exact (- q)
  end.

Definition inf_of_sign (s : Z) : number :=
  match s with
  | Z0 => NaN
  | Zpos _ => PInf
  | Zneg _ => NInf
  end.

(** The fraction [n * 2^k / d]. *)
Definition scaled (n d k : Z) : Z * Z :=
  if 0 <=? k then (n * 2 ^ k, d) else (n, d * 2 ^ (- k)).

(** The exponent [e] of the leading bit of [n / d], for positive [n]
    and [d]: [2^e <= n / d < 2^(e + 1)]. *)
Definition ilog2 (n d : Z) : Z :=
  let e := Z.log2 n - Z.log2 d in
  let '(a, b) := scaled n d (- e) in
  if a <? b then e - 1 else e.

(** The integer nearest to [n / d], the even one of two equally near. *)
Definition rne (n d : Z) : Z :=
  let k := n / d in
  match 2 * (n mod d) ?= d with
  | Lt => k
  | Gt => k + 1
  | Eq => if Z.even k then k else k + 1
  end.

(** [m * 2^s]. *)
Definition ldexp (m s : Z) : Q :=
  if 0 <=? s then inject_Z (m * 2 ^ s) else m # Z.to_pos (2 ^ (- s)).

(** Rounding of a positive [n / d] to binary64: 53 significant bits,
    the last of them worth [2^s] with [s] not below -1074, where the
    values are subnormal; [2^1024] and more is infinite. *)
Definition round_pos (n d : Z) : number :=
  let s := Z.max (ilog2 n d - 52) (-1074) in
  let '(a, b) := scaled n d (- s) in
  let m := rne a b in
  if (971 <? s) || ((s =? 971) && (m =? 2 ^ 53)) then PInf
  else exact (ldexp m s).

(** The binary64 value of a rational. *)
Definition round (q : Q) : number :=
  let r := Qred q in
  match Qnum r with
  | Z0 => of_Z 0
  | Zpos _ => round_pos (Qnum r) (Zpos (Qden r))
  | Zneg p => neg (round_pos (Zpos p) (Zpos (Qden r)))
  end.

Definition mul (a b : number) : number :=
  match a, b with
  | NaN, _ | _, NaN => NaN
  | Fin x, Fin y => round (x * y)
  | _, _ => inf_of_sign (sgn a * sgn b)
  end.

Definition add (a b : number) : number :=
  match a, b with
  | NaN, _ | _, NaN => NaN
  | Fin x, Fin y => round (x + y)
  | PInf, NInf | NInf, PInf => NaN
  | PInf, _ | _, PInf => PInf
  | NInf, _ | _, NInf => NInf
  end.

Definition sub (a b : number) : number := add a (neg b).

(** Division; a zero divisor counts as [+0]. *)
Definition div (a b : number) : number :=
  match a, b with
  | NaN, _ | _, NaN => NaN
  | Fin x, Fin y =>
      if Qeq_bool y 0 then inf_of_sign (sgn a) else round (x / y)
  | Fin _, _ => of_Z 0
  | _, Fin y => if Qeq_bool y 0 then a else inf_of_sign (sgn a * sgn b)
  | _, _ => NaN
  end.

(** Rounding towards zero. *)
Definition Qtrunc (q : Q) : Z := Z.quot (Qnum q) (Zpos (Qden q)).

(** The [%] operator: the remainder has the sign of the dividend, and is
    a binary64 value when the operands are. *)
Definition rem (a b : number) : number :=
  match a, b with
  | Fin x, Fin y =>
      if Qeq_bool y 0 then NaN
      else exact (x - y * inject_Z (Qtrunc (x / y)))
  | Fin _, (PInf | NInf) => a
  | _, _ => NaN
  end.

(** [Math.floor]; the integral part of a binary64 value is one. *)
Definition floor (a : number) : number :=
  match a with
  | Fin q => of_Z (Qfloor q)
  | _ => a
  end.

(** The [>=] operator on numbers. *)
Definition ge (a b : number) : bool :=
  match a, b with
  | NaN, _ | _, NaN => false
  | Fin x, Fin y => Qle_bool y x
  | PInf, _ => true
  | _, NInf => true
  | _, _ => false
  end.

(** [10^k]. *)
Definition pow10 (k : Z) : Q :=
  if 0 <=? k then inject_Z (10 ^ k) else 1 # Z.to_pos (10 ^ (- k)).

(** The same for [x < 1], counting down from [n]. *)
Fixpoint below_one (fuel : nat) (x : Q) (n : Z) : Z :=
  match fuel with
  | O => n
  | S f => if Qle_bool 1 (x * inject_Z 10) then n
           else below_one f (x * inject_Z 10) (n - 1)
  end.

(** The [n] with [10^(n-1) <= x < 10^n], for a positive binary64
    value [x], which is not below [2^-1074]. *)
Definition decimal_exponent (x : Q) : Z :=
  if Qle_bool 1 x then Z.of_nat (String.length (Str.digits (Qfloor x)))
  else below_one 400 (Qred x) 0.

(** [s * 10^e] is read back as [x]. *)
Definition reads_as (x : Q) (s e : Z) : bool :=
  match round (inject_Z s * pow10 e) with
  | Fin y => Qeq_bool y x
  | _ => false
  end.

(** The integer [s] of [k] digits for which [s * 10^(n-k)] is read back
    as [x], if there is one: the nearest to [x], and the even one of two
    equally near. *)
Definition candidate (x : Q) (n k : Z) : option Z :=
  let lo := Qfloor (x * pow10 (k - n)) in
  let hi := lo + 1 in
  let ok_lo := reads_as x lo (n - k) in
  let ok_hi := (hi <? 10 ^ k) && reads_as x hi (n - k) in
  match ok_lo, ok_hi with
  | true, false => Some lo
  | false, true => Some hi
  | false, false => None
  | true, true =>
      match (x - inject_Z lo * pow10 (n - k) ?= inject_Z hi * pow10 (n - k) - x)%Q with
      | Lt => Some lo
      | Gt => Some hi
      | Eq => Some (if Z.even lo then lo else hi)
      end
  end.

(** The least number of digits [k], from [k] on, for which there is
    such an integer, and the integer. *)
Fixpoint shortest (fuel : nat) (x : Q) (n k : Z) : Z * Z :=
  match fuel with
  | O => (Qfloor (x * pow10 (k - n)), k)
  | S f =>
      match candidate x n k with
      | Some s => (s, k)
      | None => shortest f x n (k + 1)
      end
  end.

(** The integers [n], [k] and [s] of [Number::toString]: [s] has [k]
    digits, [s * 10^(n-k)] is read back as [x], and [k] is as small as
    possible; 17 digits are always enough.  A value so close below
    [10^n] that [10^n] itself is read back as it is printed as [10^n]. *)
Definition shortest_digits (x : Q) : Z * Z * Z :=
  let n := decimal_exponent x in
  if reads_as x 1 n then (n + 1, 1, 1)
  else let '(s, k) := shortest 17 x n 1 in (n, k, s).

Definition zeros (n : Z) : string := Str.repeat_char "0" (Z.to_nat n).

(** A positive value: plain digits, a decimal point, or the exponent
    form from [1e21] on and below [1e-6]. *)
Definition toString_pos (x : Q) : string :=
  let '(n, k, s) := shortest_digits x in
  let ds := Str.digits s in
  if (k <=? n) && (n <=? 21) then ds ++ zeros (n - k)
  else if (0 <? n) && (n <=? 21)
  then substring 0 (Z.to_nat n) ds ++ "." ++ substring (Z.to_nat n) (Z.to_nat (k - n)) ds
  else if (-6 <? n) && (n <=? 0) then "0." ++ zeros (- n) ++ ds
  else
    let e := n - 1 in
    let es := (if e <? 0 then "-" else "+") ++ Str.digits (Z.abs e) in
    if k =? 1 then ds ++ "e" ++ es
    else substring 0 1 ds ++ "." ++ substring 1 (Z.to_nat (k - 1)) ds ++ "e" ++ es.

(** [Number.prototype.toString]. *)
Definition toString (a : number) : string :=
  match a with
  | NaN => "NaN"
  | PInf => "Infinity"
  | NInf => "-Infinity"
  | Fin q =>
      match Qnum q with
      | Z0 => "0"
      | Zpos _ => toString_pos q
      | Zneg _ => "-" ++ toString_pos (- q)
      end
  end.

(** Digits of a literal in base 2, 8 or 16. *)
Definition digit_of (base : Z) (c : ascii) : option Z :=
  let k := Str.code c in
  let v := if (48 <=? k) && (k <=? 57) then k - 48
           else if (97 <=? k) && (k <=? 102) then k - 87
           else if (65 <=? k) && (k <=? 70) then k - 55
           else base in
  if v <? base then Some v else None.

Fixpoint base_acc (base acc : Z) (s : string) : option Z :=
  match s with
  | EmptyString => Some acc
  | String c r =>
      match digit_of base c with
      | Some v => base_acc base (acc * base + v) r
      | None => None
      end
  end.

(** NonDecimalIntegerLiteral, after its two-character prefix. *)
Definition NonDecimalIntegerLiteral (base : Z) (s : string) : number :=
  match s with
  | EmptyString => NaN
  | _ => match base_acc base 0 s with
         | Some v => round (inject_Z v)
         | None => NaN
         end
  end.

Definition SignedInteger (s : string) : option Z :=
  let '(sign, ds) :=
    match s with
    | String c r =>
        if Ascii.eqb c "+" then (1, r)
        else if Ascii.eqb c "-" then (-1, r)
        else (1, s)
    | EmptyString => (1, s)
    end in
  if Str.test_digits ds then Some (sign * Str.dec ds) else None.

Definition ExponentPart (s : string) : option Z :=
  match s with
  | EmptyString => Some 0
  | String c r =>
      if Ascii.eqb c "e" || Ascii.eqb c "E" then SignedInteger r else None
  end.

(** Digits, an optional fraction and an optional exponent. *)
Definition StrUnsignedDecimalLiteral (s : string) : option Q :=
  let '(ip, r1) := Str.take_digits s in
  let '(fp, r2) :=
    match r1 with
    | String c r => if Ascii.eqb c "." then Str.take_digits r else (EmptyString, r1)
    | EmptyString => (EmptyString, r1)
    end in
  if String.eqb ip "" && String.eqb fp "" then None
  else match ExponentPart r2 with
       | Some e =>
           Some ((inject_Z (Str.dec ip)
                  + inject_Z (Str.dec fp)
                    / inject_Z (10 ^ Z.of_nat (String.length fp)))
                 * Qpower (inject_Z 10) e)%Q
       | None => None
       end.

Definition unsigned_literal (s : string) : number :=
  if String.eqb s "Infinity" then PInf
  else match StrUnsignedDecimalLiteral s with
       | Some q => round q
       | None => NaN
       end.

Definition StrDecimalLiteral (s : string) : number :=
  match s with
  | String c r =>
      if Ascii.eqb c "+" then unsigned_literal r
      else if Ascii.eqb c "-" then neg (unsigned_literal r)
      else unsigned_literal s
  | EmptyString => unsigned_literal s
  end.

(** The base announced by a prefix [0x], [0o] or [0b], in either case,
    and the digits after it. *)
Definition radix_prefix (s : string) : option (Z * string) :=
  match s with
  | String c0 (String c r) =>
      if negb (Ascii.eqb c0 "0") then None
      else if Ascii.eqb c "x" || Ascii.eqb c "X" then Some (16, r)
      else if Ascii.eqb c "o" || Ascii.eqb c "O" then Some (8, r)
      else if Ascii.eqb c "b" || Ascii.eqb c "B" then Some (2, r)
      else None
  | _ => None
  end.

(** [Number(s)] for a string [s] (StringToNumber): surrounding white
    space is dropped, the empty string is 0, anything outside the
    grammar of numeric literals is [NaN], and the value of a literal is
    rounded to binary64. *)
Definition Number (s : string) : number :=
  let t := Str.trim s in
  if String.eqb t "" then of_Z 0
  else match radix_prefix t with
       | Some (base, r) => NonDecimalIntegerLiteral base r
       | None => StrDecimalLiteral t
       end.

End Num.

Export Num(number, NaN, PInf, NInf, Fin).

(* ================================================================== *)
(** ** Values *)

(** What a parsed JSON body, or a property read, can hold. *)
#[warnings="-register-all"]
Inductive value : Type :=
| VUndefined
| VNull
| VBool (b : bool)
| VNum (n : number)
| VStr (s : string)
| VArr (items : list value)
| VObj (props : list (string * value)).

(* ================================================================== *)
(** ** Timestamp codec *)

Definition parseTimestamp (v0 : value) : option number :=
  match v0 with
  | VStr s =>
      if String.eqb (Str.trim s) "" then None
      else
        let v := Str.trim s in
        if Str.test_digits v then Some (Num.Number v)
        else
          let parts := map Num.Number (Str.split ":" v) in
          if existsb Num.isNaN parts then None
          else match parts with
               | [a; b] => Some (Num.add (Num.mul a (Num.of_Z 60)) b)
               | [a; b; c] =>
                   Some (Num.add (Num.add (Num.mul a (Num.of_Z 3600))
                                          (Num.mul b (Num.of_Z 60))) c)
               | _ => None
               end
  | _ => None
  end.

Definition formatTimestamp (seconds : number) : string :=
  let s := Str.padStart 2 "0"
             (Num.toString (Num.floor (Num.rem seconds (Num.of_Z 60)))) in
  let m := Str.padStart 2 "0"
             (Num.toString
                (Num.floor (Num.rem (Num.div seconds (Num.of_Z 60)) (Num.of_Z 60)))) in
  let h := Str.padStart 2 "0"
             (Num.toString (Num.floor (Num.div seconds (Num.of_Z 3600)))) in
  h ++ ":" ++ m ++ ":" ++ s.

(* ================================================================== *)
(** ** Effects *)

(** The payloads the server writes, one per line of the response. *)
Inductive event : Type :=
| Status (stage message : string)
| Log (channel message : string)
| Error (message : string)
| Done (downloadId downloadUrl : string).

Inductive action : Type :=
| SetHeader (name val : string)     (* res.setHeader *)
| FlushHeaders                      (* res.flushHeaders *)
| WriteLine (payload : event)       (* writeLine(res, payload) *)
| End_                              (* res.end() *)
| SetStatus (code : Z)              (* res.status(code) *)
| Json (body : list (string * string))  (* res.json *)
| Download (path : string)          (* res.download *)
| Mkdtemp (dir : string)            (* fs.mkdtempSync *)
| Spawn (cmd : string) (args : list string)   (* child_process.spawn *)
| WriteFile (path content : string) (* fs.writeFileSync *)
| CopyFile (src dst : string)       (* fs.copyFileSync *)
| RmSync (path : string) (recursive : bool).  (* fs.rmSync, always forced *)

(** A registered job: [{ path, created, tempDir }]. *)
Record job : Type := mkJob {
  job_path : string;
  created : Z;
  job_tempDir : string }.

(** A [Map] with string keys: the entries in insertion order, one per
    key. *)
Module JsMap.

Definition t (A : Type) : Type := list (string * A).

Fixpoint get {A} (m : t A) (k : string) : option A :=
  match m with
  | [] => None
  | (k', v) :: r => if String.eqb k' k then Some v else get r k
  end.

(** An existing key keeps its place, a new one goes last. *)
Fixpoint set {A} (m : t A) (k : string) (v : A) : t A :=
  match m with
  | [] => [(k, v)]
  | (k', v') :: r =>
      if String.eqb k' k then (k', v) :: r else (k', v') :: set r k v
  end.

Fixpoint delete {A} (m : t A) (k : string) : t A :=
  match m with
  | [] => []
  | (k', v') :: r =>
      if String.eqb k' k then r else (k', v') :: delete r k
  end.

End JsMap.

(** How a child process ends: the [close] event with its exit code, or
    the [error] event of a process that could not be started. *)
Inductive ending : Type :=
| Close (code : Z)
| SpawnError (message : string).

(** What one child process does: the chunks it prints, in order, each
    with [true] for stderr, and how it ends. *)
Record proc : Type := mkProc {
  chunks : list (bool * string);
  ending_of : ending }.

(** The world outside the server. *)
Record env : Type := mkEnv {
  cwd : string;                       (* process.cwd() *)
  tmpdir : string;                    (* os.tmpdir() *)
  randomUUID : string;                (* crypto.randomUUID() *)
  mkdtempSync : string -> string + string;
                                      (* the directory made for a prefix,
                                         or the message it throws with *)
  child : nat -> string -> list string -> proc;
                                      (* the n-th process spawned *)
  writeFileSync : string -> string -> option string;
                                      (* [Some m]: throws with message m *)
  copyFileSync : string -> string -> option string;
  rmSync : string -> option string;
  transfer : string -> option string; (* the outcome of res.download *)
  now : nat -> Z }.                   (* the n-th reading of Date.now() *)

Record state : Type := mkState {
  trace : list action;                (* oldest first *)
  jobs : JsMap.t job;
  procs : nat;                        (* processes spawned so far *)
  reads : nat }.                      (* clock readings so far *)

(** Computations of the server: they change the state and return, or
    throw an error, of which only the message is kept. *)
Definition M (A : Type) : Type := state -> (A + string) * state.

Definition ret {A} (a : A) : M A := fun s => (inl a, s).

Definition throw {A} (message : string) : M A := fun s => (inr message, s).

Definition bind {A B} (m : M A) (k : A -> M B) : M B :=
  fun s => match m s with
           | (inl a, s') => k a s'
           | (inr e, s') => (inr e, s')
           end.

Definition try_catch {A} (m : M A) (handler : string -> M A) : M A :=
  fun s => match m s with
           | (inr e, s') => handler e s'
           | r => r
           end.

Notation "x <- m ;; k" := (bind m (fun x => k))
  (at level 61, m at next level, right associativity).
Notation "m ;; k" := (bind m (fun _ => k))
  (at level 61, right associativity).

Definition act (a : action) : M unit :=
  fun s => (inl tt, mkState (trace s ++ [a]) (jobs s) (procs s) (reads s)).

Definition get_jobs : M (JsMap.t job) := fun s => (inl (jobs s), s).

Definition put_jobs (j : JsMap.t job) : M unit :=
  fun s => (inl tt, mkState (trace s) j (procs s) (reads s)).

(** [a || b] on strings: the empty string is falsy. *)
Definition or_else (a b : string) : string :=
  if String.eqb a "" then b else a.

(** [path.join(a, b)] for operands that are already normalized. *)
Definition path_join (a b : string) : string := a ++ "/" ++ b.

Section Server.

Variable e : env.

Definition publicDir : string :=
  path_join (path_join (cwd e) "server") "public".

Definition Date_now : M Z :=
  fun s => (inl (now e (reads s)),
            mkState (trace s) (jobs s) (procs s) (S (reads s))).

Definition writeLine (payload : event) : M unit := act (WriteLine payload).

(** A file system call that throws when the world says so. *)
Definition fs_call (a : action) (outcome : option string) : M unit :=
  act a ;;
  match outcome with
  | Some m => throw m
  | None => ret tt
  end.

(* ---------------------------------------------------------------- *)
(** *** External process runner *)

(** The [data] handlers: each chunk is appended to the buffer of its
    stream and passed to [log]. *)
Fixpoint drain (log : string -> bool -> M unit) (cs : list (bool * string))
         (stdout stderr : string) : M (string * string) :=
  match cs with
  | [] => ret (stdout, stderr)
  | (is_err, text) :: r =>
      log text is_err ;;
      if is_err then drain log r stdout (stderr ++ text)
      else drain log r (stdout ++ text) stderr
  end.

(** [spawn(cmd, args)]: the world decides what the new process does. *)
Definition spawn (cmd : string) (args : list string) : M proc :=
  fun s => (inl (child e (procs s) cmd args),
            mkState (trace s ++ [Spawn cmd args]) (jobs s) (S (procs s)) (reads s)).

Definition runCommand (cmd : string) (args : list string)
           (log : string -> bool -> M unit) : M string :=
  p <- spawn cmd args ;;
  out <- drain log (chunks p) "" "" ;;
  match ending_of p with
  | SpawnError m => throw m
  | Close code =>
      if code =? 0 then ret (Str.trim (fst out))
      else throw (or_else (snd out) ("Command failed: " ++ cmd))
  end.

(* ---------------------------------------------------------------- *)
(** *** POST /api/process *)

(** [v.name] for the names the server reads ([segments], [url],
    [start], [end]), which no prototype defines: [None] is the
    TypeError of a read on [null] or [undefined]. *)
Definition get_prop (v : value) (name : string) : option value :=
  match v with
  | VUndefined | VNull => None
  | VObj props =>
      match JsMap.get props name with
      | Some x => Some x
      | None => Some VUndefined
      end
  | _ => Some VUndefined
  end.

(** [req.body?.segments] *)
Definition body_segments (body : value) : value :=
  match get_prop body "segments" with
  | Some x => x
  | None => VUndefined
  end.

(** An entry of [parsed]: [{ url, start, end }]. *)
Record segment : Type := mkSegment {
  seg_url : string;
  seg_start : number;
  seg_end : number }.

Inductive checked : Type :=
| RowOk (seg : segment)
| RowBad (reason : string)
| RowThrow (message : string).

(** The body of the validation loop for one row; a rejected row comes
    with what follows its number in the message.  A row that is [null]
    makes the first property read throw a TypeError. *)
Definition check_row (seg : value) : checked :=
  match get_prop seg "url", get_prop seg "start", get_prop seg "end" with
  | Some u, Some s, Some t =>
      let url := match u with VStr x => Str.trim x | _ => "" end in
      let start := parseTimestamp s in
      let end_ := parseTimestamp t in
      if String.eqb url "" then RowBad ": URL required"
      else match start, end_ with
           | Some a, Some b =>
               if Num.ge a b then RowBad ": Invalid timestamps"
               else RowOk (mkSegment url a b)
           | _, _ => RowBad ": Invalid timestamps"
           end
  | _, _, _ => RowThrow "Cannot read properties of null (reading 'url')"
  end.

Inductive validation : Type :=
| Valid (parsed : list segment)
| Rejected (message : string)
| Thrown (message : string).

Definition row (index : nat) : string :=
  "Row " ++ Str.of_Z (Z.of_nat index + 1).

(** The validation loop, from row [index] on. *)
Fixpoint validate (index : nat) (segments : list value)
         (parsed : list segment) : validation :=
  match segments with
  | [] => Valid parsed
  | seg :: rest =>
      match check_row seg with
      | RowOk p => validate (S index) rest (parsed ++ [p])
      | RowBad reason => Rejected (row index ++ reason)
      | RowThrow m => Thrown m
      end
  end.

Definition log (message : string) (stderr : bool) : M unit :=
  writeLine (Log (if stderr then "stderr" else "stdout") message).

(** The loop over [parsed.entries()], from entry [idx] on. *)
Fixpoint download_segments (tempDir : string) (total : nat) (idx : nat)
         (parsed : list segment) (segmentPaths : list string)
  : M (list string) :=
  match parsed with
  | [] => ret segmentPaths
  | seg :: rest =>
      let label := Str.of_Z (Z.of_nat idx + 1) ++ "/" ++ Str.of_Z (Z.of_nat total) in
      writeLine (Status "resolving" ("Resolving segment " ++ label)) ;;
      directUrl <- runCommand "yt-dlp" ["-f"; "best"; "-g"; seg_url seg] log ;;
      writeLine (Status "downloading" ("Downloading segment " ++ label)) ;;
      let segmentPath :=
        path_join tempDir ("segment-" ++ Str.of_Z (Z.of_nat idx) ++ ".mp4") in
      let duration := Num.toString (Num.sub (seg_end seg) (seg_start seg)) in
      runCommand "ffmpeg"
        ["-ss"; Num.toString (seg_start seg); "-i"; directUrl; "-t"; duration;
         "-c"; "copy"; "-avoid_negative_ts"; "make_zero"; "-y"; segmentPath] log ;;
      writeLine (Status "downloaded"
                   ("Segment " ++ label ++ " ready ("
                    ++ formatTimestamp (seg_start seg) ++ "-"
                    ++ formatTimestamp (seg_end seg) ++ ")")) ;;
      download_segments tempDir total (S idx) rest (segmentPaths ++ [segmentPath])
  end.

Definition finalName (t : Z) : string := "stitch-" ++ Str.of_Z t ++ ".mp4".

(** The body of the [try] block. *)
Definition pipeline (jobId tempDir : string) (parsed : list segment) : M unit :=
  segmentPaths <- download_segments tempDir (List.length parsed) 0 parsed [] ;;
  writeLine (Status "stitching" "Stitching segments") ;;
  let listPath := path_join tempDir "concat-list.txt" in
  let listContent :=
    Str.join (String "010" "")
      (map (fun p => "file '" ++ Str.replaceAll "'" "'\''" p ++ "'") segmentPaths) in
  fs_call (WriteFile listPath listContent) (writeFileSync e listPath listContent) ;;
  let outputPath := path_join tempDir "stitched.mp4" in
  runCommand "ffmpeg"
    ["-f"; "concat"; "-safe"; "0"; "-i"; listPath; "-c"; "copy"; "-y"; outputPath] log ;;
  t <- Date_now ;;
  let finalPath := path_join publicDir (finalName t) in
  fs_call (CopyFile outputPath finalPath) (copyFileSync e outputPath finalPath) ;;
  t' <- Date_now ;;
  j <- get_jobs ;;
  put_jobs (JsMap.set j jobId (mkJob finalPath t' tempDir)) ;;
  writeLine (Done jobId ("/api/download/" ++ jobId)).

(** The [catch] block. *)
Definition on_failure (tempDir : string) (message : string) : M unit :=
  writeLine (Error (or_else message "Processing failed")) ;;
  try_catch (fs_call (RmSync tempDir true) (rmSync e tempDir)) (fun _ => ret tt).

Definition process (body : value) : M unit :=
  act (SetHeader "Content-Type" "application/x-ndjson") ;;
  act (SetHeader "Cache-Control" "no-cache") ;;
  act (SetHeader "Connection" "keep-alive") ;;
  act FlushHeaders ;;
  let segments :=
    match body_segments body with VArr items => items | _ => [] end in
  if (List.length segments =? 0)%nat then
    writeLine (Error "No segments provided") ;;
    act End_
  else
    match validate 0 segments [] with
    | Thrown m => throw m
    | Rejected m => writeLine (Error m) ;; act End_
    | Valid parsed =>
        let jobId := randomUUID e in
        match mkdtempSync e (path_join (tmpdir e) "yt-stitch-") with
        | inr m => throw m
        | inl tempDir =>
            act (Mkdtemp tempDir) ;;
            writeLine (Status "starting" "Validating inputs") ;;
            try_catch (pipeline jobId tempDir parsed) (on_failure tempDir) ;;
            act End_
        end
    end.

(* ---------------------------------------------------------------- *)
(** *** Job registry *)

Definition retention : Z := 60 * 60 * 1000.

(** The body of the loop of [cleanupOldJobs] for one entry. *)
Definition evict (cutoff : Z) (entry : string * job) : M unit :=
  let '(id, info) := entry in
  if created info <? cutoff then
    try_catch
      (fs_call (RmSync (job_path info) false) (rmSync e (job_path info)) ;;
       if String.eqb (job_tempDir info) "" then ret tt
       else fs_call (RmSync (job_tempDir info) true) (rmSync e (job_tempDir info)))
      (fun _ => ret tt) ;;
    j <- get_jobs ;;
    put_jobs (JsMap.delete j id)
  else ret tt.

Fixpoint for_each {A} (f : A -> M unit) (l : list A) : M unit :=
  match l with
  | [] => ret tt
  | x :: r => f x ;; for_each f r
  end.

Definition cleanupOldJobs : M unit :=
  t <- Date_now ;;
  let cutoff := t - retention in
  entries <- get_jobs ;;
  for_each (evict cutoff) entries.

(* ---------------------------------------------------------------- *)
(** *** GET /api/download/:id *)

Definition download (id : string) : M unit :=
  info <- (fun s => (inl (JsMap.get (jobs s) id), s)) ;;
  match info with
  | None => act (SetStatus 404) ;; act (Json [("error", "Not found")])
  | Some i =>
      act (Download (job_path i)) ;;
      match transfer e (job_path i) with
      | Some _ => act (SetStatus 500) ;; act End_
      | None => ret tt
      end
  end.

End Server.

(* ================================================================== *)
(** ** Vocabulary of the statements *)

(** The state after some more actions. *)
Definition emit (l : list action) (s : state) : state :=
  mkState (trace s ++ l) (jobs s) (procs s) (reads s).

(** What every response of [POST /api/process] starts with. *)
Definition headers : list action :=
  [SetHeader "Content-Type" "application/x-ndjson";
   SetHeader "Cache-Control" "no-cache";
   SetHeader "Connection" "keep-alive";
   FlushHeaders].

(** The status code that goes out with the headers: the one set last
    before the head of the response is sent, 200 if none was set. *)
Fixpoint status_sent (code : Z) (t : list action) : option Z :=
  match t with
  | [] => None
  | SetStatus c :: r => status_sent c r
  | (FlushHeaders | WriteLine _ | End_ | Json _ | Download _) :: _ => Some code
  | _ :: r => status_sent code r
  end.

(** Both timestamps of a row parse, and the start is not before the
    end. *)
Definition start_ge_end (seg : value) : Prop :=
  exists vs ve a b,
    get_prop seg "start" = Some vs /\ get_prop seg "end" = Some ve
    /\ parseTimestamp vs = Some a /\ parseTimestamp ve = Some b
    /\ Num.ge a b = true.

(** The state in which the [try] block of a request starts. *)
Definition entered (tempDir : string) (s : state) : state :=
  emit (headers ++ [Mkdtemp tempDir; WriteLine (Status "starting" "Validating inputs")]) s.

(** A computation relates the state it ends in to the state it starts
    from, whether it returns or throws. *)
Definition preserves {A} (R : state -> state -> Prop) (m : M A) : Prop :=
  forall s, R s (snd (m s)).

(** The trace grows by actions that satisfy [P]. *)
Definition trace_grows (P : action -> Prop) (s s' : state) : Prop :=
  exists t, trace s' = (trace s ++ t)%list /\ Forall P t.

(** The registry is left as it is. *)
Definition same_jobs (s s' : state) : Prop := jobs s' = jobs s.

(** A relation between states that holds across every step which adds
    [good] actions to the trace and leaves the registry alone. *)
Class Frame (R : state -> state -> Prop) (good : action -> Prop) : Prop := {
  frame_step : forall s s' l,
    trace s' = (trace s ++ l)%list -> Forall good l -> jobs s' = jobs s -> R s s';
  frame_trans : forall s1 s2 s3, R s1 s2 -> R s2 s3 -> R s1 s3 }.

(** A computation that throws leaves the registry as it is, and one that
    returns has set the entry of [jobId], with [tempDir] in it. *)
Definition registers (jobId tempDir : string) {A} (m : M A) : Prop :=
  forall s,
    match m s with
    | (inr _, s') => jobs s' = jobs s
    | (inl _, s') =>
        exists path t, jobs s' = JsMap.set (jobs s) jobId (mkJob path t tempDir)
    end.

(** The actions of the [try] block. *)
Definition pipeline_action (a : action) : Prop :=
  match a with
  | WriteLine _ | Spawn _ _ | WriteFile _ _ | CopyFile _ _ => True
  | _ => False
  end.

(** What a sweep with the given cutoff leaves of the registry [j], entry
    by entry of [l]. *)
Definition sweep (cutoff : Z) (l : list (string * job)) (j : JsMap.t job)
  : JsMap.t job :=
  fold_left (fun j' entry => if created (snd entry) <? cutoff
                             then JsMap.delete j' (fst entry) else j')
            l j.

(** The age of a job at time [t] is beyond the retention window. *)
Definition expired (t : Z) (info : job) : Prop := t - created info > retention.

(** *** Sample requests and worlds *)

Definition start : state := mkState [] [] 0 0.

Definition seg_obj (url start_ end_ : string) : value :=
  VObj [("url", VStr url); ("start", VStr start_); ("end", VStr end_)].

(** The two segments of the sample requests, once validated. *)
Definition two_parsed : list segment :=
  [mkSegment "u1" (Num.of_Z 0) (Num.of_Z 90);
   mkSegment "u2" (Num.of_Z 3723) (Num.of_Z 3724)].

Definition two_segments : list value :=
  [seg_obj "u1" "0" "1:30"; seg_obj " u2 " "01:02:03" "3724"].

(** A job registered at time 1, and a registry that holds it alone. *)
Definition old_job : job :=
  mkJob "/srv/server/public/stitch-1.mp4" 1 "/tmp/yt-stitch-a".

Definition one_job : state := mkState [] [("id-1", old_job)] 0 0.

Definition batch (l : list value) : value := VObj [("segments", VArr l)].

Definition ok_proc (out : string) : proc := mkProc [(false, out)] (Close 0).

(** A world where everything works; the clock stands at [t]. *)
Definition quiet (id : string) (t : Z) : env :=
  mkEnv "/srv" "/tmp" id (fun p => inl (p ++ id))
        (fun _ _ _ => ok_proc "http://cdn/v") (fun _ _ => None) (fun _ _ => None)
        (fun _ => None) (fun _ => None) (fun _ => t).

(** A world where the resolver of the second segment, the third process,
    exits with code 1 after a line on stderr. *)
Definition second_resolver_fails : env :=
  mkEnv "/srv" "/tmp" "id-1" (fun p => inl (p ++ "abc123"))
        (fun n _ _ => if (n =? 2)%nat then mkProc [(true, "no such video")] (Close 1)
                      else ok_proc "http://cdn/v")
        (fun _ _ => None) (fun _ _ => None)
        (fun _ => Some "EBUSY") (fun _ => None) (fun _ => 5000).

(* ================================================================== *)
(** ** The web client ([web/src/main.jsx]) *)

Module Client.

(** Whether a value counts as true in a condition. *)
Definition truthy (v : value) : bool :=
  match v with
  | VUndefined | VNull => false
  | VBool b => b
  | VNum NaN => false
  | VNum (Fin q) => negb (Qeq_bool q 0)
  | VNum _ => true
  | VStr s => negb (String.eqb s "")
  | VArr _ | VObj _ => true
  end.

Definition is_string (v : value) : bool :=
  match v with VStr _ => true | _ => false end.

(** The client's copy of [parseTimestamp]. *)
Definition parseTimestamp (v0 : value) : option number :=
  if negb (truthy v0) || negb (is_string v0) then None
  else
    match v0 with
    | VStr s =>
        let v := Str.trim s in
        if String.eqb v "" then None
        else if Str.test_digits v then Some (Num.Number v)
        else
          let parts := map Num.Number (Str.split ":" v) in
          if existsb Num.isNaN parts then None
          else match parts with
               | [a; b] => Some (Num.add (Num.mul a (Num.of_Z 60)) b)
               | [a; b; c] =>
                   Some (Num.add (Num.add (Num.mul a (Num.of_Z 3600))
                                          (Num.mul b (Num.of_Z 60))) c)
               | _ => None
               end
    | _ => None
    end.

(** The client's copy of [formatTimestamp]; [None] is [null]. *)
Definition formatTimestamp (seconds : option number) : string :=
  match seconds with
  | None => ""
  | Some NaN => ""
  | Some x =>
      let s := Str.padStart 2 "0"
                 (Num.toString (Num.floor (Num.rem x (Num.of_Z 60)))) in
      let m := Str.padStart 2 "0"
                 (Num.toString
                    (Num.floor (Num.rem (Num.div x (Num.of_Z 60)) (Num.of_Z 60)))) in
      let h := Str.padStart 2 "0"
                 (Num.toString (Num.floor (Num.div x (Num.of_Z 3600)))) in
      h ++ ":" ++ m ++ ":" ++ s
  end.

(** A row of the form: [{ id, url, start, end, error }]. *)
Record row : Type := mkRow {
  r_id : string;
  r_url : string;
  r_start : string;
  r_end : string;
  r_error : string }.

Definition emptySegment (id : string) : row := mkRow id "" "" "" "".

(** The fields that the callers of [update] set. *)
Record patch : Type := mkPatch {
  p_url : option string;
  p_start : option string;
  p_end : option string;
  p_error : option string }.

Definition or_keep (new : option string) (old : string) : string :=
  match new with Some x => x | None => old end.

(** [{ ...item, ...patch }] *)
Definition merge (item : row) (p : patch) : row :=
  mkRow (r_id item) (or_keep (p_url p) (r_url item))
        (or_keep (p_start p) (r_start item)) (or_keep (p_end p) (r_end item))
        (or_keep (p_error p) (r_error item)).

(** The three state updates of [useSegments]; [add] gets the id that
    [crypto.randomUUID] returns. *)
Definition update (id : string) (p : patch) (rows : list row) : list row :=
  map (fun item => if String.eqb (r_id item) id then merge item p else item) rows.

Definition add (id : string) (rows : list row) : list row :=
  rows ++ [emptySegment id].

Definition remove (id : string) (rows : list row) : list row :=
  if (List.length rows =? 1)%nat then rows
  else filter (fun item => negb (String.eqb (r_id item) id)) rows.

(** An entry of [parsedSegments]. *)
Record parsed_row : Type := mkParsed {
  item_row : row;
  startSeconds : option number;
  endSeconds : option number }.

Definition parsedSegments (segments : list row) : list parsed_row :=
  map (fun seg => mkParsed seg (parseTimestamp (VStr (r_start seg)))
                           (parseTimestamp (VStr (r_end seg)))) segments.

(** The message that [validate] computes for one row. *)
Definition row_error (item : parsed_row) : string :=
  if String.eqb (Str.trim (r_url (item_row item))) "" then "URL required"
  else match startSeconds item, endSeconds item with
       | Some a, Some b =>
           if Num.ge a b then "Start must be before end" else ""
       | _, _ => "Timestamps required"
       end.

(** [validate] of the form: the verdict, and the rows with their
    messages set. *)
Definition validate (segments : list row) : bool * list row :=
  fold_left
    (fun st item =>
       let error := row_error item in
       (if String.eqb error "" then fst st else false,
        update (r_id (item_row item)) (mkPatch None None None (Some error)) (snd st)))
    (parsedSegments segments) (true, segments).

(** The body that [handleRun] posts. *)
Definition payload (segments : list row) : value :=
  VObj [("segments",
         VArr (map (fun item =>
                      VObj [("url", VStr (r_url (item_row item)));
                            ("start", VStr (r_start (item_row item)));
                            ("end", VStr (r_end (item_row item)))])
                   (parsedSegments segments)))].

(** What the page shows. *)
Record ui : Type := mkUi {
  status : string;
  badge : string;
  logs : list string;
  downloadUrl : string }.

(** [l.slice(-n)] *)
Definition slice_last {A} (n : nat) (l : list A) : list A :=
  skipn (List.length l - n) l.

(** The callback that [handleRun] gives to [decodeStream], for the lines
    that the server writes. *)
Definition on_line (debug : bool) (line : event) (u : ui) : ui :=
  match line with
  | Status stage message => mkUi message stage (logs u) (downloadUrl u)
  | Log _ message =>
      if debug
      then mkUi (status u) (badge u)
                (slice_last 400 (logs u) ++ [Str.trim message]) (downloadUrl u)
      else u
  | Error message => mkUi message "Error" (logs u) (downloadUrl u)
  | Done _ url => mkUi "Done" "Complete" (logs u) url
  end.

(** What [handleRun] sets before it validates and posts. *)
Definition fresh_ui : ui := mkUi "Validating inputs" "Validating" [] "".

Section DecodeStream.

Variable A : Type.

(** [JSON.parse]; [None] when it throws. *)
Variable parse : string -> option A.

Definition LF : ascii := "010".

(** [buffer.indexOf('\n')] with the two slices around it. *)
Fixpoint cut_line (buffer : string) : option (string * string) :=
  match buffer with
  | EmptyString => None
  | String c r =>
      if Ascii.eqb c LF then Some (EmptyString, r)
      else match cut_line r with
           | Some (line, rest) => Some (String c line, rest)
           | None => None
           end
  end.

(** The inner loop: the lines handed over, and what is left of the
    buffer, [None] once [JSON.parse] has thrown. *)
Fixpoint pump (fuel : nat) (buffer : string) : list A * option string :=
  match fuel with
  | O => ([], Some buffer)
  | S f =>
      match cut_line buffer with
      | None => ([], Some buffer)
      | Some (l, rest) =>
          let line := Str.trim l in
          if String.eqb line "" then pump f rest
          else match parse line with
               | Some a => let '(d, b) := pump f rest in (a :: d, b)
               | None => ([], None)
               end
      end
  end.

(** The outer loop over the chunks that [reader.read()] returns, already
    decoded, and the last line after it: the lines handed over, and
    [true] unless [JSON.parse] has thrown. *)
Fixpoint reading (chunks : list string) (buffer : string) : list A * bool :=
  match chunks with
  | [] =>
      let line := Str.trim buffer in
      if String.eqb line "" then ([], true)
      else match parse line with
           | Some a => ([a], true)
           | None => ([], false)
           end
  | value :: more =>
      let buffer' := buffer ++ value in
      match pump (S (String.length buffer')) buffer' with
      | (d, Some rest) => let '(d', ok) := reading more rest in ((d ++ d')%list, ok)
      | (d, None) => (d, false)
      end
  end.

Definition decodeStream (chunks : list string) : list A * bool :=
  reading chunks "".

(** The same lines, taken one by one from a list. *)
Fixpoint hand_over (lines : list string) : list A * bool :=
  match lines with
  | [] => ([], true)
  | l :: r =>
      let line := Str.trim l in
      if String.eqb line "" then hand_over r
      else match parse line with
           | Some a => let '(d, ok) := hand_over r in (a :: d, ok)
           | None => ([], false)
           end
  end.

End DecodeStream.

End Client.

(** *** More vocabulary *)

(** The line that [log] writes for a chunk. *)
Definition log_line (chunk : bool * string) : action :=
  WriteLine (Log (if fst chunk then "stderr" else "stdout") (snd chunk)).

(** What a process has printed on one of its streams. *)
Fixpoint captured (stderr : bool) (cs : list (bool * string)) : string :=
  match cs with
  | [] => EmptyString
  | (b, text) :: r =>
      if Bool.eqb b stderr then text ++ captured stderr r else captured stderr r
  end.

(** The actions of the [try] block before its last line. *)
Definition progress_action (a : action) : Prop :=
  match a with
  | WriteLine (Status _ _) | WriteLine (Log _ _)
  | Spawn _ _ | WriteFile _ _ | CopyFile _ _ => True
  | _ => False
  end.

(** A line that ends the stream of events. *)
Definition terminal (ev : event) : Prop :=
  match ev with
  | Error _ | Done _ _ => True
  | _ => False
  end.

(** The events of a trace, in order. *)
Fixpoint lines_of (t : list action) : list event :=
  match t with
  | [] => []
  | WriteLine ev :: r => ev :: lines_of r
  | _ :: r => lines_of r
  end.

(** The path of the clip of segment [idx]. *)
Definition segment_path (tempDir : string) (idx : nat) : string :=
  path_join tempDir ("segment-" ++ Str.of_Z (Z.of_nat idx) ++ ".mp4").

(** The manifest for the clips of [n] segments. *)
Definition manifest (tempDir : string) (n : nat) : string :=
  Str.join (String "010" "")
    (map (fun p => "file '" ++ Str.replaceAll "'" "'\''" p ++ "'")
         (map (segment_path tempDir) (seq 0 n))).

(** From [s] to [s'] the server has spawned [k] processes and done
    nothing but the work of the [try] block: the registry and the clock
    are as before. *)
Definition ran (k : nat) (s s' : state) : Prop :=
  jobs s' = jobs s /\ reads s' = reads s
  /\ procs s' = (procs s + k)%nat
  /\ exists t, trace s' = (trace s ++ t)%list /\ Forall progress_action t.

(** An action that neither ends the stream of events nor the response. *)
Definition silent (a : action) : Prop :=
  match a with
  | WriteLine (Error _) | WriteLine (Done _ _) | End_ => False
  | _ => True
  end.

(** The rows of the body, as the handler takes them. *)
Definition rows_of (body : value) : list value :=
  match body_segments body with VArr items => items | _ => [] end.

(** The row that the client posts for a row of the form. *)
Definition posted (r : Client.row) : value :=
  VObj [("url", VStr (Client.r_url r)); ("start", VStr (Client.r_start r));
        ("end", VStr (Client.r_end r))].

(** The entry of [parsedSegments] for a row of the form. *)
Definition item_of (r : Client.row) : Client.parsed_row :=
  Client.mkParsed r (Client.parseTimestamp (VStr (Client.r_start r)))
                  (Client.parseTimestamp (VStr (Client.r_end r))).

(** One round of the loop of the client's [validate]. *)
Definition step (st : bool * list Client.row) (item : Client.parsed_row)
  : bool * list Client.row :=
  (if String.eqb (Client.row_error item) "" then fst st else false,
   Client.update (Client.r_id (Client.item_row item))
                 (Client.mkPatch None None None (Some (Client.row_error item))) (snd st)).

(** A row of the form with the message that [validate] computes for
    it. *)
Definition stamped (r : Client.row) : Client.row :=
  Client.merge r
    (Client.mkPatch None None None
       (Some (Client.row_error
                (Client.mkParsed r (Client.parseTimestamp (VStr (Client.r_start r)))
                                 (Client.parseTimestamp (VStr (Client.r_end r))))))).

(** The text of a stream, from its chunks. *)
Definition whole (chunks : list string) : string :=
  fold_right append EmptyString chunks.

(** What the page shows after a list of lines. *)
Definition shown (debug : bool) (lines : list event) (u : Client.ui) : Client.ui :=
  fold_left (fun u' line => Client.on_line debug line u') lines u.

Definition ids (rows : list Client.row) : list string := map Client.r_id rows.

Definition keys (j : JsMap.t job) : list string := map fst j.

(** An action of a sweep: the removal of the artifact of an entry of [l]
    that is older than the cutoff, or the recursive removal of its
    working directory after the artifact was removed without error. *)
Definition evicts (e : env) (cutoff : Z) (l : list (string * job)) (a : action) : Prop :=
  exists id info,
    In (id, info) l /\ created info < cutoff
    /\ (a = RmSync (job_path info) false
        \/ (a = RmSync (job_tempDir info) true
            /\ rmSync e (job_path info) = None /\ job_tempDir info <> "")).

(** An action that leaves the head of the response alone: no header,
    no status code, no other kind of answer. *)
Definition body_action (a : action) : Prop :=
  match a with
  | SetHeader _ _ | FlushHeaders | SetStatus _ | Json _ | Download _ => False
  | _ => True
  end.

(** A world where the working directory cannot be made. *)
Definition no_scratch : env :=
  mkEnv "/srv" "/tmp" "id-1"
        (fun _ => inr "EACCES: permission denied, mkdtemp '/tmp/yt-stitch-XXXXXX'")
        (fun _ _ _ => ok_proc "http://cdn/v") (fun _ _ => None) (fun _ _ => None)
        (fun _ => None) (fun _ => None) (fun _ => 1000).

(* ================================================================== *)
(** ** Facts about strings *)

Module StrFacts.
Import Str.

(** Settles a statement about one character by trying all of them. *)
Ltac by_bits c :=
  destruct c as [[] [] [] [] [] [] [] []];
  vm_compute; intros; repeat split; congruence.

Lemma digit_not_space c : is_digit c = true -> is_space c = false.
Proof. by_bits c. Qed.

Lemma digit_not_colon c : is_digit c = true -> Ascii.eqb c ":" = false.
Proof. by_bits c. Qed.

Lemma digit_not_sign c :
  is_digit c = true -> Ascii.eqb c "+" = false /\ Ascii.eqb c "-" = false.
Proof. by_bits c. Qed.

Lemma digit_not_radix c :
  is_digit c = true ->
  Ascii.eqb c "x" || Ascii.eqb c "X" = false
  /\ Ascii.eqb c "o" || Ascii.eqb c "O" = false
  /\ Ascii.eqb c "b" || Ascii.eqb c "B" = false.
Proof. by_bits c. Qed.

Lemma digit_not_I c : is_digit c = true -> Ascii.eqb c "I" = false.
Proof. by_bits c. Qed.

Lemma digit_cases d :
  0 <= d < 10 ->
  d = 0 \/ d = 1 \/ d = 2 \/ d = 3 \/ d = 4 \/ d = 5 \/ d = 6 \/ d = 7
  \/ d = 8 \/ d = 9.
Proof. lia. Qed.

Lemma code_digit_char d : 0 <= d < 10 -> code (digit_char d) - 48 = d.
Proof.
  intros H. destruct (digit_cases d H) as [E|[E|[E|[E|[E|[E|[E|[E|[E|E]]]]]]]]];
    subst d; reflexivity.
Qed.

Lemma is_digit_digit_char d : 0 <= d < 10 -> is_digit (digit_char d) = true.
Proof.
  intros H. destruct (digit_cases d H) as [E|[E|[E|[E|[E|[E|[E|[E|[E|E]]]]]]]]];
    subst d; reflexivity.
Qed.

Lemma dec_acc_app s : forall a t, dec_acc a (s ++ t) = dec_acc (dec_acc a s) t.
Proof. induction s as [|c s IH]; intros a t; simpl; [reflexivity | apply IH]. Qed.

Lemma all_digits_app s t :
  all_digits (s ++ t) = all_digits s && all_digits t.
Proof.
  induction s as [|c s IH]; simpl; [reflexivity|].
  rewrite IH. apply andb_assoc.
Qed.

Lemma append_assoc s t u : (s ++ t) ++ u = s ++ (t ++ u).
Proof. induction s as [|c s IH]; simpl; [reflexivity | rewrite IH; reflexivity]. Qed.

Lemma app_not_empty_r s c t : s ++ String c t <> "".
Proof. destruct s; discriminate. Qed.

Lemma one_digit_renders n :
  0 <= n < 10 -> renders (String (digit_char n) "") n.
Proof.
  intros H. unfold renders, dec. cbn [all_digits dec_acc andb].
  rewrite is_digit_digit_char, code_digit_char by exact H.
  repeat split; try discriminate; lia.

Qed.

Lemma more_digits_renders s n :
  10 <= n -> renders s (n / 10) ->
  renders (s ++ String (digit_char (n mod 10)) "") n.
Proof.
  intros Hn (Ha & _ & Hd).
  pose proof (Z.mod_pos_bound n 10 ltac:(lia)) as Hm.
  unfold renders, dec in *. rewrite all_digits_app, dec_acc_app, Hd, Ha.
  cbn [all_digits dec_acc andb].
  rewrite is_digit_digit_char, code_digit_char by exact Hm.
  pose proof (Z.div_mod n 10 ltac:(lia)).
  repeat split; try apply app_not_empty_r; lia.
Qed.

Lemma digits_fuel_renders f :
  forall n, 0 <= n < 2 ^ Z.of_nat (S f) -> renders (digits_fuel (S f) n) n.
Proof.
  induction f as [|f IH]; intros n Hn.
  - change (2 ^ Z.of_nat 1) with 2 in Hn.
    assert ((n <? 10) = true) as E by (apply Z.ltb_lt; lia).
    cbn [digits_fuel]. rewrite E. apply one_digit_renders. lia.
  - change (digits_fuel (S (S f)) n)
      with (if n <? 10 then String (digit_char n) ""
            else digits_fuel (S f) (n / 10) ++ String (digit_char (n mod 10)) "").
    destruct (n <? 10) eqn:E.
    + apply Z.ltb_lt in E. apply one_digit_renders. lia.
    + apply Z.ltb_ge in E. apply more_digits_renders; [exact E|].
      apply IH. split; [apply Z.div_pos; lia|].
      apply Z.div_lt_upper_bound; [lia|].
      rewrite (Nat2Z.inj_succ (S f)), Z.pow_succ_r in Hn by lia. lia.
Qed.

Lemma digits_renders n : 0 <= n -> renders (digits n) n.
Proof.
  intros Hn. unfold digits. apply digits_fuel_renders.
  rewrite Nat2Z.inj_succ, Z2Nat.id by apply Z.log2_nonneg.
  destruct (Z.eq_dec n 0) as [->|Hz]; [simpl; lia|].
  pose proof (Z.log2_spec n ltac:(lia)). lia.
Qed.

Lemma of_Z_renders n : 0 <= n -> renders (of_Z n) n.
Proof.
  intros Hn. unfold of_Z.
  assert ((n <? 0) = false) as -> by (apply Z.ltb_ge; exact Hn).
  apply digits_renders, Hn.
Qed.

(** Padding with zeros keeps the value. *)
Lemma padStart_renders k s n : renders s n -> renders (padStart k "0" s) n.
Proof.
  intros (Ha & Hne & Hd). unfold padStart.
  induction (k - String.length s)%nat as [|j IH]; simpl.
  - repeat split; assumption.
  - destruct IH as (Ha' & _ & Hd'). unfold renders, dec in *. simpl.
    repeat split; [exact Ha' | discriminate | exact Hd'].
Qed.

Lemma trimEnd_digits s : all_digits s = true -> trimEnd s = s.
Proof.
  induction s as [|c s IH]; simpl; [reflexivity|].
  intros H. apply andb_prop in H as [Hc Hs].
  rewrite (IH Hs), (digit_not_space c Hc). destruct s; reflexivity.
Qed.

Lemma trimEnd_app s c t :
  trimEnd (String c t) = String c t -> trimEnd (s ++ String c t) = s ++ String c t.
Proof.
  intros H. induction s as [|d s IH]; [exact H|].
  simpl app. simpl trimEnd. simpl app in IH. rewrite IH.
  destruct s; reflexivity.
Qed.

(** A string that starts and ends with a digit is already trimmed. *)
Lemma trim_digit_ends c s t :
  is_digit c = true -> all_digits t = true -> t <> "" ->
  trim (String c s ++ t) = String c s ++ t.
Proof.
  intros Hc Ht Hne. unfold trim.
  assert (trimStart (String c s ++ t) = String c s ++ t) as ->
    by (simpl; rewrite (digit_not_space c Hc); reflexivity).
  destruct t as [|d t]; [congruence|].
  apply trimEnd_app, trimEnd_digits, Ht.
Qed.

Lemma trim_digits s : all_digits s = true -> trim s = s.
Proof.
  intros H. unfold trim. destruct s as [|c s]; [reflexivity|].
  simpl in H. apply andb_prop in H as [Hc Hs].
  simpl trimStart. rewrite (digit_not_space c Hc).
  apply trimEnd_digits. simpl. rewrite Hc, Hs. reflexivity.
Qed.

Lemma split_digits s : all_digits s = true -> split ":" s = [s].
Proof.
  induction s as [|c s IH]; simpl; [reflexivity|].
  intros H. apply andb_prop in H as [Hc Hs].
  rewrite (digit_not_colon c Hc), (IH Hs). reflexivity.
Qed.

Lemma split_digits_colon s t :
  all_digits s = true -> split ":" (s ++ String ":" t) = s :: split ":" t.
Proof.
  induction s as [|c s IH]; simpl; [reflexivity|].
  intros H. apply andb_prop in H as [Hc Hs].
  rewrite (digit_not_colon c Hc), (IH Hs). reflexivity.
Qed.

Lemma all_digits_colon s t : all_digits (s ++ String ":" t) = false.
Proof.
  rewrite all_digits_app. simpl. apply andb_false_r.
Qed.

Lemma take_digits_all s : all_digits s = true -> take_digits s = (s, "").
Proof.
  induction s as [|c s IH]; simpl; [reflexivity|].
  intros H. apply andb_prop in H as [Hc Hs].
  rewrite Hc, (IH Hs). reflexivity.
Qed.

End StrFacts.

(* ================================================================== *)
(** ** Facts about numbers *)

Module NumFacts.
Import Num.

Lemma Qred_inject_Z z : Qred (inject_Z z) = inject_Z z.
Proof.
  unfold Qred, inject_Z.
  pose proof (Z.ggcd_gcd z 1) as Hg.
  pose proof (Z.ggcd_correct_divisors z 1) as Hd.
  destruct (Z.ggcd z 1) as [g [a b]]. simpl in *.
  rewrite Z.gcd_1_r in Hg. subst g. destruct Hd as [Ha Hb].
  replace a with z by lia. replace b with 1 by lia. reflexivity.
Qed.

Lemma scaled_up n d k : 0 <= k -> scaled n d k = (n * 2 ^ k, d).
Proof. intros H. unfold scaled. apply Z.leb_le in H. rewrite H. reflexivity. Qed.

Lemma scaled_down n d k : 0 <= k -> scaled n d (- k) = (n, d * 2 ^ k).
Proof.
  intros H. unfold scaled. destruct (Z.leb_spec 0 (- k)) as [H0|H0].
  - replace k with 0 by lia. simpl. rewrite !Z.mul_1_r. reflexivity.
  - rewrite Z.opp_involutive. reflexivity.
Qed.

(** The leading bit of [n / d] is below [2^E] when [n / d] is. *)
Lemma ilog2_upper n d E :
  0 < n -> 0 < d -> 0 <= E -> n < d * 2 ^ E -> ilog2 n d <= E - 1.
Proof.
  intros Hn Hd HE H. unfold ilog2.
  set (e := Z.log2 n - Z.log2 d).
  destruct (scaled n d (- e)) as [a b] eqn:Es.
  destruct (Z_lt_ge_dec e E) as [Hlt|Hge].
  - destruct (a <? b); lia.
  - rewrite scaled_down in Es by lia. injection Es as <- <-.
    assert (2 ^ E <= 2 ^ e) by (apply Z.pow_le_mono_r; lia).
    assert ((n <? d * 2 ^ e) = true) as -> by (apply Z.ltb_lt; nia).
    assert (e <= E); [|lia].
    pose proof (Z.log2_spec d Hd) as [_ Hd2].
    assert (n < 2 ^ (Z.succ (Z.log2 d) + E)).
    { rewrite Z.pow_add_r by (pose proof (Z.log2_nonneg d); lia). nia. }
    assert (Z.log2 n < Z.succ (Z.log2 d) + E) by (apply Z.log2_lt_pow2; lia).
    unfold e. lia.
Qed.

Lemma ilog2_Z a : 0 < a -> ilog2 a 1 = Z.log2 a.
Proof.
  intros H. unfold ilog2. change (Z.log2 1) with 0. rewrite Z.sub_0_r.
  pose proof (Z.log2_nonneg a). pose proof (Z.log2_spec a H) as [Hl _].
  rewrite scaled_down by lia.
  assert ((a <? 1 * 2 ^ Z.log2 a) = false) as -> by (apply Z.ltb_ge; lia).
  reflexivity.
Qed.

Lemma rne_Z n : rne n 1 = n.
Proof. unfold rne. rewrite Z.mod_1_r, Z.div_1_r. reflexivity. Qed.

(** [rne] is the quotient or the next integer, and the next one only
    from the middle on. *)
Lemma rne_cases n d :
  rne n d = n / d \/ (rne n d = n / d + 1 /\ d <= 2 * (n mod d)).
Proof.
  unfold rne. destruct (Z.compare_spec (2 * (n mod d)) d) as [E|E|E].
  - destruct (Z.even (n / d)); [left; reflexivity | right; split; [reflexivity | lia]].
  - left; reflexivity.
  - right; split; [reflexivity | lia].
Qed.

Lemma ldexp_down m t : 0 <= t -> (ldexp m (- t) == m # Z.to_pos (2 ^ t))%Q.
Proof.
  intros H. unfold ldexp. destruct (Z.leb_spec 0 (- t)).
  - replace t with 0 by lia. simpl. rewrite Z.mul_1_r. reflexivity.
  - rewrite Z.opp_involutive. reflexivity.
Qed.

Lemma Qfloor_ldexp m t : 0 <= t -> Qfloor (ldexp m (- t)) = m / 2 ^ t.
Proof.
  intros H. rewrite (Qfloor_comp _ _ (ldexp_down m t H)).
  unfold Qfloor. rewrite Z2Pos.id by (apply Z.pow_pos_nonneg; lia). reflexivity.
Qed.

Lemma ldexp_shift a t : 0 <= t -> (ldexp (a * 2 ^ t) (- t) == inject_Z a)%Q.
Proof.
  intros H. rewrite ldexp_down by exact H.
  unfold Qeq, inject_Z. simpl. rewrite Z2Pos.id by (apply Z.pow_pos_nonneg; lia). lia.
Qed.

(** An integer below [2^53] is a binary64 value. *)
Lemma round_pos_Z a : 0 < a < safe -> round_pos a 1 = of_Z a.
Proof.
  unfold safe. intros [H0 H1]. unfold round_pos. rewrite (ilog2_Z a H0).
  assert (Z.log2 a < 53) as Hl by (apply Z.log2_lt_pow2; lia).
  pose proof (Z.log2_nonneg a) as Hl0.
  replace (Z.max (Z.log2 a - 52) (-1074)) with (- (52 - Z.log2 a)) by lia.
  set (t := 52 - Z.log2 a). assert (0 <= t) as Ht by (unfold t; lia).
  rewrite Z.opp_involutive, scaled_up, rne_Z by exact Ht.
  assert ((971 <? - t) = false) as -> by (apply Z.ltb_ge; lia).
  assert ((- t =? 971) = false) as -> by (apply Z.eqb_neq; lia).
  cbn [orb andb]. unfold exact, of_Z.
  rewrite (Qred_complete _ _ (ldexp_shift a t Ht)), Qred_inject_Z. reflexivity.
Qed.

Lemma round_Z q z : (q == inject_Z z)%Q -> 0 <= z < safe -> round q = of_Z z.
Proof.
  intros E H. unfold round. rewrite (Qred_complete _ _ E), Qred_inject_Z.
  unfold inject_Z, Qnum, Qden. destruct z as [|p|p]; [reflexivity | | lia].
  apply round_pos_Z. lia.
Qed.

Lemma add_Z a b : 0 <= a + b < safe -> add (of_Z a) (of_Z b) = of_Z (a + b).
Proof. intros H. apply round_Z; [rewrite inject_Z_plus; reflexivity | exact H]. Qed.

Lemma mul_Z a b : 0 <= a * b < safe -> mul (of_Z a) (of_Z b) = of_Z (a * b).
Proof. intros H. apply round_Z; [rewrite inject_Z_mult; reflexivity | exact H]. Qed.

(** *** Printing integers *)

Lemma length_app s t :
  String.length (s ++ t) = (String.length s + String.length t)%nat.
Proof. induction s as [|c s IH]; simpl; [reflexivity | rewrite IH; reflexivity]. Qed.

Lemma digits_fuel_step f n :
  Str.digits_fuel (S f) n
  = if n <? 10 then String (Str.digit_char n) ""
    else Str.digits_fuel f (n / 10) ++ String (Str.digit_char (n mod 10)) "".
Proof. reflexivity. Qed.

(** More fuel than needed changes nothing. *)
Lemma digits_fuel_enough f :
  forall f' n, 0 <= n < 2 ^ Z.of_nat (S f) -> n < 2 ^ Z.of_nat (S f') ->
               Str.digits_fuel (S f) n = Str.digits_fuel (S f') n.
Proof.
  induction f as [|f IH]; intros f' n Hn Hn'.
  - change (2 ^ Z.of_nat 1) with 2 in Hn. rewrite !digits_fuel_step.
    assert ((n <? 10) = true) as -> by (apply Z.ltb_lt; lia). reflexivity.
  - rewrite (digits_fuel_step (S f)), (digits_fuel_step f').
    destruct (n <? 10) eqn:E; [reflexivity|]. apply Z.ltb_ge in E.
    destruct f' as [|f'].
    + change (2 ^ Z.of_nat 1) with 2 in Hn'. lia.
    + f_equal. apply IH.
      * split; [apply Z.div_pos; lia|]. apply Z.div_lt_upper_bound; [lia|].
        rewrite (Nat2Z.inj_succ (S f)), Z.pow_succ_r in Hn by lia. lia.
      * apply Z.div_lt_upper_bound; [lia|].
        rewrite (Nat2Z.inj_succ (S f')), Z.pow_succ_r in Hn' by lia. lia.
Qed.

Lemma log2_fuel n : 0 <= n -> n < 2 ^ Z.of_nat (S (Z.to_nat (Z.log2 n))).
Proof.
  intros Hn. rewrite Nat2Z.inj_succ, Z2Nat.id by apply Z.log2_nonneg.
  destruct (Z.eq_dec n 0) as [->|Hz]; [simpl; lia|].
  pose proof (Z.log2_spec n ltac:(lia)). lia.
Qed.

Lemma digits_step n :
  10 <= n ->
  Str.digits n = Str.digits (n / 10) ++ String (Str.digit_char (n mod 10)) "".
Proof.
  intros Hn. unfold Str.digits at 1. rewrite digits_fuel_step.
  assert ((n <? 10) = false) as -> by (apply Z.ltb_ge; lia). f_equal.
  assert (0 <= n / 10 < n) as Hq
      by (split; [apply Z.div_pos; lia | apply Z.div_lt; lia]).
  destruct (Z.to_nat (Z.log2 n)) as [|f] eqn:Ef.
  - assert (Z.log2 n = 0) as El by (pose proof (Z.log2_nonneg n); lia).
    pose proof (Z.log2_spec n ltac:(lia)) as Hs. rewrite El in Hs. simpl in Hs. lia.
  - unfold Str.digits. apply digits_fuel_enough.
    + pose proof (log2_fuel n ltac:(lia)) as Hf. rewrite Ef in Hf.
      split; [lia|]. apply Z.div_lt_upper_bound; [lia|].
      rewrite (Nat2Z.inj_succ (S f)), Z.pow_succ_r in Hf by lia. lia.
    + apply log2_fuel. lia.
Qed.

Lemma digits_one n : 0 <= n < 10 -> Str.digits n = String (Str.digit_char n) "".
Proof.
  intros H. unfold Str.digits. rewrite digits_fuel_step.
  assert ((n <? 10) = true) as -> by (apply Z.ltb_lt; lia). reflexivity.
Qed.

(** A positive integer has as many digits as its size asks for. *)
Lemma digits_bounds n :
  1 <= n ->
  let L := Z.of_nat (String.length (Str.digits n)) in
  1 <= L /\ 10 ^ (L - 1) <= n < 10 ^ L.
Proof.
  cbv zeta. induction n as [n IH] using (well_founded_induction (Z.lt_wf 0)).
  intros Hn.
  destruct (Z_lt_ge_dec n 10) as [Hs|Hb].
  - rewrite digits_one by lia. simpl. lia.
  - rewrite digits_step by lia. rewrite length_app. cbn [String.length].
    assert (0 <= n / 10 < n) as Hq
        by (split; [apply Z.div_pos; lia | apply Z.div_lt; lia]).
    assert (1 <= n / 10) as Hq1 by (apply Z.div_le_lower_bound; lia).
    destruct (IH (n / 10) ltac:(lia) Hq1) as (HL & Hlo & Hhi).
    set (L := Z.of_nat (String.length (Str.digits (n / 10)))) in *.
    replace (Z.of_nat (String.length (Str.digits (n / 10)) + 1)) with (L + 1)
      by (unfold L; lia).
    pose proof (Z.div_mod n 10 ltac:(lia)) as Hd.
    pose proof (Z.mod_pos_bound n 10 ltac:(lia)) as Hm.
    replace (L + 1 - 1) with (Z.succ (L - 1)) by lia.
    replace (L + 1) with (Z.succ L) by lia.
    rewrite !Z.pow_succ_r by lia. lia.
Qed.

Lemma repeat_char_end c n :
  Str.repeat_char c n ++ String c "" = Str.repeat_char c (S n).
Proof. induction n as [|n IH]; simpl; [reflexivity | rewrite IH; reflexivity]. Qed.

(** The digits of a multiple of a power of ten end in zeros. *)
Lemma digits_pow10 s j :
  1 <= s -> 0 <= j -> Str.digits (s * 10 ^ j) = Str.digits s ++ zeros j.
Proof.
  intros Hs Hj. revert j Hj. apply natlike_ind.
  - rewrite Z.mul_1_r. unfold zeros. simpl.
    induction (Str.digits s) as [|c r IH]; simpl; [reflexivity | rewrite <- IH; reflexivity].
  - intros j Hj IH. rewrite Z.pow_succ_r by exact Hj.
    assert (1 <= 10 ^ j) by (pose proof (Z.pow_pos_nonneg 10 j); lia).
    assert (1 <= s * 10 ^ j) by nia.
    rewrite digits_step by nia.
    replace (s * (10 * 10 ^ j)) with (s * 10 ^ j * 10) by lia.
    rewrite Z.div_mul, Z.mod_mul by lia. rewrite IH.
    unfold zeros. rewrite Z2Nat.inj_succ by exact Hj.
    rewrite StrFacts.append_assoc. f_equal. apply repeat_char_end.
Qed.

Lemma Qeq_bool_Z a b : Qeq_bool (inject_Z a) (inject_Z b) = (a =? b).
Proof.
  destruct (Z.eqb_spec a b) as [->|Hne].
  - apply Qeq_bool_iff. reflexivity.
  - destruct (Qeq_bool (inject_Z a) (inject_Z b)) eqn:E; [|reflexivity].
    apply Qeq_bool_iff in E. unfold Qeq, inject_Z in E. simpl in E. lia.
Qed.

(** An integer from [2^53] on is rounded to a value from [2^53] on. *)
Lemma round_large v z :
  safe <= v -> z < safe ->
  match round (inject_Z v) with
  | Fin y => Qeq_bool y (inject_Z z)
  | _ => false
  end = false.
Proof.
  unfold safe. intros Hv Hz. unfold round. rewrite Qred_inject_Z.
  change (Qnum (inject_Z v)) with v. change (Z.pos (Qden (inject_Z v))) with 1.
  destruct v as [|p|p]; try lia. set (v := Z.pos p) in *.
  unfold round_pos. rewrite (ilog2_Z v ltac:(lia)).
  assert (53 <= Z.log2 v) as Hl
      by (change 53 with (Z.log2 (2 ^ 53)); apply Z.log2_le_mono; lia).
  pose proof (Z.log2_spec v ltac:(lia)) as [Hlo _].
  replace (Z.max (Z.log2 v - 52) (-1074)) with (Z.log2 v - 52) by lia.
  set (s := Z.log2 v - 52). assert (1 <= s) as Hs by (unfold s; lia).
  rewrite scaled_down by lia. rewrite Z.mul_1_l.
  set (m := rne v (2 ^ s)).
  destruct ((971 <? s) || ((s =? 971) && (m =? 2 ^ 53))); [reflexivity|].
  assert (0 < 2 ^ s) as Hp by (apply Z.pow_pos_nonneg; lia).
  assert (2 ^ 52 <= v / 2 ^ s) as Hq.
  { apply Z.div_le_lower_bound; [lia|].
    replace (Z.log2 v) with (s + 52) in Hlo by (unfold s; lia).
    rewrite Z.pow_add_r in Hlo by lia. lia. }
  assert (2 ^ 52 <= m) as Hm
      by (unfold m; destruct (rne_cases v (2 ^ s)) as [-> | [-> _]]; lia).
  unfold exact, ldexp.
  assert ((0 <=? s) = true) as -> by (apply Z.leb_le; lia).
  rewrite Qred_inject_Z, Qeq_bool_Z. apply Z.eqb_neq.
  assert (2 * 2 ^ 52 <= 2 ^ s * 2 ^ 52).
  { apply Z.mul_le_mono_nonneg_r; [lia|].
    change 2 with (2 ^ 1) at 1. apply Z.pow_le_mono_r; lia. }
  nia.
Qed.

Lemma pow10_nonneg j : 0 <= j -> pow10 j = inject_Z (10 ^ j).
Proof. intros H. unfold pow10. apply Z.leb_le in H. rewrite H. reflexivity. Qed.

(** What [s * 10^j] is read back as, next to an integer below [2^53]. *)
Lemma reads_as_Z z s j :
  0 <= z < safe -> 0 <= s -> 0 <= j ->
  reads_as (inject_Z z) s j = (s * 10 ^ j =? z).
Proof.
  intros Hz Hs Hj. unfold reads_as. rewrite pow10_nonneg by exact Hj.
  assert (0 <= 10 ^ j) by (apply Z.pow_nonneg; lia).
  assert (round (inject_Z s * inject_Z (10 ^ j)) = round (inject_Z (s * 10 ^ j))) as ->.
  { unfold round. rewrite (Qred_complete (inject_Z s * inject_Z (10 ^ j))
                                         (inject_Z (s * 10 ^ j))); [reflexivity|].
    rewrite inject_Z_mult. reflexivity. }
  destruct (Z_lt_ge_dec (s * 10 ^ j) safe) as [Hlt|Hge].
  - rewrite (round_Z (inject_Z (s * 10 ^ j)) (s * 10 ^ j)); [|reflexivity|nia].
    apply Qeq_bool_Z.
  - rewrite round_large by lia. symmetry. apply Z.eqb_neq. lia.
Qed.

Lemma Qfloor_pow10 z j : 0 <= j -> Qfloor (inject_Z z * pow10 (- j)) = z / 10 ^ j.
Proof.
  intros Hj. unfold pow10. destruct (Z.leb_spec 0 (- j)).
  - replace j with 0 by lia. change (10 ^ (- 0)) with 1. change (10 ^ 0) with 1.
    rewrite <- inject_Z_mult, Qfloor_Z, Z.div_1_r. lia.
  - rewrite Z.opp_involutive. unfold Qfloor, Qmult, inject_Z. cbn [Qnum Qden].
    rewrite Z.mul_1_r, Pos.mul_1_l, Z2Pos.id by (apply Z.pow_pos_nonneg; lia).
    reflexivity.
Qed.

(** With [k] digits, an integer below [2^53] is read back from its own
    digits alone, if [k] are enough for them. *)
Lemma candidate_Z z L k :
  1 <= z < safe -> 1 <= k <= L ->
  candidate (inject_Z z) L k
  = if z mod 10 ^ (L - k) =? 0 then Some (z / 10 ^ (L - k)) else None.
Proof.
  intros Hz Hk. unfold candidate.
  replace (k - L) with (- (L - k)) by lia. rewrite Qfloor_pow10 by lia.
  set (j := L - k). set (p := 10 ^ j).
  assert (0 < p) as Hp by (apply Z.pow_pos_nonneg; unfold j; lia).
  pose proof (Z.div_mod z p ltac:(lia)) as Hd.
  pose proof (Z.mod_pos_bound z p Hp) as Hm.
  assert (0 <= z / p) as Hq by (apply Z.div_pos; lia).
  rewrite !reads_as_Z by (unfold j; lia). fold p.
  assert (((z / p + 1) * p =? z) = false) as -> by (apply Z.eqb_neq; lia).
  rewrite andb_false_r.
  destruct (Z.eqb_spec (z mod p) 0) as [E|E].
  - assert ((z / p * p =? z) = true) as -> by (apply Z.eqb_eq; lia). reflexivity.
  - assert ((z / p * p =? z) = false) as -> by (apply Z.eqb_neq; lia). reflexivity.
Qed.

Lemma shortest_Z z L :
  1 <= z < safe ->
  forall fuel k,
    1 <= k <= L -> L - k < Z.of_nat fuel ->
    exists s0 k0,
      shortest fuel (inject_Z z) L k = (s0, k0)
      /\ k <= k0 <= L /\ 1 <= s0 /\ z = s0 * 10 ^ (L - k0).
Proof.
  intros Hz. induction fuel as [|f IH]; intros k Hk Hf; [simpl in Hf; lia|].
  cbn [shortest]. rewrite (candidate_Z z L k Hz Hk).
  assert (0 < 10 ^ (L - k)) as Hp by (apply Z.pow_pos_nonneg; lia).
  pose proof (Z.div_mod z (10 ^ (L - k)) ltac:(lia)) as Hd.
  destruct (Z.eqb_spec (z mod 10 ^ (L - k)) 0) as [E|E].
  - exists (z / 10 ^ (L - k)), k. split; [reflexivity|]. split; [lia|].
    split; [|lia].
    assert (0 <= z / 10 ^ (L - k)) by (apply Z.div_pos; lia).
    destruct (Z.eq_dec (z / 10 ^ (L - k)) 0) as [E0|]; [|lia].
    rewrite E0 in Hd. lia.
  - destruct (Z.eq_dec k L) as [->|Hne].
    + rewrite Z.sub_diag in E. simpl in E. rewrite Z.mod_1_r in E. congruence.
    + destruct (IH (k + 1)) as (s0 & k0 & Es & Hk0 & Hs0 & Hz0); [lia | lia |].
      exists s0, k0. split; [exact Es|]. split; [lia|]. split; assumption.
Qed.

(** A positive integer below [2^53] is printed with its decimal digits:
    they are the shortest that are read back as it. *)
Lemma toString_pos_Z z :
  1 <= z < safe -> toString_pos (inject_Z z) = Str.digits z.
Proof.
  intros Hz. unfold toString_pos, shortest_digits, decimal_exponent.
  assert (Qle_bool 1 (inject_Z z) = true) as ->.
  { apply Qle_bool_iff. unfold Qle, inject_Z. simpl. lia. }
  rewrite Qfloor_Z.
  destruct (digits_bounds z ltac:(lia)) as (HL & Hlo & Hhi).
  set (L := Z.of_nat (String.length (Str.digits z))) in *.
  assert (L <= 16) as HL16.
  { destruct (Z_le_gt_dec L 16) as [|Hgt]; [assumption|].
    assert (10 ^ 16 <= 10 ^ (L - 1)) by (apply Z.pow_le_mono_r; lia).
    unfold safe in Hz. lia. }
  rewrite reads_as_Z by lia.
  assert ((1 * 10 ^ L =? z) = false) as -> by (apply Z.eqb_neq; lia).
  destruct (shortest_Z z L Hz 17 1) as (s0 & k0 & -> & Hk0 & Hs0 & Ez);
    [lia | simpl; lia |].
  assert (((k0 <=? L) && (L <=? 21)) = true) as ->
      by (apply andb_true_intro; split; apply Z.leb_le; lia).
  rewrite <- digits_pow10 by lia. rewrite <- Ez. reflexivity.
Qed.

Lemma toString_Z z : - safe < z < safe -> toString (of_Z z) = Str.of_Z z.
Proof.
  intros H. unfold toString, of_Z, Str.of_Z. unfold inject_Z at 1. cbn [Qnum].
  destruct z as [|p|p].
  - reflexivity.
  - change (Z.pos p <? 0) with false. apply toString_pos_Z. lia.
  - change (Z.neg p <? 0) with true.
    change (- inject_Z (Z.neg p))%Q with (inject_Z (Z.pos p)).
    rewrite toString_pos_Z by lia. reflexivity.
Qed.

Lemma half_gap n d k P r R :
  n = d * k + r -> n * P = d * ((k + 1) * P - 1) + R -> R = d - (d - r) * P.
Proof. intros -> H. lia. Qed.

(** The quotient of a positive [n] by [d], rounded to binary64, still
    has the integral part of [n / d], as long as [n / d] is below [2^E]
    and [d] below [2^(54 - E)]: half a unit in the last place is then less
    than [1 / d]. *)
Lemma round_pos_floor n d E :
  0 < n -> 0 < d -> 0 <= E <= 53 -> n < d * 2 ^ E -> d * 2 ^ E < 2 ^ 54 ->
  exists y, round_pos n d = Fin y /\ Qfloor y = n / d.
Proof.
  intros Hn Hd HE Hlt Hsmall. unfold round_pos.
  pose proof (ilog2_upper n d E Hn Hd (proj1 HE) Hlt) as He.
  set (s := Z.max (ilog2 n d - 52) (-1074)).
  assert (s <= E - 53) as Hs by (unfold s; lia).
  set (t := - s). assert (53 - E <= t) as Ht by (unfold t; lia).
  replace s with (- t) by (unfold t; lia).
  rewrite scaled_up by lia.
  assert ((971 <? - t) = false) as -> by (apply Z.ltb_ge; lia).
  assert ((- t =? 971) = false) as -> by (apply Z.eqb_neq; lia).
  cbn [orb andb]. unfold exact. eexists. split; [reflexivity|].
  rewrite (Qfloor_comp _ _ (Qred_correct _)), Qfloor_ldexp by lia.
  assert (0 < 2 ^ t) as Hp by (apply Z.pow_pos_nonneg; lia).
  assert (2 ^ (54 - E) <= 2 ^ (t + 1)) as Hpw by (apply Z.pow_le_mono_r; lia).
  assert (2 ^ 54 = 2 ^ (54 - E) * 2 ^ E) as H54
      by (rewrite <- Z.pow_add_r by lia; f_equal; lia).
  assert (0 < 2 ^ E) as HpE by (apply Z.pow_pos_nonneg; lia).
  assert (d < 2 ^ (54 - E)) as Hd54 by nia.
  assert (d < 2 * 2 ^ t) as Hdt.
  { replace (2 * 2 ^ t) with (2 ^ (t + 1)); [lia|].
    rewrite Z.pow_add_r by lia. lia. }
  set (k := n / d).
  pose proof (Z.div_mod n d ltac:(lia)) as Hk.
  pose proof (Z.mod_pos_bound n d Hd) as Hr. fold k in Hk.
  set (N := n * 2 ^ t).
  pose proof (Z.div_mod N d ltac:(lia)) as HN.
  pose proof (Z.mod_pos_bound N d Hd) as HR.
  assert (k * 2 ^ t <= N / d) as Hlow by (apply Z.div_le_lower_bound; unfold N; nia).
  assert (N / d < (k + 1) * 2 ^ t) as Hup by (apply Z.div_lt_upper_bound; unfold N; nia).
  assert (k * 2 ^ t <= rne N d < (k + 1) * 2 ^ t) as Hm.
  { destruct (rne_cases N d) as [-> | [-> Hhalf]]; [lia|].
    split; [lia|].
    destruct (Z.eq_dec (N / d) ((k + 1) * 2 ^ t - 1)) as [Eq|]; [|lia].
    exfalso. rewrite Eq in HN. unfold N in HN.
    assert (N mod d = d - (d - n mod d) * 2 ^ t) as HR'
        by (apply (half_gap n d k); assumption).
    assert (1 * 2 ^ t <= (d - n mod d) * 2 ^ t)
      by (apply Z.mul_le_mono_nonneg_r; lia).
    lia. }
  symmetry. apply Z.div_unique with (r := rne N d - k * 2 ^ t); lia.
Qed.

Lemma Qred_den_le q : Z.pos (Qden (Qred q)) <= Z.pos (Qden q).
Proof.
  destruct q as [a b]. unfold Qred.
  pose proof (Z.ggcd_gcd a (Z.pos b)) as Hg.
  pose proof (Z.ggcd_correct_divisors a (Z.pos b)) as Hd.
  pose proof (Z.gcd_nonneg a (Z.pos b)) as H0.
  destruct (Z.ggcd a (Z.pos b)) as [g [aa bb]]. simpl in *.
  destruct Hd as [_ Hb]. rewrite <- Hg in H0.
  assert (0 < g) by (destruct (Z.eq_dec g 0); [subst; lia | lia]).
  assert (0 < bb) by nia.
  rewrite Z2Pos.id by lia. nia.
Qed.

Lemma Qfloor_nonneg y : 0 <= Qfloor y -> 0 <= Qnum y.
Proof.
  destruct y as [a b]. unfold Qfloor, Qnum, Qden. intros H.
  destruct (Z_lt_ge_dec a 0) as [Hn|]; [|lia].
  pose proof (Z.div_lt_upper_bound a (Z.pos b) 0 ltac:(lia) ltac:(lia)). lia.
Qed.

(** [n / p] in binary64, for integers [n >= 0] and [p > 0] with
    [n / p < 2^E] and [p < 2^(54 - E)]: a value with the integral part
    of the quotient. *)
Lemma div_Z n p E :
  0 <= n -> 0 <= E <= 53 -> n < Z.pos p * 2 ^ E -> Z.pos p * 2 ^ E < 2 ^ 54 ->
  exists y, div (of_Z n) (of_Z (Z.pos p)) = Fin y
            /\ 0 <= Qnum y /\ Qfloor y = n / Z.pos p.
Proof.
  intros Hn HE Hlt Hsmall.
  change (div (of_Z n) (of_Z (Z.pos p))) with (round (inject_Z n / inject_Z (Z.pos p))).
  unfold round. set (q := (inject_Z n / inject_Z (Z.pos p))%Q).
  pose proof (Qred_correct q) as Hq. pose proof (Qred_den_le q) as Hden.
  assert (Qfloor (Qred q) = n / Z.pos p) as Hfl
      by (rewrite (Qfloor_comp _ _ Hq); unfold q; rewrite <- Zdiv_Qdiv; reflexivity).
  assert (0 <= n / Z.pos p) as Hk by (apply Z.div_pos; lia).
  assert (0 < 2 ^ E) as HpE by (apply Z.pow_pos_nonneg; lia).
  destruct (Qred q) as [a b] eqn:Er. unfold Qeq in Hq.
  change (Qnum q) with (n * 1) in Hq. change (Qden q) with (1 * p)%positive in *.
  cbn [Qnum Qden] in *. rewrite Pos.mul_1_l in *.
  destruct a as [|a|a].
  - exists (inject_Z 0). split; [reflexivity|]. split; [simpl; lia|].
    rewrite <- Hfl. reflexivity.
  - destruct (round_pos_floor (Z.pos a) (Z.pos b) E) as (y & Ey & Fy); try lia.
    + apply Z.mul_lt_mono_pos_r with (p := Z.pos p); [lia|]. nia.
    + nia.
    + exists y. split; [exact Ey|]. unfold Qfloor in Hfl. cbn [Qnum Qden] in Hfl.
      rewrite Hfl in Fy. split; [apply Qfloor_nonneg; lia | exact Fy].
  - lia.
Qed.

Lemma rem_pos x p :
  rem (Fin x) (of_Z (Z.pos p))
  = exact (x - inject_Z (Z.pos p) * inject_Z (Qtrunc (x / inject_Z (Z.pos p)))).
Proof. reflexivity. Qed.

Lemma Qfloor_sub_Z x m : Qfloor (x - inject_Z m) = Qfloor x - m.
Proof.
  destruct x as [a b]. unfold Qminus, Qplus, Qopp, inject_Z, Qfloor, Qnum, Qden.
  rewrite Pos.mul_1_r, Z.mul_1_r.
  replace (a + - m * Z.pos b) with (a + (- m) * Z.pos b) by lia.
  rewrite Z.div_add by discriminate. lia.
Qed.

Lemma Qtrunc_div x p :
  0 <= Qnum x -> Qtrunc (x / inject_Z (Z.pos p)) = Qfloor x / Z.pos p.
Proof.
  intros H. destruct x as [a b]. simpl in H.
  unfold Qtrunc, Qdiv, Qmult, Qinv, inject_Z, Qfloor, Qnum, Qden.
  rewrite Z.mul_1_r, Z.quot_div_nonneg, Pos2Z.inj_mul by lia.
  rewrite Z.div_div by lia. reflexivity.
Qed.

(** [Math.floor(x % k)] for a value [x >= 0] and an integer [k > 0]:
    the remainder is exact. *)
Lemma floor_rem x p :
  0 <= Qnum x ->
  floor (rem (Fin x) (of_Z (Z.pos p))) = of_Z (Qfloor x mod Z.pos p).
Proof.
  intros H. rewrite rem_pos. unfold exact, floor. f_equal.
  rewrite (Qfloor_comp _ _ (Qred_correct _)).
  rewrite <- inject_Z_mult, Qfloor_sub_Z, Qtrunc_div by exact H.
  rewrite Z.mod_eq by discriminate. reflexivity.
Qed.

Lemma floor_rem_Z n p :
  0 <= n -> floor (rem (of_Z n) (of_Z (Z.pos p))) = of_Z (n mod Z.pos p).
Proof.
  intros H. unfold of_Z at 1. rewrite floor_rem by exact H.
  rewrite Qfloor_Z. reflexivity.
Qed.

(** [Math.floor(n / k)] for integers [n >= 0] and [k > 0]. *)
Lemma floor_div_Z n p E :
  0 <= n -> 0 <= E <= 53 -> n < Z.pos p * 2 ^ E -> Z.pos p * 2 ^ E < 2 ^ 54 ->
  floor (div (of_Z n) (of_Z (Z.pos p))) = of_Z (n / Z.pos p).
Proof.
  intros Hn HE H1 H2. destruct (div_Z n p E Hn HE H1 H2) as (y & -> & _ & Fy).
  unfold floor. rewrite Fy. reflexivity.
Qed.

Lemma floor_rem_div_Z n p r E :
  0 <= n -> 0 <= E <= 53 -> n < Z.pos p * 2 ^ E -> Z.pos p * 2 ^ E < 2 ^ 54 ->
  floor (rem (div (of_Z n) (of_Z (Z.pos p))) (of_Z (Z.pos r)))
  = of_Z ((n / Z.pos p) mod Z.pos r).
Proof.
  intros Hn HE H1 H2. destruct (div_Z n p E Hn HE H1 H2) as (y & -> & Hy & Fy).
  rewrite floor_rem by exact Hy. rewrite Fy. reflexivity.
Qed.

Lemma ge_Z a b : ge (of_Z a) (of_Z b) = (b <=? a).
Proof.
  unfold ge, of_Z, Qle_bool, inject_Z, Qnum, Qden.
  rewrite !Z.mul_1_r. reflexivity.
Qed.

End NumFacts.

(* ================================================================== *)
(** ** The timestamp codec *)

Module CodecFacts.
Import Str Num StrFacts NumFacts.

Lemma radix_prefix_digits s : all_digits s = true -> radix_prefix s = None.
Proof.
  destruct s as [|c0 [|c r]]; try reflexivity.
  simpl. intros H.
  apply andb_prop in H as [_ H]. apply andb_prop in H as [Hc _].
  destruct (digit_not_radix c Hc) as (-> & -> & ->).
  destruct (Ascii.eqb c0 "0"); reflexivity.
Qed.

Lemma dec_acc_nonneg s :
  forall a, 0 <= a -> all_digits s = true -> 0 <= dec_acc a s.
Proof.
  induction s as [|c s IH]; simpl; intros a Ha H; [exact Ha|].
  apply andb_prop in H as [Hc Hs]. apply IH; [|exact Hs].
  unfold is_digit in Hc. apply andb_prop in Hc as [Hc _]. apply Z.leb_le in Hc. lia.
Qed.

Lemma renders_nonneg s n : renders s n -> 0 <= n.
Proof. intros (Ha & _ & <-). apply dec_acc_nonneg; [lia | exact Ha]. Qed.

Lemma unsigned_literal_digits s :
  test_digits s = true -> dec s < safe -> unsigned_literal s = of_Z (dec s).
Proof.
  unfold test_digits. intros H Hb. apply andb_prop in H as [Hne Ha].
  pose proof (dec_acc_nonneg s 0 ltac:(lia) Ha) as H0. fold (dec s) in H0.
  unfold unsigned_literal, StrUnsignedDecimalLiteral.
  rewrite (take_digits_all s Ha).
  destruct s as [|c r]; [discriminate|].
  simpl in Ha. apply andb_prop in Ha as [Hc _].
  cbn [String.eqb]. rewrite (digit_not_I c Hc). cbn [andb ExponentPart].
  apply round_Z; [|lia].
  change (dec "") with 0. change (10 ^ Z.of_nat (String.length "")) with 1.
  change (Qpower (inject_Z 10) 0) with 1%Q.
  unfold Qdiv. rewrite Qmult_0_l, Qplus_0_r, Qmult_1_r. reflexivity.
Qed.

(** [Number] reads a string of digits as its decimal value, as long as
    that is below [2^53]. *)
Lemma Number_digits s :
  test_digits s = true -> dec s < safe -> Number s = of_Z (dec s).
Proof.
  intros H Hb. pose proof H as H'. unfold test_digits in H'.
  apply andb_prop in H' as [Hne Ha].
  unfold Number. rewrite (trim_digits s Ha).
  apply negb_true_iff in Hne. rewrite Hne, (radix_prefix_digits s Ha).
  destruct s as [|c r]; [discriminate|].
  simpl in Ha. apply andb_prop in Ha as [Hc _].
  unfold StrDecimalLiteral. destruct (digit_not_sign c Hc) as [-> ->].
  apply unsigned_literal_digits; assumption.
Qed.

Lemma renders_test s n : renders s n -> test_digits s = true.
Proof.
  intros (Ha & Hne & _). unfold test_digits. rewrite Ha.
  destruct s; [congruence | reflexivity].
Qed.

Lemma Number_renders s n : renders s n -> n < safe -> Number s = of_Z n.
Proof.
  intros H Hb. pose proof (renders_test s n H) as Ht.
  destruct H as (_ & _ & <-). apply Number_digits; assumption.
Qed.

(** Three groups of digits are read as hours, minutes and seconds. *)
Lemma parse_three hs ms ss h m s :
  renders hs h -> renders ms m -> renders ss s ->
  h * 3600 + m * 60 + s < safe ->
  parseTimestamp (VStr (hs ++ ":" ++ ms ++ ":" ++ ss))
  = Some (of_Z (h * 3600 + m * 60 + s)).
Proof.
  intros Hh Hm Hs Hb.
  pose proof (renders_nonneg _ _ Hh) as Ph.
  pose proof (renders_nonneg _ _ Hm) as Pm.
  pose proof (renders_nonneg _ _ Hs) as Ps.
  pose proof (Number_renders _ _ Hh ltac:(lia)) as Nh.
  pose proof (Number_renders _ _ Hm ltac:(lia)) as Nm.
  pose proof (Number_renders _ _ Hs ltac:(lia)) as Ns.
  destruct Hh as (Ah & Eh & _), Hm as (Am & _ & _), Hs as (As & Es & _).
  unfold parseTimestamp.
  assert (trim (hs ++ ":" ++ ms ++ ":" ++ ss) = hs ++ ":" ++ ms ++ ":" ++ ss) as ->.
  { destruct hs as [|c hs]; [congruence|].
    simpl in Ah. apply andb_prop in Ah as [Hc _].
    replace (String c hs ++ ":" ++ ms ++ ":" ++ ss)
      with (String c (hs ++ ":" ++ ms ++ ":") ++ ss).
    - apply trim_digit_ends; assumption.
    - simpl. f_equal. rewrite append_assoc. simpl. rewrite append_assoc. reflexivity. }
  assert (String.eqb (hs ++ ":" ++ ms ++ ":" ++ ss) "" = false) as ->
    by (destruct hs; [congruence | reflexivity]).
  assert (test_digits (hs ++ ":" ++ ms ++ ":" ++ ss) = false) as ->.
  { unfold test_digits. change (":" ++ ms ++ ":" ++ ss) with (String ":" (ms ++ ":" ++ ss)).
    rewrite all_digits_colon. apply andb_false_r. }
  change (":" ++ ms ++ ":" ++ ss) with (String ":" (ms ++ String ":" ss)).
  rewrite (split_digits_colon hs _ Ah), (split_digits_colon ms _ Am), (split_digits ss As).
  cbn [map]. rewrite Nh, Nm, Ns. cbn [existsb isNaN of_Z orb].
  change (Fin (inject_Z h)) with (of_Z h).
  change (Fin (inject_Z m)) with (of_Z m).
  change (Fin (inject_Z s)) with (of_Z s).
  rewrite !mul_Z, !add_Z by lia. reflexivity.
Qed.

(** The inputs that the specification lists. *)
Example parse_acceptance :
  parseTimestamp (VStr "90") = Some (of_Z 90)
  /\ parseTimestamp (VStr "1:30") = Some (of_Z 90)
  /\ parseTimestamp (VStr "01:02:03") = Some (of_Z 3723)
  /\ parseTimestamp (VStr "abc") = None
  /\ parseTimestamp (VStr "") = None
  /\ parseTimestamp (VNum (of_Z 90)) = None.
Proof. repeat split; reflexivity. Qed.

(** Rounding at work: a literal between two binary64 values, a literal
    beyond the largest one, the exponent form, shortest digits, and a
    number of seconds above [2^53], whose quotient by 60 is rounded up
    to the next integer, so that the minutes come out as 5 instead of 4. *)
Example binary64_samples :
  Number "9007199254740993" = of_Z 9007199254740992
  /\ Number "1e400" = PInf
  /\ toString (Number "1e21") = "1e+21"
  /\ toString (of_Z (2 ^ 60)) = "1152921504606847000"
  /\ toString (add (Number "0.1") (Number "0.2")) = "0.30000000000000004"
  /\ toString_pos (inject_Z 9007199254740991) = "9007199254740991"
  /\ toString_pos (inject_Z 3600000) = "3600000"
  /\ formatTimestamp (Number "3.6e24") = "1e+21:00:20"
  /\ formatTimestamp (of_Z (60 * 2 ^ 50 + 56)) = "18764998447377:05:56"
  /\ ((60 * 2 ^ 50 + 56) / 60) mod 60 = 4
  /\ parseTimestamp (VStr "0.01:0.3") = Some (Number "0.8999999999999999").
Proof. vm_compute. repeat split. Qed.

(** The three fields that [formatTimestamp] prints for an integer. *)
Lemma format_fields n :
  0 <= n < safe ->
  formatTimestamp (of_Z n)
  = padStart 2 "0" (Str.of_Z (n / 3600)) ++ ":"
    ++ padStart 2 "0" (Str.of_Z ((n / 60) mod 60)) ++ ":"
    ++ padStart 2 "0" (Str.of_Z (n mod 60)).
Proof.
  unfold safe. intros H. unfold formatTimestamp.
  pose proof (Z.mod_pos_bound n 60 ltac:(lia)) as Hs.
  pose proof (Z.mod_pos_bound (n / 60) 60 ltac:(lia)) as Hm.
  assert (0 <= n / 3600 <= n) as Hh
      by (split; [apply Z.div_pos; lia | apply Z.div_le_upper_bound; lia]).
  rewrite (floor_rem_Z n 60 ltac:(lia)).
  rewrite (floor_rem_div_Z n 60 60 48) by lia.
  rewrite (floor_div_Z n 3600 42) by lia.
  rewrite !toString_Z by (unfold safe; lia). reflexivity.
Qed.

End CodecFacts.

(** C1, as stated, fails: numbers are binary64 values, and above [2^53]
    the sums of [parseTimestamp] are rounded.  The integer [2^55 + 56],
    which is a binary64 value, is printed as ["10007999171934:27:04"],
    which is exact, and read back as [2^55 + 48]. *)
Lemma roundtrip_fails_above_safe :
  Num.Number "36028797018964024" = Num.of_Z (2 ^ 55 + 56)
  /\ formatTimestamp (Num.of_Z (2 ^ 55 + 56)) = "10007999171934:27:04"
  /\ 10007999171934 * 3600 + 27 * 60 + 4 = 2 ^ 55 + 56
  /\ parseTimestamp (VStr (formatTimestamp (Num.of_Z (2 ^ 55 + 56))))
     = Some (Num.of_Z (2 ^ 55 + 48))
  /\ parseTimestamp (VStr (formatTimestamp (Num.of_Z (2 ^ 55 + 56))))
     <> Some (Num.of_Z (2 ^ 55 + 56)).
Proof.
  assert (parseTimestamp (VStr (formatTimestamp (Num.of_Z (2 ^ 55 + 56))))
          = Some (Num.of_Z (2 ^ 55 + 48))) as E by (vm_compute; reflexivity).
  split; [vm_compute; reflexivity|].
  split; [vm_compute; reflexivity|]. split; [reflexivity|].
  split; [exact E|]. rewrite E. vm_compute. discriminate.
Qed.

(** C1, amended.  Timestamp round trip: parsing what [formatTimestamp]
    prints for a non-negative integer number of seconds below [2^53] gives
    that number back, also when the hours need more than two digits. *)
Theorem parse_format_roundtrip (n : Z) :
  0 <= n < 2 ^ 53 ->
  parseTimestamp (VStr (formatTimestamp (Num.of_Z n))) = Some (Num.of_Z n).
Proof.
  intros H. change (2 ^ 53) with Num.safe in H.
  rewrite (CodecFacts.format_fields n H). unfold Num.safe in H.
  pose proof (Z.mod_pos_bound n 60 ltac:(lia)) as Hs.
  pose proof (Z.mod_pos_bound (n / 60) 60 ltac:(lia)) as Hm.
  assert (0 <= n / 3600) as Hh by (apply Z.div_pos; lia).
  assert (n / 3600 * 3600 + (n / 60) mod 60 * 60 + n mod 60 = n) as En.
  { pose proof (Z.div_mod n 60 ltac:(lia)).
    pose proof (Z.div_mod (n / 60) 60 ltac:(lia)).
    replace (n / 3600) with (n / 60 / 60) by (rewrite Z.div_div by lia; reflexivity).
    lia. }
  rewrite (CodecFacts.parse_three _ _ _ (n / 3600) ((n / 60) mod 60) (n mod 60)).
  - rewrite En. reflexivity.
  - apply StrFacts.padStart_renders, StrFacts.of_Z_renders, Hh.
  - apply StrFacts.padStart_renders, StrFacts.of_Z_renders. lia.
  - apply StrFacts.padStart_renders, StrFacts.of_Z_renders. lia.
  - rewrite En. unfold Num.safe. lia.
Qed.

(** The round trip at 100 hours, printed as ["100:00:00"], and at the
    largest number of seconds it holds for. *)
Lemma parse_format_roundtrip_witness :
  0 <= 360000 < 2 ^ 53
  /\ formatTimestamp (Num.of_Z 360000) = "100:00:00"
  /\ parseTimestamp (VStr (formatTimestamp (Num.of_Z 360000)))
     = Some (Num.of_Z 360000)
  /\ formatTimestamp (Num.of_Z (2 ^ 53 - 1)) = "2501999792983:36:31".
Proof.
  split; [lia|]. split; [vm_compute; reflexivity|].
  split; [apply (parse_format_roundtrip 360000); lia | vm_compute; reflexivity].
Defined.

(** C2, as stated, fails: a group that is no non-negative integer is
    accepted as soon as [Number] converts it.  An empty group counts as 0,
    a fractional and a negative group keep their value. *)
Lemma parse_accepts_irregular_groups :
  (In "" (Str.split ":" (Str.trim "1:")) /\ Str.test_digits "" = false
   /\ parseTimestamp (VStr "1:") = Some (Num.of_Z 60))
  /\ (In "1.5" (Str.split ":" (Str.trim "1.5:30")) /\ Str.test_digits "1.5" = false
      /\ parseTimestamp (VStr "1.5:30") = Some (Num.of_Z 120))
  /\ (In "-1" (Str.split ":" (Str.trim "-1:30")) /\ Str.test_digits "-1" = false
      /\ parseTimestamp (VStr "-1:30") = Some (Num.of_Z (-30))).
Proof.
  repeat split; try reflexivity; simpl; auto.
Qed.

(** C2, amended.  [parseTimestamp] returns null exactly when the trimmed
    input is empty, or is not pure digits and either has a group that
    [Number] turns into [NaN] or does not have two or three groups. *)
Theorem parse_null_iff (s : string) :
  parseTimestamp (VStr s) = None <->
  Str.trim s = ""
  \/ (Str.test_digits (Str.trim s) = false
      /\ ((exists g, In g (Str.split ":" (Str.trim s)) /\ Num.Number g = NaN)
          \/ (List.length (Str.split ":" (Str.trim s)) <> 2%nat
              /\ List.length (Str.split ":" (Str.trim s)) <> 3%nat))).
Proof.
  unfold parseTimestamp.
  set (v := Str.trim s).
  assert (existsb Num.isNaN (map Num.Number (Str.split ":" v)) = true
          <-> exists g, In g (Str.split ":" v) /\ Num.Number g = NaN) as Hnan.
  { rewrite existsb_exists. split.
    - intros (x & Hin & Hx). apply in_map_iff in Hin as (g & <- & Hg).
      exists g. split; [exact Hg|]. destruct (Num.Number g); try discriminate. reflexivity.
    - intros (g & Hg & E). exists (Num.Number g). split.
      + apply in_map, Hg.
      + rewrite E. reflexivity. }
  destruct (String.eqb v "") eqn:Ev.
  - apply String.eqb_eq in Ev. tauto.
  - apply String.eqb_neq in Ev.
    destruct (Str.test_digits v) eqn:Et.
    + split; [discriminate|]. intros [H|[H _]]; congruence.
    + rewrite <- (length_map Num.Number (Str.split ":" v)).
      destruct (existsb Num.isNaN (map Num.Number (Str.split ":" v))) eqn:En.
      * split; [|reflexivity]. intros _. right. split; [reflexivity|].
        left. apply Hnan. reflexivity.
      * assert (~ exists g, In g (Str.split ":" v) /\ Num.Number g = NaN) as Hno
          by (rewrite <- Hnan; discriminate).
        destruct (map Num.Number (Str.split ":" v)) as [|a [|b [|c [|d l]]]];
          simpl; split; intros H; try discriminate;
          try (right; split; [reflexivity|]; right; split; discriminate);
          destruct H as [H|[_ [H|[H1 H2]]]]; congruence.
Qed.

(* ================================================================== *)
(** ** Facts about computations *)

Module MonadFacts.

Lemma emit_emit l1 l2 s : emit l2 (emit l1 s) = emit (l1 ++ l2) s.
Proof. unfold emit. simpl. rewrite <- app_assoc. reflexivity. Qed.

Lemma emit_nil s : emit [] s = s.
Proof. destruct s. unfold emit. simpl. rewrite app_nil_r. reflexivity. Qed.

Lemma bind_inl {A B} (m : M A) (k : A -> M B) s a s1 :
  m s = (inl a, s1) -> bind m k s = k a s1.
Proof. intros H. unfold bind. rewrite H. reflexivity. Qed.

Lemma bind_inr {A B} (m : M A) (k : A -> M B) s e s1 :
  m s = (inr e, s1) -> bind m k s = (inr e, s1).
Proof. intros H. unfold bind. rewrite H. reflexivity. Qed.

Lemma bind_inv_inr {A B} (m : M A) (k : A -> M B) s e s2 :
  bind m k s = (inr e, s2) ->
  m s = (inr e, s2) \/ exists a s1, m s = (inl a, s1) /\ k a s1 = (inr e, s2).
Proof.
  unfold bind. destruct (m s) as [[a|e'] s1]; intros H.
  - right. exists a, s1. split; [reflexivity | exact H].
  - left. injection H as -> ->. reflexivity.
Qed.

Lemma bind_inv_inl {A B} (m : M A) (k : A -> M B) s b s2 :
  bind m k s = (inl b, s2) ->
  exists a s1, m s = (inl a, s1) /\ k a s1 = (inl b, s2).
Proof.
  unfold bind. destruct (m s) as [[a|e'] s1]; intros H; [|discriminate].
  exists a, s1. split; [reflexivity | exact H].
Qed.

Section World.
Variable e : env.

(** The [catch] block always completes, whatever [rmSync] does. *)
Lemma on_failure_emit tempDir m s :
  on_failure e tempDir m s
  = (inl tt, emit [WriteLine (Error (or_else m "Processing failed"));
                   RmSync tempDir true] s).
Proof.
  unfold on_failure, try_catch, fs_call, bind, writeLine, act, throw, ret, emit.
  simpl. destruct (rmSync e tempDir); simpl; rewrite <- app_assoc; reflexivity.
Qed.

(** The handler, stage by stage. *)
Lemma process_unfold body s :
  process e body s =
  let segments := match body_segments body with VArr items => items | _ => [] end in
  match segments with
  | [] => (inl tt, emit (headers ++ [WriteLine (Error "No segments provided"); End_]) s)
  | _ =>
      match validate 0 segments [] with
      | Thrown m => (inr m, emit headers s)
      | Rejected m => (inl tt, emit (headers ++ [WriteLine (Error m); End_]) s)
      | Valid parsed =>
          match mkdtempSync e (path_join (tmpdir e) "yt-stitch-") with
          | inr m => (inr m, emit headers s)
          | inl tempDir =>
              match pipeline e (randomUUID e) tempDir parsed (entered tempDir s) with
              | (inl _, s2) => (inl tt, emit [End_] s2)
              | (inr m, s2) =>
                  (inl tt, emit [WriteLine (Error (or_else m "Processing failed"));
                                 RmSync tempDir true; End_] s2)
              end
          end
      end
  end.
Proof.
  unfold process.
  set (segments := match body_segments body with VArr items => items | _ => [] end).
  cbv zeta.
  assert (forall (k : M unit),
             (act (SetHeader "Content-Type" "application/x-ndjson") ;;
              act (SetHeader "Cache-Control" "no-cache") ;;
              act (SetHeader "Connection" "keep-alive") ;;
              act FlushHeaders ;; k) s = k (emit headers s)) as Hh.
  { intros k. unfold bind, act, emit, headers. simpl.
    rewrite <- !app_assoc. reflexivity. }
  rewrite Hh. clear Hh.
  destruct segments as [|seg rest] eqn:Es.
  - simpl. unfold bind, writeLine, act, emit. simpl.
    rewrite <- !app_assoc. reflexivity.
  - change ((List.length (seg :: rest) =? 0)%nat) with false. cbv iota.
    destruct (validate 0 (seg :: rest) []) as [parsed|m|m].
    + destruct (mkdtempSync e (path_join (tmpdir e) "yt-stitch-")) as [tempDir|m].
      * assert (forall (k : M unit),
                   (act (Mkdtemp tempDir) ;;
                    writeLine (Status "starting" "Validating inputs") ;; k)
                     (emit headers s) = k (entered tempDir s)) as Hk.
        { intros k. unfold bind, writeLine, act, entered, emit. simpl.
          rewrite <- !app_assoc. reflexivity. }
        rewrite Hk. clear Hk.
        unfold bind at 1, try_catch.
        destruct (pipeline e (randomUUID e) tempDir parsed (entered tempDir s))
          as [[[]|m] s2].
        -- reflexivity.
        -- rewrite on_failure_emit. unfold act. simpl.
           unfold emit. simpl. rewrite <- app_assoc. reflexivity.
      * reflexivity.
    + unfold bind, writeLine, act, emit. simpl.
      rewrite <- !app_assoc. reflexivity.
    + reflexivity.
Qed.

End World.

End MonadFacts.

(* ================================================================== *)
(** ** Validation *)

Module ValidationFacts.


(** A batch is accepted only if every row passes its check. *)
Lemma validate_valid_all segments :
  forall k parsed out seg,
    validate k segments parsed = Valid out -> In seg segments ->
    exists p, check_row seg = RowOk p.
Proof.
  induction segments as [|x rest IH]; intros k parsed out seg Hv Hin.
  - destruct Hin.
  - simpl in Hv. destruct (check_row x) as [p|r|m] eqn:Ex; try discriminate.
    destruct Hin as [<-|Hin]; [exists p; exact Ex|].
    apply (IH _ _ _ _ Hv Hin).
Qed.


(** A row whose start is not before its end does not pass. *)
Lemma start_ge_end_not_ok seg :
  start_ge_end seg -> forall p, check_row seg <> RowOk p.
Proof.
  intros (vs & ve & a & b & Hs & He & Pa & Pb & Hge) p.
  unfold check_row. rewrite Hs, He, Pa, Pb, Hge.
  destruct (get_prop seg "url") as [u|]; [|discriminate].
  destruct (String.eqb _ ""); discriminate.
Qed.

End ValidationFacts.



(** C4.  A batch with a row whose start is not before its end, or with a
    row that fails its check in any other way, spawns no process: the
    response holds the headers and at most an error line, and neither a
    process nor a working directory is created. *)
Theorem rejected_before_any_spawn
        (e : env) (body : value) (s : state) (segments : list value) (seg : value) :
  body_segments body = VArr segments ->
  In seg segments ->
  (start_ge_end seg \/ forall p, check_row seg <> RowOk p) ->
  exists t,
    snd (process e body s) = emit (headers ++ t) s
    /\ (forall cmd args, ~ In (Spawn cmd args) t)
    /\ (forall d, ~ In (Mkdtemp d) t)
    /\ procs (snd (process e body s)) = procs s.
Proof.
  intros Hb Hin Hbad.
  assert (forall p, check_row seg <> RowOk p) as Hno
      by (destruct Hbad as [H|H]; [apply ValidationFacts.start_ge_end_not_ok, H | exact H]).
  rewrite MonadFacts.process_unfold, Hb. cbv zeta.
  destruct segments as [|x rest]; [destruct Hin|].
  destruct (validate 0 (x :: rest) []) as [parsed|m|m] eqn:Ev.
  - destruct (ValidationFacts.validate_valid_all _ _ _ _ seg Ev Hin) as [p Hp].
    destruct (Hno p Hp).
  - exists [WriteLine (Error m); End_]. simpl snd. repeat split.
    + intros cmd args [H|[H|[]]]; discriminate.
    + intros d [H|[H|[]]]; discriminate.
  - exists []. simpl snd. rewrite app_nil_r. repeat split; intros ? ? ; try intros ?; contradiction.
Qed.

(** The row [{start: "10", end: "5"}] of the specification, after a valid
    row. *)
Lemma rejected_before_any_spawn_witness :
  start_ge_end (seg_obj "u" "10" "5")
  /\ exists t,
      snd (process (quiet "id-1" 1000)
                   (batch [seg_obj "v" "0" "5"; seg_obj "u" "10" "5"]) start)
      = emit (headers ++ t) start
      /\ (forall cmd args, ~ In (Spawn cmd args) t)
      /\ (forall d, ~ In (Mkdtemp d) t)
      /\ procs (snd (process (quiet "id-1" 1000)
                             (batch [seg_obj "v" "0" "5"; seg_obj "u" "10" "5"]) start))
         = procs start.
Proof.
  assert (start_ge_end (seg_obj "u" "10" "5")) as H.
  { exists (VStr "10"), (VStr "5"), (Num.of_Z 10), (Num.of_Z 5).
    repeat split; reflexivity. }
  split; [exact H|].
  apply (rejected_before_any_spawn (quiet "id-1" 1000)
           (batch [seg_obj "v" "0" "5"; seg_obj "u" "10" "5"]) start
           [seg_obj "v" "0" "5"; seg_obj "u" "10" "5"] (seg_obj "u" "10" "5")).
  - reflexivity.
  - simpl. auto.
  - left. exact H.
Defined.

(** C9.  A body without a [segments] field, or with one that is not an
    array, is answered like the empty batch: the headers, the line
    [No segments provided] and the end of the stream; nothing else
    happens and the registry is as before. *)
Theorem no_segments_like_empty_batch (e : env) (body : value) (s : state) :
  (forall items, body_segments body <> VArr items) ->
  process e body s = process e (batch []) s
  /\ process e body s
     = (inl tt, emit (headers ++ [WriteLine (Error "No segments provided"); End_]) s).
Proof.
  intros H. rewrite !MonadFacts.process_unfold. cbv zeta.
  change (body_segments (batch [])) with (VArr []).
  destruct (body_segments body) as [| | | | |items|]; try (split; reflexivity).
  destruct (H items eq_refl).
Qed.

(** A body with no field at all, and one whose [segments] is a string. *)
Lemma no_segments_like_empty_batch_witness :
  (process (quiet "id-1" 1000) (VObj []) start
   = process (quiet "id-1" 1000) (batch []) start
   /\ process (quiet "id-1" 1000) (VObj []) start
      = (inl tt, emit (headers ++ [WriteLine (Error "No segments provided"); End_]) start))
  /\ (process (quiet "id-1" 1000) (VObj [("segments", VStr "x")]) start
      = process (quiet "id-1" 1000) (batch []) start
      /\ process (quiet "id-1" 1000) (VObj [("segments", VStr "x")]) start
         = (inl tt, emit (headers ++ [WriteLine (Error "No segments provided"); End_]) start)).
Proof.
  split.
  - apply (no_segments_like_empty_batch (quiet "id-1" 1000) (VObj []) start).
    intros items. simpl. discriminate.
  - apply (no_segments_like_empty_batch (quiet "id-1" 1000)
             (VObj [("segments", VStr "x")]) start).
    intros items. simpl. discriminate.
Defined.

(* ================================================================== *)
(** ** The pipeline *)

Module PipelineFacts.
Import MonadFacts.

#[export] Instance trace_grows_frame P : Frame (trace_grows P) P.
Proof.
  split.
  - intros s s' l Ht Hl _. exists l. split; assumption.
  - intros s1 s2 s3 (t1 & E1 & F1) (t2 & E2 & F2).
    exists (t1 ++ t2)%list. rewrite E2, E1, app_assoc.
    split; [reflexivity | apply Forall_app; split; assumption].
Qed.

#[export] Instance same_jobs_frame : Frame same_jobs (fun _ => True).
Proof.
  split.
  - intros s s' l _ _ Hj. exact Hj.
  - unfold same_jobs. intros s1 s2 s3 H1 H2. congruence.
Qed.

Section Framed.
Variable e : env.
Context {R : state -> state -> Prop} {good : action -> Prop}.
Context {F : Frame R good}.
Hypothesis good_pipeline : forall a, pipeline_action a -> good a.

Lemma frame_refl s : R s s.
Proof.
  apply (frame_step s s []); [symmetry; apply app_nil_r | constructor | reflexivity].
Qed.

Lemma preserves_ret {A} (a : A) : preserves R (ret a).
Proof. intros s. apply frame_refl. Qed.

Lemma preserves_throw {A} m : preserves R (@throw A m).
Proof. intros s. apply frame_refl. Qed.

Lemma preserves_bind {A B} (m : M A) (k : A -> M B) :
  preserves R m -> (forall a, preserves R (k a)) -> preserves R (bind m k).
Proof.
  intros Hm Hk s. specialize (Hm s). unfold bind.
  destruct (m s) as [[a|err] s1]; simpl in *; [|exact Hm].
  apply (frame_trans _ _ _ Hm), Hk.
Qed.

Lemma preserves_try_catch {A} (m : M A) (h : string -> M A) :
  preserves R m -> (forall err, preserves R (h err)) -> preserves R (try_catch m h).
Proof.
  intros Hm Hh s. specialize (Hm s). unfold try_catch.
  destruct (m s) as [[a|err] s1]; simpl in *; [exact Hm|].
  apply (frame_trans _ _ _ Hm), Hh.
Qed.

Lemma preserves_act a : pipeline_action a -> preserves R (act a).
Proof.
  intros Ha s. apply (frame_step _ _ [a]); [reflexivity | | reflexivity].
  constructor; [apply good_pipeline, Ha | constructor].
Qed.

Lemma preserves_Date_now : preserves R (Date_now e).
Proof.
  intros s. apply (frame_step _ _ []); [symmetry; apply app_nil_r | constructor | reflexivity].
Qed.

Lemma preserves_get_jobs : preserves R get_jobs.
Proof. intros s. apply frame_refl. Qed.

Lemma preserves_spawn cmd args : preserves R (spawn e cmd args).
Proof.
  intros s. apply (frame_step _ _ [Spawn cmd args]); [reflexivity | | reflexivity].
  constructor; [apply good_pipeline; exact I | constructor].
Qed.

Lemma preserves_fs_call a outcome :
  pipeline_action a -> preserves R (fs_call a outcome).
Proof.
  intros Ha. apply preserves_bind; [apply preserves_act, Ha|].
  intros _. destruct outcome; [apply preserves_throw | apply preserves_ret].
Qed.

Lemma preserves_log text is_err : preserves R (log text is_err).
Proof. apply preserves_act. exact I. Qed.

Lemma preserves_drain cs :
  forall out err, preserves R (drain log cs out err).
Proof.
  induction cs as [|[is_err text] cs IH]; intros out err; simpl.
  - apply preserves_ret.
  - apply preserves_bind; [apply preserves_log|].
    intros _. destruct is_err; apply IH.
Qed.

Lemma preserves_runCommand cmd args : preserves R (runCommand e cmd args log).
Proof.
  unfold runCommand. apply preserves_bind; [apply preserves_spawn|].
  intros p. apply preserves_bind; [apply preserves_drain|].
  intros out. destruct (ending_of p) as [code|m]; [|apply preserves_throw].
  destruct (code =? 0); [apply preserves_ret | apply preserves_throw].
Qed.

Lemma preserves_download_segments tempDir total parsed :
  forall idx paths,
    preserves R (download_segments e tempDir total idx parsed paths).
Proof.
  induction parsed as [|seg rest IH]; intros idx paths; simpl.
  - apply preserves_ret.
  - apply preserves_bind; [apply preserves_act; exact I|]. intros _.
    apply preserves_bind; [apply preserves_runCommand|]. intros directUrl.
    apply preserves_bind; [apply preserves_act; exact I|]. intros _.
    apply preserves_bind; [apply preserves_runCommand|]. intros _.
    apply preserves_bind; [apply preserves_act; exact I|]. intros _.
    apply IH.
Qed.

End Framed.

Section World.
Variable e : env.

(** The whole [try] block only writes lines, spawns processes, writes
    the manifest and copies the result. *)
Lemma pipeline_grows jobId tempDir parsed :
  preserves (trace_grows pipeline_action) (pipeline e jobId tempDir parsed).
Proof.
  assert (forall a, pipeline_action a -> pipeline_action a) as G by auto.
  unfold pipeline.
  apply preserves_bind; [apply (preserves_download_segments e G)|]. intros paths.
  apply preserves_bind; [apply (preserves_act G); exact I|]. intros _.
  apply preserves_bind; [apply (preserves_fs_call G); exact I|]. intros _.
  apply preserves_bind; [apply (preserves_runCommand e G)|]. intros _.
  apply preserves_bind; [apply (preserves_Date_now e)|]. intros t.
  apply preserves_bind; [apply (preserves_fs_call G); exact I|]. intros _.
  apply preserves_bind; [apply (preserves_Date_now e)|]. intros t'.
  apply preserves_bind; [apply preserves_get_jobs|]. intros j.
  apply preserves_bind; [|intros _; apply (preserves_act G); exact I].
  intros s. exists []. split; [symmetry; apply app_nil_r | constructor].
Qed.

Lemma registers_bind jobId tempDir {A B} (m : M A) (k : A -> M B) :
  preserves same_jobs m -> (forall a, registers jobId tempDir (k a)) ->
  registers jobId tempDir (bind m k).
Proof.
  intros Hm Hk s. specialize (Hm s). unfold bind, same_jobs in *.
  destruct (m s) as [[a|err] s1]; simpl in *; [|exact Hm].
  specialize (Hk a s1). rewrite Hm in Hk. exact Hk.
Qed.

(** The registry changes only in the last step of the [try] block,
    after everything that can throw. *)
Lemma pipeline_registers jobId tempDir parsed :
  registers jobId tempDir (pipeline e jobId tempDir parsed).
Proof.
  assert (forall a, pipeline_action a -> (fun _ : action => True) a) as G by auto.
  unfold pipeline.
  apply registers_bind; [apply (preserves_download_segments e G)|]. intros paths.
  apply registers_bind; [apply (preserves_act G); exact I|]. intros _.
  apply registers_bind; [apply (preserves_fs_call G); exact I|]. intros _.
  apply registers_bind; [apply (preserves_runCommand e G)|]. intros _.
  apply registers_bind; [apply (preserves_Date_now e)|]. intros t.
  apply registers_bind; [apply (preserves_fs_call G); exact I|]. intros _.
  apply registers_bind; [apply (preserves_Date_now e)|]. intros t'.
  intros s. simpl. eexists _, _. reflexivity.
Qed.

End World.

End PipelineFacts.

(* ================================================================== *)
(** ** The job registry *)

Module RegistryFacts.
Import MonadFacts JsMap.

Lemma get_set_same {A} (m : t A) k v : get (set m k v) k = Some v.
Proof.
  induction m as [|[k' v'] m IH]; simpl.
  - rewrite String.eqb_refl. reflexivity.
  - destruct (String.eqb k' k) eqn:E; simpl; rewrite E; [reflexivity | exact IH].
Qed.

Lemma get_set_other {A} (m : t A) k v k' :
  k' <> k -> get (set m k v) k' = get m k'.
Proof.
  intros Hne. induction m as [|[k0 v0] m IH]; simpl.
  - apply String.eqb_neq in Hne. rewrite String.eqb_sym, Hne. reflexivity.
  - destruct (String.eqb k0 k) eqn:E; simpl.
    + apply String.eqb_eq in E. subst k0.
      assert (String.eqb k k' = false) as -> by (apply String.eqb_neq; congruence).
      reflexivity.
    + destruct (String.eqb k0 k'); [reflexivity | exact IH].
Qed.

Lemma get_None_notin {A} (m : t A) k : get m k = None -> ~ In k (map fst m).
Proof.
  induction m as [|[k' v'] m IH]; simpl; [tauto|].
  destruct (String.eqb k' k) eqn:E; [discriminate|].
  apply String.eqb_neq in E. intros H [H'|H']; [congruence | exact (IH H H')].
Qed.

Lemma notin_get_None {A} (m : t A) k : ~ In k (map fst m) -> get m k = None.
Proof.
  induction m as [|[k' v'] m IH]; simpl; [reflexivity|].
  intros H. destruct (String.eqb k' k) eqn:E.
  - apply String.eqb_eq in E. tauto.
  - apply IH. tauto.
Qed.

Lemma get_delete_other {A} (m : t A) k k' :
  k' <> k -> get (delete m k) k' = get m k'.
Proof.
  intros Hne. induction m as [|[k0 v0] m IH]; simpl; [reflexivity|].
  destruct (String.eqb k0 k) eqn:E; simpl.
  - apply String.eqb_eq in E. subst k0.
    assert (String.eqb k k' = false) as -> by (apply String.eqb_neq; congruence).
    reflexivity.
  - destruct (String.eqb k0 k'); [reflexivity | exact IH].
Qed.

Lemma delete_keys_incl {A} (m : t A) k x :
  In x (map fst (delete m k)) -> In x (map fst m).
Proof.
  induction m as [|[k0 v0] m IH]; simpl; [tauto|].
  destruct (String.eqb k0 k); simpl; [tauto|]. intros [H|H]; [left; exact H | right; apply IH, H].
Qed.

Lemma NoDup_delete {A} (m : t A) k :
  NoDup (map fst m) -> NoDup (map fst (delete m k)).
Proof.
  induction m as [|[k0 v0] m IH]; simpl; intros H; [constructor|].
  inversion H as [|? ? Hn Hd]; subst.
  destruct (String.eqb k0 k); [exact Hd|].
  simpl. constructor; [|apply IH, Hd].
  intros Hin. apply Hn, (delete_keys_incl m k), Hin.
Qed.

Lemma get_delete_same {A} (m : t A) k :
  NoDup (map fst m) -> get (delete m k) k = None.
Proof.
  induction m as [|[k0 v0] m IH]; simpl; intros H; [reflexivity|].
  inversion H as [|? ? Hn Hd]; subst.
  destruct (String.eqb k0 k) eqn:E; simpl.
  - apply String.eqb_eq in E. subst k0. apply notin_get_None, Hn.
  - rewrite E. apply IH, Hd.
Qed.

Lemma In_get {A} (m : t A) k v :
  NoDup (map fst m) -> In (k, v) m -> get m k = Some v.
Proof.
  induction m as [|[k0 v0] m IH]; simpl; intros H Hin; [destruct Hin|].
  inversion H as [|? ? Hn Hd]; subst.
  destruct Hin as [[= -> ->]|Hin].
  - rewrite String.eqb_refl. reflexivity.
  - destruct (String.eqb k0 k) eqn:E; [|apply IH; assumption].
    apply String.eqb_eq in E. subst k0.
    destruct Hn. apply (in_map fst) in Hin. exact Hin.
Qed.

Lemma get_In {A} (m : t A) k v : get m k = Some v -> In (k, v) m.
Proof.
  induction m as [|[k0 v0] m IH]; simpl; [discriminate|].
  destruct (String.eqb k0 k) eqn:E.
  - apply String.eqb_eq in E. intros [= ->]. left. congruence.
  - intros H. right. apply IH, H.
Qed.

(** What a sweep leaves: the entries it went through and found older
    than the cutoff are gone, all others stay. *)
Lemma get_sweep cutoff l :
  forall j,
    NoDup (map fst j) -> NoDup (map fst l) ->
    (forall k v, In (k, v) l -> get j k = Some v) ->
    forall id,
      get (sweep cutoff l j) id
      = match get j id with
        | Some info =>
            if (created info <? cutoff) && existsb (String.eqb id) (map fst l)
            then None else Some info
        | None => None
        end.
Proof.
  induction l as [|[k0 v0] l IH]; intros j Hj Hl Hin id.
  - simpl. destruct (get j id) as [info|]; [|reflexivity].
    rewrite andb_false_r. reflexivity.
  - inversion Hl as [|? ? Hn Hd]; subst.
    pose proof (Hin k0 v0 (or_introl eq_refl)) as H0.
    change (sweep cutoff ((k0, v0) :: l) j)
      with (sweep cutoff l (if created v0 <? cutoff then delete j k0 else j)).
    cbn [map fst existsb].
    destruct (created v0 <? cutoff) eqn:Ex.
    + rewrite IH; [|apply NoDup_delete, Hj|exact Hd|].
      * destruct (String.eqb id k0) eqn:E.
        -- apply String.eqb_eq in E. subst id.
           rewrite (get_delete_same j k0 Hj), H0, Ex. reflexivity.
        -- apply String.eqb_neq in E. rewrite (get_delete_other j k0 id E).
           reflexivity.
      * intros k v Hkv. rewrite get_delete_other; [apply Hin; right; exact Hkv|].
        intros ->. apply Hn. apply (in_map fst) in Hkv. exact Hkv.
    + rewrite IH; [|exact Hj|exact Hd|intros k v Hkv; apply Hin; right; exact Hkv].
      destruct (String.eqb id k0) eqn:E; [|reflexivity].
      apply String.eqb_eq in E. subst id. rewrite H0, Ex. reflexivity.
Qed.

Lemma existsb_key {A} (j : t A) id info :
  get j id = Some info -> existsb (String.eqb id) (map fst j) = true.
Proof.
  intros H. apply existsb_exists. exists id. split; [|apply String.eqb_refl].
  apply get_In in H. apply (in_map fst) in H. exact H.
Qed.

Section World.
Variable e : env.

(** One round of the loop of [cleanupOldJobs]. *)
Lemma evict_spec cutoff id info s :
  exists t,
    evict e cutoff (id, info) s
    = (inl tt, mkState (trace s ++ t)
                       (if created info <? cutoff then delete (jobs s) id else jobs s)
                       (procs s) (reads s))
    /\ ((created info <? cutoff) = true ->
        In (RmSync (job_path info) false) t
        /\ (rmSync e (job_path info) = None -> job_tempDir info <> "" ->
            In (RmSync (job_tempDir info) true) t)).
Proof.
  unfold evict. destruct (created info <? cutoff) eqn:Ex.
  - unfold try_catch, fs_call, bind, act, throw, ret, get_jobs, put_jobs. simpl.
    destruct (rmSync e (job_path info)) as [m|] eqn:E1; simpl.
    + eexists. split; [reflexivity|]. intros _. split; [left; reflexivity|].
      discriminate.
    + destruct (String.eqb (job_tempDir info) "") eqn:E2; simpl.
      * eexists. split; [reflexivity|]. intros _. split; [left; reflexivity|].
        apply String.eqb_eq in E2. intros _ H. contradiction.
      * destruct (rmSync e (job_tempDir info)); simpl;
          rewrite <- app_assoc; (eexists; split; [reflexivity|]);
          intros _; (split; [left; reflexivity|]); intros _ _; right; left; reflexivity.
  - exists []. rewrite app_nil_r. split; [destruct s; reflexivity | discriminate].
Qed.

(** The loop of [cleanupOldJobs] over the entries [l]. *)
Lemma for_each_evict cutoff l :
  forall s,
    exists t,
      for_each (evict e cutoff) l s
      = (inl tt, mkState (trace s ++ t) (sweep cutoff l (jobs s)) (procs s) (reads s))
      /\ (forall id info,
             In (id, info) l -> (created info <? cutoff) = true ->
             In (RmSync (job_path info) false) t
             /\ (rmSync e (job_path info) = None -> job_tempDir info <> "" ->
                 In (RmSync (job_tempDir info) true) t)).
Proof.
  induction l as [|[id0 info0] l IH]; intros s.
  - exists []. rewrite app_nil_r. split; [destruct s; reflexivity|].
    intros id info [].
  - destruct (evict_spec cutoff id0 info0 s) as (t0 & E0 & H0).
    destruct (IH (mkState (trace s ++ t0)
                          (if created info0 <? cutoff
                           then delete (jobs s) id0 else jobs s)
                          (procs s) (reads s))) as (t1 & E1 & H1).
    exists (t0 ++ t1)%list. split.
    + cbn [for_each]. rewrite (bind_inl _ _ _ _ _ E0), E1. simpl.
      rewrite app_assoc. reflexivity.
    + intros id info [[= -> ->]|Hin] Hx.
      * destruct (H0 Hx) as [Ha Hb]. split; [apply in_or_app; left; exact Ha|].
        intros Hr Ht. apply in_or_app. left. apply Hb; assumption.
      * destruct (H1 id info Hin Hx) as [Ha Hb].
        split; [apply in_or_app; right; exact Ha|].
        intros Hr Ht. apply in_or_app. right. apply Hb; assumption.
Qed.

(** A sweep removes the entries older than the retention window, with
    their files, and only those. *)
Lemma cleanupOldJobs_spec s :
  NoDup (map fst (jobs s)) ->
  exists t,
    let cutoff := now e (reads s) - retention in
    cleanupOldJobs e s
    = (inl tt, mkState (trace s ++ t) (sweep cutoff (jobs s) (jobs s))
                       (procs s) (S (reads s)))
    /\ (forall id,
           get (sweep cutoff (jobs s) (jobs s)) id
           = match get (jobs s) id with
             | Some info => if created info <? cutoff then None else Some info
             | None => None
             end)
    /\ (forall id info,
           get (jobs s) id = Some info -> (created info <? cutoff) = true ->
           In (RmSync (job_path info) false) t
           /\ (rmSync e (job_path info) = None -> job_tempDir info <> "" ->
               In (RmSync (job_tempDir info) true) t)).
Proof.
  intros Hnd. cbv zeta.
  destruct (for_each_evict (now e (reads s) - retention) (jobs s)
              (mkState (trace s) (jobs s) (procs s) (S (reads s))))
    as (t & E & H).
  exists t. split; [|split].
  - unfold cleanupOldJobs, bind, Date_now, get_jobs. simpl. exact E.
  - intros id. rewrite get_sweep; [|exact Hnd|exact Hnd|intros k v; apply In_get, Hnd].
    destruct (get (jobs s) id) as [info|] eqn:G; [|reflexivity].
    rewrite (existsb_key _ _ _ G), andb_true_r. reflexivity.
  - intros id info G Hx. apply (H id info (get_In _ _ _ G) Hx).
Qed.

(** [GET /api/download/:id] looks at the registry and at nothing
    else. *)
Lemma download_spec id s :
  download e id s
  = match get (jobs s) id with
    | None => (inl tt, emit [SetStatus 404; Json [("error", "Not found")]] s)
    | Some info =>
        (inl tt, emit (Download (job_path info)
                       :: match transfer e (job_path info) with
                          | Some _ => [SetStatus 500; End_]
                          | None => []
                          end) s)
    end.
Proof.
  unfold download, bind, act, ret, emit. simpl.
  destruct (get (jobs s) id) as [info|]; simpl.
  - destruct (transfer e (job_path info)); simpl; rewrite <- ?app_assoc; reflexivity.
  - rewrite <- app_assoc. reflexivity.
Qed.

End World.

End RegistryFacts.

(* ================================================================== *)
(** ** The request handler *)

(** C5, as stated, fails for the first stage after validation.  The
    working directory is made before the [try] block: when [mkdtempSync]
    throws for a batch that validation accepted, the handler throws with
    it, after the headers and nothing else: no error line is written and
    the response is not ended. *)
Theorem scratch_failure_is_not_reported
        (e : env) (body : value) (s : state) (segments : list value)
        (parsed : list segment) (m : string) :
  body_segments body = VArr segments ->
  segments <> [] ->
  validate 0 segments [] = Valid parsed ->
  mkdtempSync e (path_join (tmpdir e) "yt-stitch-") = inr m ->
  process e body s = (inr m, emit headers s)
  /\ lines_of (trace (snd (process e body s))) = lines_of (trace s)
  /\ (In End_ (trace (snd (process e body s))) -> In End_ (trace s))
  /\ jobs (snd (process e body s)) = jobs s.
Proof.
  intros Hb Hne Hv Hd.
  assert (process e body s = (inr m, emit headers s)) as E.
  { rewrite MonadFacts.process_unfold, Hb. cbv zeta.
    destruct segments as [|x rest]; [congruence|].
    rewrite Hv, Hd. reflexivity. }
  rewrite E. cbn [snd emit trace jobs]. split; [reflexivity|]. split; [|split].
  - induction (trace s) as [|a t IH]; [reflexivity|].
    destruct a; simpl; rewrite ?IH; reflexivity.
  - intros H. apply in_app_or in H as [H|H]; [exact H|].
    simpl in H. repeat (destruct H as [H|H]; [discriminate|]). destruct H.
  - reflexivity.
Qed.

(** The sample batch, which validation accepts, when the directory for
    temporary files is not writable. *)
Lemma scratch_failure_is_not_reported_witness :
  validate 0 two_segments [] = Valid two_parsed
  /\ process no_scratch (batch two_segments) start
     = (inr "EACCES: permission denied, mkdtemp '/tmp/yt-stitch-XXXXXX'",
        mkState headers [] 0 0)
  /\ lines_of (trace (snd (process no_scratch (batch two_segments) start))) = []
  /\ ~ In End_ (trace (snd (process no_scratch (batch two_segments) start))).
Proof.
  assert (validate 0 two_segments [] = Valid two_parsed) as Hv
      by (vm_compute; reflexivity).
  destruct (scratch_failure_is_not_reported no_scratch (batch two_segments) start
              two_segments two_parsed
              "EACCES: permission denied, mkdtemp '/tmp/yt-stitch-XXXXXX'"
              eq_refl ltac:(discriminate) Hv eq_refl) as (E & L & N & _).
  split; [exact Hv|]. split; [exact E|]. split; [exact L|].
  intros H. exact (N H).
Defined.

(** X23.  When the [try] block of a validated request throws, at whatever
    stage, the handler writes one error line with the message of the
    failure (or [Processing failed] if that message is empty), calls
    [rmSync] on the working directory, recursively, ignores what that call
    throws, ends the stream, and leaves the registry as it was. *)
Theorem failure_reported_and_cleaned
        (e : env) (body : value) (s : state) (segments : list value)
        (parsed : list segment) (tempDir m : string) (s2 : state) :
  body_segments body = VArr segments ->
  segments <> [] ->
  validate 0 segments [] = Valid parsed ->
  mkdtempSync e (path_join (tmpdir e) "yt-stitch-") = inl tempDir ->
  pipeline e (randomUUID e) tempDir parsed (entered tempDir s) = (inr m, s2) ->
  process e body s
  = (inl tt, emit [WriteLine (Error (or_else m "Processing failed"));
                   RmSync tempDir true; End_] s2)
  /\ (m <> "" -> or_else m "Processing failed" = m)
  /\ jobs (snd (process e body s)) = jobs s.
Proof.
  intros Hb Hne Hv Hd Hp.
  assert (process e body s
          = (inl tt, emit [WriteLine (Error (or_else m "Processing failed"));
                           RmSync tempDir true; End_] s2)) as E.
  { rewrite MonadFacts.process_unfold, Hb. cbv zeta.
    destruct segments as [|x rest]; [congruence|].
    rewrite Hv, Hd, Hp. reflexivity. }
  split; [exact E|]. split.
  - intros Hm. unfold or_else. apply String.eqb_neq in Hm. rewrite Hm. reflexivity.
  - rewrite E. simpl.
    pose proof (PipelineFacts.pipeline_registers e (randomUUID e) tempDir parsed
                  (entered tempDir s)) as Hr.
    rewrite Hp in Hr. exact Hr.
Qed.

(** The resolver of the second of two segments fails, and so does the
    removal of the working directory. *)
Lemma failure_reported_and_cleaned_witness :
  let dir := "/tmp/yt-stitch-abc123" in
  let s2 := snd (pipeline second_resolver_fails "id-1" dir two_parsed (entered dir start)) in
  rmSync second_resolver_fails dir = Some "EBUSY"
  /\ process second_resolver_fails (batch two_segments) start
     = (inl tt, emit [WriteLine (Error "no such video"); RmSync dir true; End_] s2)
  /\ jobs (snd (process second_resolver_fails (batch two_segments) start)) = [].
Proof.
  cbv zeta. split; [reflexivity|].
  destruct (failure_reported_and_cleaned second_resolver_fails (batch two_segments) start
              two_segments two_parsed "/tmp/yt-stitch-abc123" "no such video"
              (snd (pipeline second_resolver_fails "id-1" "/tmp/yt-stitch-abc123"
                             two_parsed (entered "/tmp/yt-stitch-abc123" start))))
    as (E & _ & J).
  - reflexivity.
  - discriminate.
  - vm_compute. reflexivity.
  - reflexivity.
  - vm_compute. reflexivity.
  - split; [exact E | exact J].
Defined.

(** C6, as stated, fails: a request that succeeds leaves its working
    directory in place.  The handler creates the directory, returns after
    the [done] line, and has called [rmSync] on nothing. *)
Lemma scratch_dir_kept_on_success :
  let r := process (quiet "id-1" 1000) (batch two_segments) start in
  fst r = inl tt
  /\ In (Mkdtemp "/tmp/yt-stitch-id-1") (trace (snd r))
  /\ In (WriteLine (Done "id-1" "/api/download/id-1")) (trace (snd r))
  /\ (forall p rec, ~ In (RmSync p rec) (trace (snd r)))
  /\ ~ (forall e body s d,
           In (Mkdtemp d) (trace (snd (process e body s))) ->
           In (RmSync d true) (trace (snd (process e body s)))).
Proof.
  cbv zeta.
  assert (forall p rec,
             ~ In (RmSync p rec)
                  (trace (snd (process (quiet "id-1" 1000) (batch two_segments) start))))
    as Hno.
  { intros p rec. vm_compute. intros H.
    repeat (destruct H as [H|H]; [discriminate|]). exact H. }
  split; [reflexivity|]. split; [vm_compute; tauto|]. split; [vm_compute; tauto|].
  split; [exact Hno|].
  intros H. apply (Hno "/tmp/yt-stitch-id-1" true), H. vm_compute. tauto.
Qed.

(** C6, amended.  For a validated request, either the [try] block throws
    and the handler calls [rmSync] on the working directory right after
    the error line, or it returns, the handler removes nothing, and the
    directory is recorded in the job that was registered; a later run of
    [cleanupOldJobs] that finds a job older than the retention window
    calls [rmSync] on the artifact and, unless that call throws, on the
    recorded directory. *)
Theorem scratch_dir_removed_on_failure_or_eviction
        (e : env) (body : value) (s : state) (segments : list value)
        (parsed : list segment) (tempDir : string) :
  body_segments body = VArr segments ->
  segments <> [] ->
  validate 0 segments [] = Valid parsed ->
  mkdtempSync e (path_join (tmpdir e) "yt-stitch-") = inl tempDir ->
  ((exists m s2,
       pipeline e (randomUUID e) tempDir parsed (entered tempDir s) = (inr m, s2)
       /\ process e body s
          = (inl tt, emit [WriteLine (Error (or_else m "Processing failed"));
                           RmSync tempDir true; End_] s2))
   \/ (exists added path t,
          fst (process e body s) = inl tt
          /\ trace (snd (process e body s)) = (trace s ++ added)%list
          /\ In (Mkdtemp tempDir) added
          /\ (forall p rec, ~ In (RmSync p rec) added)
          /\ jobs (snd (process e body s))
             = JsMap.set (jobs s) (randomUUID e) (mkJob path t tempDir)))
  /\ (forall e' st id info,
         NoDup (map fst (jobs st)) ->
         JsMap.get (jobs st) id = Some info ->
         expired (now e' (reads st)) info ->
         In (RmSync (job_path info) false) (trace (snd (cleanupOldJobs e' st)))
         /\ (rmSync e' (job_path info) = None -> job_tempDir info <> "" ->
             In (RmSync (job_tempDir info) true) (trace (snd (cleanupOldJobs e' st))))
         /\ JsMap.get (jobs (snd (cleanupOldJobs e' st))) id = None).
Proof.
  intros Hb Hne Hv Hd. split.
  - pose proof (MonadFacts.process_unfold e body s) as E.
    rewrite Hb in E. cbv zeta in E.
    destruct segments as [|x rest]; [congruence|].
    rewrite Hv, Hd in E.
    pose proof (PipelineFacts.pipeline_registers e (randomUUID e) tempDir parsed
                  (entered tempDir s)) as Hr.
    pose proof (PipelineFacts.pipeline_grows e (randomUUID e) tempDir parsed
                  (entered tempDir s)) as (tp & Ht & Hf).
    destruct (pipeline e (randomUUID e) tempDir parsed (entered tempDir s))
      as [[[]|m] s2] eqn:Ep.
    + right. destruct Hr as (path & t & Hj). simpl in Ht.
      exists (headers ++ [Mkdtemp tempDir; WriteLine (Status "starting" "Validating inputs")]
              ++ tp ++ [End_])%list, path, t.
      rewrite E. simpl. repeat split.
      * rewrite Ht. rewrite <- !app_assoc. reflexivity.
      * simpl. tauto.
      * intros p rec Hin. unfold headers in Hin. simpl in Hin.
        repeat (destruct Hin as [Hin|Hin]; [discriminate|]).
        apply in_app_or in Hin as [Hin|[Hin|[]]]; [|discriminate].
        rewrite Forall_forall in Hf. exact (Hf _ Hin).
      * exact Hj.
    + left. exists m, s2. split; [reflexivity | exact E].
  - intros e' st id info Hnd Hg Hx.
    destruct (RegistryFacts.cleanupOldJobs_spec e' st Hnd) as (t & E & Hget & Hrm).
    cbv zeta in E, Hget, Hrm.
    assert ((created info <? now e' (reads st) - retention) = true) as Hlt
        by (apply Z.ltb_lt; unfold expired in Hx; lia).
    destruct (Hrm id info Hg Hlt) as [Ha Hb'].
    rewrite E. simpl. split; [apply in_or_app; right; exact Ha|]. split.
    + intros Hr Hn. apply in_or_app. right. apply Hb'; assumption.
    + rewrite Hget, Hg, Hlt. reflexivity.
Qed.

(** A request that succeeds, and the sweep that evicts its job more than
    an hour later. *)
Lemma scratch_dir_removed_on_failure_or_eviction_witness :
  let e := quiet "id-1" 1000 in
  let later := quiet "id-1" 4000000 in
  let st := snd (process e (batch two_segments) start) in
  JsMap.get (jobs st) "id-1"
  = Some (mkJob "/srv/server/public/stitch-1000.mp4" 1000 "/tmp/yt-stitch-id-1")
  /\ In (RmSync "/tmp/yt-stitch-id-1" true) (trace (snd (cleanupOldJobs later st)))
  /\ JsMap.get (jobs (snd (cleanupOldJobs later st))) "id-1" = None.
Proof.
  cbv zeta.
  destruct (scratch_dir_removed_on_failure_or_eviction (quiet "id-1" 1000)
              (batch two_segments) start two_segments two_parsed "/tmp/yt-stitch-id-1")
    as [_ H].
  - reflexivity.
  - discriminate.
  - vm_compute. reflexivity.
  - reflexivity.
  - destruct (H (quiet "id-1" 4000000)
                (snd (process (quiet "id-1" 1000) (batch two_segments) start))
                "id-1"
                (mkJob "/srv/server/public/stitch-1000.mp4" 1000 "/tmp/yt-stitch-id-1"))
      as (_ & Hdir & Hgone).
    + vm_compute. repeat constructor. simpl. tauto.
    + vm_compute. reflexivity.
    + vm_compute. reflexivity.
    + split; [vm_compute; reflexivity|]. split; [|exact Hgone].
      apply Hdir; [reflexivity | discriminate].
Defined.

(* ================================================================== *)
(** ** Downloads *)

(** C7, as stated, fails: expiry is enforced by the sweep alone.  A job
    registered at time 1 survives the sweep at time 3600000, whose cutoff
    is 0, and a download at time 4000000, when the job is older than an
    hour, is answered with the artifact and not with 404. *)
Lemma expired_job_still_served :
  let swept := snd (cleanupOldJobs (quiet "x" 3600000) one_job) in
  expired 4000000 old_job
  /\ JsMap.get (jobs swept) "id-1" = Some old_job
  /\ download (quiet "x" 4000000) "id-1" swept
     = (inl tt, emit [Download "/srv/server/public/stitch-1.mp4"] swept)
  /\ ~ (forall e s id info t,
           JsMap.get (jobs s) id = Some info -> expired t info ->
           download e id s
           = (inl tt, emit [SetStatus 404; Json [("error", "Not found")]] s)).
Proof.
  cbv zeta. split; [reflexivity|]. split; [reflexivity|]. split; [reflexivity|].
  intros H.
  specialize (H (quiet "x" 4000000) one_job "id-1" old_job 4000000 eq_refl eq_refl).
  vm_compute in H. discriminate H.
Qed.

(** C7, amended.  A download is answered from the registry alone: an id
    that is registered gets the artifact as an attachment (and status 500
    if the transfer fails), whatever the age of the job, and an id that is
    not registered gets status 404 with the body [{error: 'Not found'}].
    A sweep removes exactly the jobs that are older than the retention
    window when it runs. *)
Theorem download_follows_registry (e : env) (s : state) (id : string) :
  NoDup (map fst (jobs s)) ->
  download e id s
  = match JsMap.get (jobs s) id with
    | None => (inl tt, emit [SetStatus 404; Json [("error", "Not found")]] s)
    | Some info =>
        (inl tt, emit (Download (job_path info)
                       :: match transfer e (job_path info) with
                          | Some _ => [SetStatus 500; End_]
                          | None => []
                          end) s)
    end
  /\ (forall info,
         JsMap.get (jobs (snd (cleanupOldJobs e s))) id = Some info
         <-> JsMap.get (jobs s) id = Some info
             /\ ~ expired (now e (reads s)) info).
Proof.
  intros Hnd. split; [apply RegistryFacts.download_spec|].
  intros info.
  destruct (RegistryFacts.cleanupOldJobs_spec e s Hnd) as (t & E & Hget & _).
  cbv zeta in E, Hget. rewrite E. simpl. rewrite Hget.
  unfold expired.
  destruct (JsMap.get (jobs s) id) as [info'|]; [|split; [discriminate | intros [H _]; discriminate]].
  destruct (created info' <? now e (reads s) - retention) eqn:Ex.
  - apply Z.ltb_lt in Ex. split; [discriminate|]. intros [[= ->] H]. lia.
  - apply Z.ltb_ge in Ex. split.
    + intros [= ->]. split; [reflexivity | lia].
    + intros [H _]. exact H.
Qed.

(** The registry with one job, asked for that job and for another id,
    before and after the sweep that evicts it. *)
Lemma download_follows_registry_witness :
  let later := quiet "x" 3600002 in
  NoDup (map fst (jobs one_job))
  /\ download later "id-1" one_job
     = (inl tt, emit [Download "/srv/server/public/stitch-1.mp4"] one_job)
  /\ download later "id-2" one_job
     = (inl tt, emit [SetStatus 404; Json [("error", "Not found")]] one_job)
  /\ expired 3600002 old_job
  /\ JsMap.get (jobs (snd (cleanupOldJobs later one_job))) "id-1" = None.
Proof.
  cbv zeta.
  assert (NoDup (map fst (jobs one_job))) as Hnd
      by (simpl; repeat constructor; simpl; tauto).
  split; [exact Hnd|].
  destruct (download_follows_registry (quiet "x" 3600002) one_job "id-1" Hnd) as [E1 Hs].
  destruct (download_follows_registry (quiet "x" 3600002) one_job "id-2" Hnd) as [E2 _].
  split; [exact E1|]. split; [exact E2|]. split; [reflexivity|].
  destruct (JsMap.get (jobs (snd (cleanupOldJobs (quiet "x" 3600002) one_job))) "id-1")
    as [info|]; [|reflexivity].
  destruct (proj1 (Hs info) eq_refl) as [[= <-] Hx]. destruct Hx. reflexivity.
Defined.

(** C8.  The name of the artifact is made of the clock alone: two
    requests that reach the copy in the same millisecond, here 1000, get
    different job ids and working directories but copy to the same file,
    and both registry entries point to it. *)
Theorem final_name_collision :
  let s1 := snd (process (quiet "id-1" 1000) (batch two_segments) start) in
  let s2 := snd (process (quiet "id-2" 1000) (batch two_segments) s1) in
  map (fun entry => (fst entry, job_path (snd entry), job_tempDir (snd entry))) (jobs s2)
  = [("id-1", "/srv/server/public/stitch-1000.mp4", "/tmp/yt-stitch-id-1");
     ("id-2", "/srv/server/public/stitch-1000.mp4", "/tmp/yt-stitch-id-2")]
  /\ In (CopyFile "/tmp/yt-stitch-id-1/stitched.mp4" "/srv/server/public/stitch-1000.mp4")
        (trace s2)
  /\ In (CopyFile "/tmp/yt-stitch-id-2/stitched.mp4" "/srv/server/public/stitch-1000.mp4")
        (trace s2)
  /\ forall t, finalName t = "stitch-" ++ Str.of_Z t ++ ".mp4".
Proof.
  cbv zeta. split; [vm_compute; reflexivity|].
  split; [vm_compute; tauto|]. split; [vm_compute; tauto|]. reflexivity.
Qed.

(* ================================================================== *)
(** ** The shape of every response *)

(** C10, as stated, fails for a batch with a row that is [null]: the
    handler has sent the headers, with the status code 200, and then
    throws while it validates, outside the [try] block.  The failure is
    reported neither as an error line nor in any other way, and the
    response is not ended. *)
Theorem malformed_row_is_not_reported (e : env) (s : state) :
  process e (batch [VNull]) s
  = (inr "Cannot read properties of null (reading 'url')", emit headers s)
  /\ status_sent 200 headers = Some 200
  /\ lines_of headers = []
  /\ ~ In End_ headers.
Proof.
  split; [|split; [reflexivity|split; [reflexivity|]]].
  - rewrite MonadFacts.process_unfold. reflexivity.
  - intros H. simpl in H. repeat (destruct H as [H|H]; [discriminate|]). exact H.
Qed.

(** X24.  Whatever the request, the handler first sets the three
    streaming headers and flushes them, and afterwards touches the head
    of the response no more: it sets no header and no status code, and
    answers in no other way than by lines. *)
Theorem head_is_sent_first_and_once (e : env) (body : value) (s : state) :
  exists t,
    trace (snd (process e body s)) = (trace s ++ headers ++ t)%list
    /\ Forall body_action t.
Proof.
  assert (forall tp, Forall pipeline_action tp -> Forall body_action tp) as Hpa.
  { intros tp. apply Forall_impl. intros [] H; try exact I; destruct H. }
  rewrite MonadFacts.process_unfold. cbv zeta.
  destruct (match body_segments body with VArr items => items | _ => [] end)
    as [|x rest].
  { exists [WriteLine (Error "No segments provided"); End_].
    split; [reflexivity | repeat constructor]. }
  destruct (validate 0 (x :: rest) []) as [parsed|m|m].
  - destruct (mkdtempSync e (path_join (tmpdir e) "yt-stitch-")) as [d|m].
    + pose proof (PipelineFacts.pipeline_grows e (randomUUID e) d parsed (entered d s))
        as (tp & Ht & Hf).
      destruct (pipeline e (randomUUID e) d parsed (entered d s)) as [[[]|m] s2];
        cbn [snd] in Ht; cbn [snd emit trace].
      * exists ([Mkdtemp d; WriteLine (Status "starting" "Validating inputs")]
                ++ tp ++ [End_])%list.
        split.
        -- rewrite Ht. unfold entered, emit. cbn [trace].
           rewrite <- !app_assoc. reflexivity.
        -- repeat constructor. apply Forall_app. split; [apply Hpa, Hf|].
           repeat constructor.
      * exists ([Mkdtemp d; WriteLine (Status "starting" "Validating inputs")]
                ++ tp ++ [WriteLine (Error (or_else m "Processing failed"));
                          RmSync d true; End_])%list.
        split.
        -- rewrite Ht. unfold entered, emit. cbn [trace].
           rewrite <- !app_assoc. reflexivity.
        -- repeat constructor. apply Forall_app. split; [apply Hpa, Hf|].
           repeat constructor.
    + exists []. split; [rewrite app_nil_r; reflexivity | constructor].
  - exists [WriteLine (Error m); End_]. split; [reflexivity | repeat constructor].
  - exists []. split; [rewrite app_nil_r; reflexivity | constructor].
Qed.

(* ================================================================== *)
(** ** The external process runner *)

Module RunnerFacts.
Import MonadFacts.

Lemma append_empty_r s : s ++ "" = s.
Proof. induction s as [|c s IH]; simpl; [reflexivity | rewrite IH; reflexivity]. Qed.

(** The [data] handlers collect each stream and log every chunk. *)
Lemma drain_log cs :
  forall out err s,
    drain log cs out err s
    = (inl (out ++ captured false cs, err ++ captured true cs),
       emit (map log_line cs) s).
Proof.
  induction cs as [|[b text] cs IH]; intros out err s.
  - simpl. rewrite !append_empty_r, emit_nil. reflexivity.
  - cbn [drain]. unfold bind, log, writeLine, act.
    destruct b; rewrite IH; cbn [captured Bool.eqb map];
      rewrite ?StrFacts.append_assoc; unfold emit, log_line; simpl;
      rewrite <- app_assoc; reflexivity.
Qed.

Lemma runCommand_run e cmd args s :
  runCommand e cmd args log s
  = let p := child e (procs s) cmd args in
    let s' := mkState (trace s ++ Spawn cmd args :: map log_line (chunks p))
                      (jobs s) (S (procs s)) (reads s) in
    match ending_of p with
    | SpawnError m => (inr m, s')
    | Close code =>
        if code =? 0 then (inl (Str.trim (captured false (chunks p))), s')
        else (inr (or_else (captured true (chunks p)) ("Command failed: " ++ cmd)), s')
    end.
Proof.
  unfold runCommand, bind, spawn. rewrite drain_log. cbv zeta.
  unfold emit. cbn [trace jobs procs reads fst snd].
  rewrite <- app_assoc. cbn [app append].
  destruct (ending_of (child e (procs s) cmd args)) as [code|m]; [|reflexivity].
  destruct (code =? 0); reflexivity.
Qed.

End RunnerFacts.

(** X1.  [runCommand] spawns one process, writes one log line per chunk,
    in the order of arrival and with the channel of the chunk, and then
    settles: with the trimmed text of stdout when the process exits with
    code 0, with stderr, or [Command failed: cmd] if stderr is empty, as
    error when it exits with another code, and with the error of [spawn]
    when the process could not be started. *)
Theorem runCommand_settles (e : env) (cmd : string) (args : list string) (s : state) :
  runCommand e cmd args log s
  = let p := child e (procs s) cmd args in
    let s' := mkState (trace s ++ Spawn cmd args :: map log_line (chunks p))
                      (jobs s) (S (procs s)) (reads s) in
    match ending_of p with
    | SpawnError m => (inr m, s')
    | Close code =>
        if code =? 0 then (inl (Str.trim (captured false (chunks p))), s')
        else (inr (or_else (captured true (chunks p)) ("Command failed: " ++ cmd)), s')
    end.
Proof. apply RunnerFacts.runCommand_run. Qed.

(** X2.  A process that exits with a code other than 0 makes
    [runCommand] throw an error whose message is not empty. *)
Theorem exit_failure_has_message
        (e : env) (cmd : string) (args : list string) (s : state) (code : Z) :
  ending_of (child e (procs s) cmd args) = Close code ->
  code <> 0 ->
  exists m, fst (runCommand e cmd args log s) = inr m /\ m <> "".
Proof.
  intros He Hc. rewrite RunnerFacts.runCommand_run. cbv zeta. rewrite He.
  apply Z.eqb_neq in Hc. rewrite Hc. eexists. split; [reflexivity|].
  unfold or_else.
  destruct (String.eqb (captured true (chunks (child e (procs s) cmd args))) "") eqn:E.
  - discriminate.
  - apply String.eqb_neq in E. exact E.
Qed.

(** A resolver that exits with code 1 without a word. *)
Lemma exit_failure_has_message_witness :
  exists m,
    fst (runCommand
           (mkEnv "/srv" "/tmp" "id" (fun p => inl p)
                  (fun _ _ _ => mkProc [(false, "partial")] (Close 1))
                  (fun _ _ => None) (fun _ _ => None) (fun _ => None)
                  (fun _ => None) (fun _ => 0))
           "yt-dlp" ["-g"; "u"] log start) = inr m
    /\ m <> "".
Proof.
  apply (exit_failure_has_message
           (mkEnv "/srv" "/tmp" "id" (fun p => inl p)
                  (fun _ _ _ => mkProc [(false, "partial")] (Close 1))
                  (fun _ _ => None) (fun _ _ => None) (fun _ => None)
                  (fun _ => None) (fun _ => 0))
           "yt-dlp" ["-g"; "u"] start 1).
  - reflexivity.
  - discriminate.
Defined.

(* ================================================================== *)
(** ** The stages of a request *)

Module StageFacts.
Import MonadFacts.

Lemma ran_refl s : ran 0 s s.
Proof.
  repeat split; [lia|]. exists []. split; [symmetry; apply app_nil_r | constructor].
Qed.

Lemma ran_trans k1 k2 s s1 s2 :
  ran k1 s s1 -> ran k2 s1 s2 -> ran (k1 + k2) s s2.
Proof.
  intros (J1 & R1 & P1 & t1 & T1 & F1) (J2 & R2 & P2 & t2 & T2 & F2).
  repeat split; [congruence | congruence | lia|].
  exists (t1 ++ t2)%list. rewrite T2, T1, app_assoc.
  split; [reflexivity | apply Forall_app; split; assumption].
Qed.

Lemma ran_emit l s : Forall progress_action l -> ran 0 s (emit l s).
Proof.
  intros H. repeat split; [simpl; lia|]. exists l. split; [reflexivity | exact H].
Qed.

Lemma log_lines_progress cs : Forall progress_action (map log_line cs).
Proof. induction cs as [|[b text] cs IH]; constructor; [exact I | exact IH]. Qed.

Lemma ran_runCommand e cmd args s :
  ran 1 s (snd (runCommand e cmd args log s)).
Proof.
  rewrite RunnerFacts.runCommand_run. cbv zeta.
  assert (ran 1 s (mkState (trace s ++ Spawn cmd args
                                    :: map log_line (chunks (child e (procs s) cmd args)))
                           (jobs s) (S (procs s)) (reads s))) as H.
  { repeat split; [simpl; lia|]. eexists. split; [reflexivity|].
    constructor; [exact I | apply log_lines_progress]. }
  destruct (ending_of (child e (procs s) cmd args)) as [code|m]; [|exact H].
  destruct (code =? 0); exact H.
Qed.

Lemma ran_fs_call a outcome s :
  progress_action a -> ran 0 s (snd (fs_call a outcome s)).
Proof.
  intros Ha. unfold fs_call, bind, act, throw, ret.
  destruct outcome; simpl; apply (ran_emit [a]); constructor; try exact Ha; constructor.
Qed.

Lemma bind_run {A B} (m : M A) (k : A -> M B) s :
  bind m k s = match m s with
               | (inl a, s') => k a s'
               | (inr err, s') => (inr err, s')
               end.
Proof. reflexivity. Qed.

Lemma bind_writeLine {B} ev (k : unit -> M B) s :
  bind (writeLine ev) k s = k tt (emit [WriteLine ev] s).
Proof. reflexivity. Qed.

(** The loop over the segments: two processes per segment, the clips
    named after the position of their segment. *)
Lemma download_segments_ran e tempDir total parsed :
  forall idx paths s,
    exists k,
      ran k s (snd (download_segments e tempDir total idx parsed paths s))
      /\ (k <= 2 * List.length parsed)%nat
      /\ forall ps,
          fst (download_segments e tempDir total idx parsed paths s) = inl ps ->
          k = (2 * List.length parsed)%nat
          /\ ps = (paths ++ map (segment_path tempDir) (seq idx (List.length parsed)))%list.
Proof.
  induction parsed as [|seg rest IH]; intros idx paths s.
  - exists 0%nat. simpl. split; [apply ran_refl|]. split; [lia|].
    intros ps H. unfold ret in H. simpl in H. injection H as <-.
    rewrite app_nil_r. split; reflexivity.
  - cbn [download_segments]. cbv zeta. rewrite bind_writeLine.
    set (s1 := emit [WriteLine (Status "resolving" _)] s).
    assert (ran 0 s s1) as R1 by (apply ran_emit; constructor; [exact I | constructor]).
    pose proof (ran_runCommand e "yt-dlp" ["-f"; "best"; "-g"; seg_url seg] s1) as R2.
    rewrite (bind_run (runCommand e "yt-dlp" _ log)).
    destruct (runCommand e "yt-dlp" ["-f"; "best"; "-g"; seg_url seg] log s1)
      as [[directUrl|err] s2]; simpl snd in R2.
    2:{ exists 1%nat. cbn [fst snd]. split; [apply (ran_trans 0 1 _ _ _ R1 R2)|].
        split; [simpl List.length; lia | discriminate]. }
    rewrite bind_writeLine.
    set (s3 := emit [WriteLine (Status "downloading" _)] s2).
    assert (ran 0 s2 s3) as R3 by (apply ran_emit; constructor; [exact I | constructor]).
    match goal with
    | |- context [bind (runCommand e "ffmpeg" ?a log) _ s3] =>
        pose proof (ran_runCommand e "ffmpeg" a s3) as R4;
        rewrite (bind_run (runCommand e "ffmpeg" a log));
        destruct (runCommand e "ffmpeg" a log s3) as [[out|err] s4]; simpl snd in R4
    end.
    2:{ exists 2%nat. cbn [fst snd]. split.
        - apply (ran_trans 0 2 _ _ _ R1), (ran_trans 1 1 _ _ _ R2),
            (ran_trans 0 1 _ _ _ R3), R4.
        - split; [simpl List.length; lia | discriminate]. }
    rewrite bind_writeLine.
    set (s5 := emit [WriteLine (Status "downloaded" _)] s4).
    assert (ran 0 s4 s5) as R5 by (apply ran_emit; constructor; [exact I | constructor]).
    destruct (IH (S idx) (paths ++ [path_join tempDir
                                      ("segment-" ++ Str.of_Z (Z.of_nat idx) ++ ".mp4")])%list
                 s5) as (k & Rk & Hk & Hs).
    exists (2 + k)%nat. split; [|split].
    + apply (ran_trans 0 (2 + k) _ _ _ R1), (ran_trans 1 (1 + k) _ _ _ R2),
        (ran_trans 0 (1 + k) _ _ _ R3), (ran_trans 1 k _ _ _ R4),
        (ran_trans 0 k _ _ _ R5), Rk.
    + simpl List.length. lia.
    + intros ps Hps. destruct (Hs ps Hps) as [-> ->]. split; [simpl List.length; lia|].
      rewrite <- app_assoc. reflexivity.
Qed.

Lemma bind_fs_call {B} a outcome (k : unit -> M B) s :
  bind (fs_call a outcome) k s
  = match outcome with
    | Some m => (inr m, emit [a] s)
    | None => k tt (emit [a] s)
    end.
Proof. destruct outcome; reflexivity. Qed.

Lemma bind_Date_now {B} e (k : Z -> M B) s :
  bind (Date_now e) k s
  = k (now e (reads s)) (mkState (trace s) (jobs s) (procs s) (S (reads s))).
Proof. reflexivity. Qed.

(** The [try] block, stage by stage: when it throws it has spawned at
    most two processes per segment and one more, and when it returns it
    has spawned exactly that many, written the manifest of all clips,
    copied the result under the name made of the first clock reading, and
    registered the job with the second. *)
Lemma pipeline_run e jobId tempDir parsed s :
  let n := List.length parsed in
  let final := path_join (publicDir e) (finalName (now e (reads s))) in
  let r := pipeline e jobId tempDir parsed s in
  match fst r with
  | inr _ =>
      exists k t,
        (k <= 2 * n + 1)%nat
        /\ jobs (snd r) = jobs s
        /\ procs (snd r) = (procs s + k)%nat
        /\ trace (snd r) = (trace s ++ t)%list /\ Forall progress_action t
  | inl _ =>
      exists s1 s2,
        ran (2 * n) s s1
        /\ ran 1 (emit [WriteLine (Status "stitching" "Stitching segments");
                        WriteFile (path_join tempDir "concat-list.txt")
                                  (manifest tempDir n)] s1) s2
        /\ snd r
           = mkState (trace s2
                      ++ [CopyFile (path_join tempDir "stitched.mp4") final;
                          WriteLine (Done jobId ("/api/download/" ++ jobId))])
                     (JsMap.set (jobs s) jobId
                                (mkJob final (now e (S (reads s))) tempDir))
                     (procs s2) (S (S (reads s)))
  end.
Proof.
  cbv zeta. unfold pipeline.
  assert (forall k s', ran k s s' -> (k <= 2 * List.length parsed + 1)%nat ->
                       exists k t,
                         (k <= 2 * List.length parsed + 1)%nat
                         /\ jobs s' = jobs s
                         /\ procs s' = (procs s + k)%nat
                         /\ trace s' = (trace s ++ t)%list /\ Forall progress_action t)
    as Hweak.
  { intros k s' (J & _ & P & t & T & F) Hk. exists k, t. auto. }
  destruct (download_segments_ran e tempDir (List.length parsed) parsed 0%nat [] s)
    as (k & Rk & Hk & Hs).
  rewrite (bind_run (download_segments e tempDir _ 0 parsed [])).
  destruct (download_segments e tempDir (List.length parsed) 0 parsed [] s)
    as [[paths|err] s1]; cbn [fst snd] in *.
  2:{ apply (Hweak k); [exact Rk | lia]. }
  destruct (Hs paths eq_refl) as [-> Hp]. simpl app in Hp. subst paths.
  rewrite bind_writeLine. cbv zeta. rewrite bind_fs_call.
  fold (manifest tempDir (List.length parsed)).
  set (sw := emit [WriteFile _ _] (emit [WriteLine (Status "stitching" _)] s1)).
  assert (sw = emit [WriteLine (Status "stitching" "Stitching segments");
                     WriteFile (path_join tempDir "concat-list.txt")
                               (manifest tempDir (List.length parsed))] s1) as Esw
      by (unfold sw; rewrite emit_emit; reflexivity).
  assert (ran 0 s1 sw) as Rw.
  { rewrite Esw. apply ran_emit. repeat constructor. }
  destruct (writeFileSync e _ _) as [m|].
  { cbn [fst snd]. apply (Hweak (2 * List.length parsed + 0)%nat); [|lia].
    apply (ran_trans _ _ _ _ _ Rk Rw). }
  match goal with
  | |- context [bind (runCommand e "ffmpeg" ?a log) _ sw] =>
      pose proof (ran_runCommand e "ffmpeg" a sw) as Rc;
      rewrite (bind_run (runCommand e "ffmpeg" a log));
      destruct (runCommand e "ffmpeg" a log sw) as [[out|err] s2]; cbn [fst snd] in *
  end.
  2:{ apply (Hweak (2 * List.length parsed + (0 + 1))%nat); [|lia].
      apply (ran_trans _ _ _ _ _ Rk), (ran_trans _ _ _ _ _ Rw), Rc. }
  pose proof Rc as (J2 & R2 & _).
  pose proof Rw as (Jw & Rdw & _).
  pose proof Rk as (J1 & R1 & _).
  rewrite bind_Date_now. cbv zeta. rewrite bind_fs_call.
  assert (reads s2 = reads s) as Er by congruence.
  assert (jobs s2 = jobs s) as Ej by congruence.
  destruct (copyFileSync e _ _) as [m|]; cbn [fst snd].
  { pose proof (ran_trans _ _ _ _ _ Rk (ran_trans _ _ _ _ _ Rw Rc))
      as (J & _ & P & t & T & F).
    exists (2 * List.length parsed + (0 + 1))%nat,
           (t ++ [CopyFile (path_join tempDir "stitched.mp4")
                           (path_join (publicDir e) (finalName (now e (reads s2))))])%list.
    unfold emit. cbn [trace jobs procs reads].
    repeat split; [lia | exact J | exact P | rewrite T, app_assoc; reflexivity |].
    apply Forall_app. split; [exact F | repeat constructor]. }
  exists s1, s2. split; [exact Rk|]. split; [rewrite <- Esw; exact Rc|].
  unfold bind, Date_now, get_jobs, put_jobs, writeLine, act, emit. cbn [fst snd trace jobs procs reads].
  rewrite Er, Ej, <- app_assoc. reflexivity.
Qed.

End StageFacts.

(* ================================================================== *)
(** ** More about validation *)

Module RowFacts.

(** The loop accepts a batch exactly when every row passes its check, and
    then returns the checked rows in the order of the batch. *)
Lemma validate_rows segments :
  forall k acc out,
    validate k segments acc = Valid out <->
    exists ps, out = (acc ++ ps)%list
               /\ Forall2 (fun seg p => check_row seg = RowOk p) segments ps.
Proof.
  induction segments as [|x rest IH]; intros k acc out; simpl.
  - split.
    + intros [= <-]. exists []. rewrite app_nil_r. split; [reflexivity | constructor].
    + intros (ps & -> & H). inversion H. rewrite app_nil_r. reflexivity.
  - destruct (check_row x) as [p|r|m] eqn:Ex.
    + rewrite IH. split.
      * intros (ps & -> & H). exists (p :: ps). rewrite <- app_assoc.
        split; [reflexivity | constructor; assumption].
      * intros (ps & -> & H). inversion H as [|? q ? qs Hq Hr]; subst.
        assert (q = p) as -> by congruence.
        exists qs. rewrite <- app_assoc. split; [reflexivity | exact Hr].
    + split; [discriminate|]. intros (ps & _ & H). inversion H; congruence.
    + split; [discriminate|]. intros (ps & _ & H). inversion H; congruence.
Qed.

(** What a row that passed holds. *)
Lemma check_row_ok seg p :
  check_row seg = RowOk p ->
  exists u vs ve,
    get_prop seg "url" = Some (VStr u)
    /\ get_prop seg "start" = Some vs /\ get_prop seg "end" = Some ve
    /\ seg_url p = Str.trim u /\ seg_url p <> ""
    /\ parseTimestamp vs = Some (seg_start p)
    /\ parseTimestamp ve = Some (seg_end p)
    /\ Num.ge (seg_start p) (seg_end p) = false.
Proof.
  unfold check_row.
  destruct (get_prop seg "url") as [u|]; [|discriminate].
  destruct (get_prop seg "start") as [vs|]; [|discriminate].
  destruct (get_prop seg "end") as [ve|]; [|discriminate].
  destruct u as [| | | |x| |]; try discriminate.
  destruct (String.eqb _ "") eqn:Eu; [discriminate|].
  destruct (parseTimestamp vs) as [a|] eqn:Pa; [|discriminate].
  destruct (parseTimestamp ve) as [b|] eqn:Pb; [|discriminate].
  destruct (Num.ge a b) eqn:Eg; [discriminate|].
  intros [= <-]. simpl.
  exists x, vs, ve. apply String.eqb_neq in Eu. repeat split; auto.
Qed.

(** A row that is [null] makes the loop throw when it gets there. *)
Lemma validate_throws segments :
  forall i k acc seg,
    nth_error segments i = Some seg ->
    get_prop seg "url" = None ->
    (forall j sj, (j < i)%nat -> nth_error segments j = Some sj ->
                  exists p, check_row sj = RowOk p) ->
    validate k segments acc = Thrown "Cannot read properties of null (reading 'url')".
Proof.
  induction segments as [|x rest IH]; intros i k acc seg Hn Hnull Hbefore.
  - destruct i; discriminate.
  - destruct i as [|i].
    + injection Hn as ->. simpl. unfold check_row. rewrite Hnull. reflexivity.
    + destruct (Hbefore 0%nat x ltac:(lia) eq_refl) as [p Hp].
      simpl. rewrite Hp. apply (IH i _ _ seg Hn Hnull).
      intros j sj Hj Hs. apply (Hbefore (S j) sj); [lia | exact Hs].
Qed.

Lemma Forall2_nth {A B} (R : A -> B -> Prop) l1 l2 :
  Forall2 R l1 l2 ->
  forall i a, nth_error l1 i = Some a -> exists b, nth_error l2 i = Some b /\ R a b.
Proof.
  induction 1 as [|x y l1 l2 Hxy H IH]; intros i a Hn.
  - destruct i; discriminate.
  - destruct i as [|i]; [injection Hn as <-; exists y; split; [reflexivity | exact Hxy]|].
    apply IH, Hn.
Qed.

End RowFacts.

(** X3.  When validation accepts a batch, [parsed] has one entry per row,
    in the order of the rows, and the entry of a row holds its trimmed,
    non-empty URL and its two parsed timestamps, of which the start is
    not [>=] the end. *)
Theorem validated_rows_in_order (segments : list value) (parsed : list segment) :
  validate 0 segments [] = Valid parsed ->
  List.length parsed = List.length segments
  /\ forall i seg,
      nth_error segments i = Some seg ->
      exists p u vs ve,
        nth_error parsed i = Some p
        /\ get_prop seg "url" = Some (VStr u)
        /\ get_prop seg "start" = Some vs /\ get_prop seg "end" = Some ve
        /\ seg_url p = Str.trim u /\ seg_url p <> ""
        /\ parseTimestamp vs = Some (seg_start p)
        /\ parseTimestamp ve = Some (seg_end p)
        /\ Num.ge (seg_start p) (seg_end p) = false.
Proof.
  intros H. apply RowFacts.validate_rows in H as (ps & -> & H). simpl. split.
  - symmetry. apply (Forall2_length H).
  - intros i seg Hn.
    destruct (RowFacts.Forall2_nth _ _ _ H i seg Hn) as (p & Hp & Hok).
    destruct (RowFacts.check_row_ok seg p Hok) as (u & vs & ve & Hrest).
    exists p, u, vs, ve. split; [exact Hp | exact Hrest].
Qed.

(** The two sample rows. *)
Lemma validated_rows_in_order_witness :
  validate 0 two_segments [] = Valid two_parsed
  /\ List.length two_parsed = List.length two_segments
  /\ exists p u vs ve,
      nth_error two_parsed 1 = Some p
      /\ get_prop (seg_obj " u2 " "01:02:03" "3724") "url" = Some (VStr u)
      /\ get_prop (seg_obj " u2 " "01:02:03" "3724") "start" = Some vs
      /\ get_prop (seg_obj " u2 " "01:02:03" "3724") "end" = Some ve
      /\ seg_url p = Str.trim u /\ seg_url p <> ""
      /\ parseTimestamp vs = Some (seg_start p)
      /\ parseTimestamp ve = Some (seg_end p)
      /\ Num.ge (seg_start p) (seg_end p) = false.
Proof.
  assert (validate 0 two_segments [] = Valid two_parsed) as H
      by (vm_compute; reflexivity).
  split; [exact H|].
  destruct (validated_rows_in_order two_segments two_parsed H) as [Hl Hr].
  split; [exact Hl|].
  apply (Hr 1%nat (seg_obj " u2 " "01:02:03" "3724")). reflexivity.
Defined.

(** X4.  A row that is [null], after rows that pass, makes the handler
    throw while it validates: the headers have been flushed, no line is
    written and the response is not ended. *)
Theorem null_row_throws
        (e : env) (body : value) (s : state) (segments : list value) (i : nat) :
  body_segments body = VArr segments ->
  nth_error segments i = Some VNull ->
  (forall j sj, (j < i)%nat -> nth_error segments j = Some sj ->
                exists p, check_row sj = RowOk p) ->
  process e body s
  = (inr "Cannot read properties of null (reading 'url')", emit headers s).
Proof.
  intros Hb Hn Hbefore.
  rewrite MonadFacts.process_unfold, Hb. cbv zeta.
  destruct segments as [|x rest]; [destruct i; discriminate|].
  rewrite (RowFacts.validate_throws (x :: rest) i 0 [] VNull Hn eq_refl Hbefore).
  reflexivity.
Qed.

(** A batch whose second row is [null]. *)
Lemma null_row_throws_witness :
  process (quiet "id-1" 1000) (batch [seg_obj "u" "0" "1"; VNull]) start
  = (inr "Cannot read properties of null (reading 'url')", emit headers start).
Proof.
  apply (null_row_throws (quiet "id-1" 1000) (batch [seg_obj "u" "0" "1"; VNull]) start
           [seg_obj "u" "0" "1"; VNull] 1).
  - reflexivity.
  - reflexivity.
  - intros j sj Hj Hs. destruct j; [|lia].
    injection Hs as <-. eexists. vm_compute. reflexivity.
Defined.

(* ================================================================== *)
(** ** More about requests *)

Module RequestFacts.
Import MonadFacts.

Lemma NoDup_set (m : JsMap.t job) k v :
  NoDup (keys m) -> NoDup (keys (JsMap.set m k v)).
Proof.
  unfold keys. induction m as [|[k0 v0] m IH]; simpl; intros H.
  - constructor; [intros [] | constructor].
  - inversion H as [|? ? Hn Hd]; subst.
    destruct (String.eqb k0 k) eqn:E; simpl; [constructor; assumption|].
    constructor; [|apply IH, Hd].
    intros Hin. apply Hn. clear IH Hd H Hn.
    induction m as [|[k1 v1] m IH]; simpl in *.
    + destruct Hin as [<-|[]]. rewrite String.eqb_refl in E. discriminate.
    + destruct (String.eqb k1 k); simpl in Hin; [exact Hin|].
      destruct Hin as [<-|Hin]; [left; reflexivity | right; apply IH, Hin].
Qed.

Lemma NoDup_sweep cutoff l :
  forall j, NoDup (keys j) -> NoDup (keys (sweep cutoff l j)).
Proof.
  unfold keys, sweep. induction l as [|[k v] l IH]; intros j H; simpl; [exact H|].
  apply IH. destruct (created v <? cutoff); [apply RegistryFacts.NoDup_delete, H | exact H].
Qed.

Lemma reads_entered d s : reads (entered d s) = reads s.
Proof. reflexivity. Qed.

Lemma progress_silent t : Forall progress_action t -> Forall silent t.
Proof.
  apply Forall_impl. intros [| | [] | | | | | | | | |]; simpl; tauto.
Qed.

Lemma headers_silent : Forall silent headers.
Proof. repeat constructor. Qed.

(** The registry after a request: as before, or with the entry of the
    job of this request set. *)
Lemma process_jobs e body s :
  jobs (snd (process e body s)) = jobs s
  \/ exists info, jobs (snd (process e body s)) = JsMap.set (jobs s) (randomUUID e) info.
Proof.
  rewrite process_unfold. cbv zeta.
  destruct (match body_segments body with VArr items => items | _ => [] end);
    [left; reflexivity|].
  destruct (validate 0 _ []) as [parsed|m|m]; try (left; reflexivity).
  destruct (mkdtempSync e _) as [d|m]; [|left; reflexivity].
  pose proof (PipelineFacts.pipeline_registers e (randomUUID e) d parsed (entered d s)) as H.
  destruct (pipeline e (randomUUID e) d parsed (entered d s)) as [[[]|m] s2]; simpl.
  - right. destruct H as (path & t & H). eexists. exact H.
  - left. exact H.
Qed.

End RequestFacts.

(** X5.  A request that runs to the end can be downloaded: the handler
    copies the stitched file to [publicDir/stitch-<clock>.mp4], registers
    that path under the job id, names the id in the [done] line before it
    ends the stream, and a download of the id is answered with that
    file. *)
Theorem done_then_download
        (e : env) (body : value) (s : state) (segments : list value)
        (parsed : list segment) (tempDir : string) (s2 : state) :
  body_segments body = VArr segments ->
  segments <> [] ->
  validate 0 segments [] = Valid parsed ->
  mkdtempSync e (path_join (tmpdir e) "yt-stitch-") = inl tempDir ->
  pipeline e (randomUUID e) tempDir parsed (entered tempDir s) = (inl tt, s2) ->
  let id := randomUUID e in
  let final := path_join (publicDir e) (finalName (now e (reads s))) in
  let s' := snd (process e body s) in
  (exists t,
      trace s' = (trace s ++ t
                  ++ [CopyFile (path_join tempDir "stitched.mp4") final;
                      WriteLine (Done id ("/api/download/" ++ id)); End_])%list)
  /\ JsMap.get (jobs s') id = Some (mkJob final (now e (S (reads s))) tempDir)
  /\ forall e',
      download e' id s'
      = (inl tt, emit (Download final
                       :: match transfer e' final with
                          | Some _ => [SetStatus 500; End_]
                          | None => []
                          end) s').
Proof.
  intros Hb Hne Hv Hd Hp. cbv zeta.
  assert (process e body s = (inl tt, emit [End_] s2)) as E.
  { rewrite MonadFacts.process_unfold, Hb. cbv zeta.
    destruct segments as [|x rest]; [congruence|].
    rewrite Hv, Hd, Hp. reflexivity. }
  pose proof (StageFacts.pipeline_run e (randomUUID e) tempDir parsed (entered tempDir s))
    as H.
  cbv zeta in H. rewrite Hp in H. cbn [fst snd] in H.
  destruct H as (s1 & sc & R1 & Rc & ->).
  rewrite RequestFacts.reads_entered in *.
  assert (JsMap.get (jobs (snd (process e body s))) (randomUUID e)
          = Some (mkJob (path_join (publicDir e) (finalName (now e (reads s))))
                        (now e (S (reads s))) tempDir)) as G.
  { rewrite E. simpl. apply RegistryFacts.get_set_same. }
  split; [|split].
  - destruct R1 as (_ & _ & _ & t1 & T1 & _). destruct Rc as (_ & _ & _ & t2 & T2 & _).
    exists (headers ++ [Mkdtemp tempDir; WriteLine (Status "starting" "Validating inputs")]
            ++ t1 ++ [WriteLine (Status "stitching" "Stitching segments");
                      WriteFile (path_join tempDir "concat-list.txt")
                                (manifest tempDir (List.length parsed))]
            ++ t2)%list.
    rewrite E. cbn [snd emit trace]. rewrite T2. cbn [emit trace]. rewrite T1.
    unfold entered, emit. cbn [trace].
    rewrite <- !app_assoc. reflexivity.
  - exact G.
  - intros e'. rewrite RegistryFacts.download_spec, G. reflexivity.
Qed.

(** The two sample segments in a world where everything works. *)
Lemma done_then_download_witness :
  let e := quiet "id-1" 1000 in
  let s' := snd (process e (batch two_segments) start) in
  JsMap.get (jobs s') "id-1"
  = Some (mkJob "/srv/server/public/stitch-1000.mp4" 1000 "/tmp/yt-stitch-id-1")
  /\ download e "id-1" s'
     = (inl tt, emit [Download "/srv/server/public/stitch-1000.mp4"] s').
Proof.
  cbv zeta.
  destruct (done_then_download (quiet "id-1" 1000) (batch two_segments) start
              two_segments two_parsed "/tmp/yt-stitch-id-1"
              (snd (pipeline (quiet "id-1" 1000) "id-1" "/tmp/yt-stitch-id-1" two_parsed
                             (entered "/tmp/yt-stitch-id-1" start))))
    as (_ & G & D).
  - reflexivity.
  - discriminate.
  - vm_compute. reflexivity.
  - reflexivity.
  - vm_compute. reflexivity.
  - split; [exact G | exact (D (quiet "id-1" 1000))].
Defined.

(** X6.  A request spawns at most two processes per row of its batch and
    one more, whatever happens, and never fewer than none. *)
Theorem spawns_at_most (e : env) (body : value) (s : state) :
  (procs s <= procs (snd (process e body s))
   <= procs s + 2 * List.length (rows_of body) + 1)%nat.
Proof.
  rewrite MonadFacts.process_unfold. cbv zeta. fold (rows_of body).
  destruct (rows_of body) as [|x rest] eqn:Er; [simpl; lia|].
  destruct (validate 0 (x :: rest) []) as [parsed|m|m] eqn:Ev; try (simpl; lia).
  destruct (mkdtempSync e _) as [d|m]; [|simpl; lia].
  apply RowFacts.validate_rows in Ev as (ps & -> & Hf).
  apply Forall2_length in Hf. simpl app.
  pose proof (StageFacts.pipeline_run e (randomUUID e) d ps (entered d s)) as H.
  cbv zeta in H.
  destruct (pipeline e (randomUUID e) d ps (entered d s)) as [[[]|m] s2];
    cbn [fst snd] in *.
  - destruct H as (s1 & sc & (_ & _ & P1 & _) & (_ & _ & Pc & _) & ->).
    simpl in *. lia.
  - destruct H as (k & t & Hk & _ & P & _). simpl in *. lia.
Qed.

(** X7.  A request that runs to the end has spawned exactly two
    processes per segment and one more, and has written, between the
    work on the segments and the concatenation, the manifest that lists
    the clips [segment-0.mp4], [segment-1.mp4], ... of its working
    directory in the order of the batch. *)
Theorem success_runs_every_stage
        (e : env) (body : value) (s : state) (segments : list value)
        (parsed : list segment) (tempDir : string) (s2 : state) :
  body_segments body = VArr segments ->
  segments <> [] ->
  validate 0 segments [] = Valid parsed ->
  mkdtempSync e (path_join (tmpdir e) "yt-stitch-") = inl tempDir ->
  pipeline e (randomUUID e) tempDir parsed (entered tempDir s) = (inl tt, s2) ->
  let n := List.length segments in
  procs (snd (process e body s)) = (procs s + 2 * n + 1)%nat
  /\ exists t1 t2,
      Forall progress_action t1 /\ Forall progress_action t2
      /\ trace (snd (process e body s))
         = (trace s ++ headers
            ++ [Mkdtemp tempDir; WriteLine (Status "starting" "Validating inputs")]
            ++ t1
            ++ [WriteLine (Status "stitching" "Stitching segments");
                WriteFile (path_join tempDir "concat-list.txt") (manifest tempDir n)]
            ++ t2
            ++ [CopyFile (path_join tempDir "stitched.mp4")
                         (path_join (publicDir e) (finalName (now e (reads s))));
                WriteLine (Done (randomUUID e) ("/api/download/" ++ randomUUID e));
                End_])%list.
Proof.
  intros Hb Hne Hv Hd Hp. cbv zeta.
  assert (process e body s = (inl tt, emit [End_] s2)) as E.
  { rewrite MonadFacts.process_unfold, Hb. cbv zeta.
    destruct segments as [|x rest]; [congruence|].
    rewrite Hv, Hd, Hp. reflexivity. }
  apply RowFacts.validate_rows in Hv as (ps & -> & Hf).
  apply Forall2_length in Hf. simpl app in *.
  pose proof (StageFacts.pipeline_run e (randomUUID e) tempDir ps (entered tempDir s)) as H.
  cbv zeta in H. rewrite Hp in H. cbn [fst snd] in H.
  destruct H as (s1 & sc & R1 & Rc & ->).
  rewrite RequestFacts.reads_entered in *.
  destruct R1 as (_ & _ & P1 & t1 & T1 & F1). destruct Rc as (_ & _ & Pc & t2 & T2 & F2).
  rewrite E. cbn [snd emit trace procs]. simpl in P1, Pc. split; [lia|].
  exists t1, t2. split; [exact F1|]. split; [exact F2|].
  rewrite T2. cbn [emit trace]. rewrite T1. unfold entered, emit. cbn [trace].
  rewrite Hf, <- !app_assoc. reflexivity.
Qed.

(** The two sample segments: five processes, and a manifest of two
    lines. *)
Lemma success_runs_every_stage_witness :
  let e := quiet "id-1" 1000 in
  procs (snd (process e (batch two_segments) start)) = 5%nat
  /\ manifest "/tmp/yt-stitch-id-1" 2
     = "file '/tmp/yt-stitch-id-1/segment-0.mp4'" ++ String "010" ""
       ++ "file '/tmp/yt-stitch-id-1/segment-1.mp4'"
  /\ In (WriteFile "/tmp/yt-stitch-id-1/concat-list.txt" (manifest "/tmp/yt-stitch-id-1" 2))
        (trace (snd (process e (batch two_segments) start))).
Proof.
  cbv zeta.
  destruct (success_runs_every_stage (quiet "id-1" 1000) (batch two_segments) start
              two_segments two_parsed "/tmp/yt-stitch-id-1"
              (snd (pipeline (quiet "id-1" 1000) "id-1" "/tmp/yt-stitch-id-1" two_parsed
                             (entered "/tmp/yt-stitch-id-1" start))))
    as (P & t1 & t2 & _ & _ & T).
  - reflexivity.
  - discriminate.
  - vm_compute. reflexivity.
  - reflexivity.
  - vm_compute. reflexivity.
  - split; [exact P|]. split; [reflexivity|].
    rewrite T. apply in_or_app. right. apply in_or_app. right.
    apply in_or_app. right. apply in_or_app. right. right. left. reflexivity.
Defined.

(** X8.  A handler that returns has written exactly one line that ends
    the stream of events, an error or the [done] line, after which it
    does nothing but, for an error of the [try] block, remove the working
    directory, and end the response; a handler that throws has written no
    such line and has not ended the response. *)
Theorem one_terminal_line (e : env) (body : value) (s : state) :
  match fst (process e body s) with
  | inl _ =>
      exists before ev after,
        trace (snd (process e body s))
        = (trace s ++ before ++ [WriteLine ev] ++ after ++ [End_])%list
        /\ terminal ev /\ Forall silent before
        /\ (after = [] \/ exists d, after = [RmSync d true])
  | inr _ =>
      exists t, trace (snd (process e body s)) = (trace s ++ t)%list /\ Forall silent t
  end.
Proof.
  rewrite MonadFacts.process_unfold. cbv zeta.
  destruct (match body_segments body with VArr items => items | _ => [] end)
    as [|x rest].
  { exists headers, (Error "No segments provided"), []. cbn [fst snd emit trace].
    repeat split; [apply RequestFacts.headers_silent | left; reflexivity]. }
  destruct (validate 0 (x :: rest) []) as [parsed|m|m].
  - destruct (mkdtempSync e _) as [d|m].
    + pose proof (StageFacts.pipeline_run e (randomUUID e) d parsed (entered d s)) as H.
      cbv zeta in H.
      destruct (pipeline e (randomUUID e) d parsed (entered d s)) as [[[]|m] s2];
        cbn [fst snd] in *.
      * destruct H as (s1 & sc & (_ & _ & _ & t1 & T1 & F1) & (_ & _ & _ & t2 & T2 & F2) & ->).
        exists (headers ++ [Mkdtemp d; WriteLine (Status "starting" "Validating inputs")]
                ++ t1 ++ [WriteLine (Status "stitching" "Stitching segments");
                          WriteFile (path_join d "concat-list.txt")
                                    (manifest d (List.length parsed))]
                ++ t2 ++ [CopyFile (path_join d "stitched.mp4")
                                   (path_join (publicDir e)
                                              (finalName (now e (reads (entered d s)))))])%list,
               (Done (randomUUID e) ("/api/download/" ++ randomUUID e)), [].
        split; [|split; [exact I|split; [|left; reflexivity]]].
        -- cbn [emit trace]. rewrite T2. cbn [emit trace]. rewrite T1.
           unfold entered, emit. cbn [trace]. rewrite <- !app_assoc. reflexivity.
        -- repeat (apply Forall_app; split);
             try apply RequestFacts.headers_silent;
             try (apply RequestFacts.progress_silent; assumption);
             repeat constructor.
      * destruct H as (k & t & _ & _ & _ & T & F).
        exists (headers ++ [Mkdtemp d; WriteLine (Status "starting" "Validating inputs")]
                ++ t)%list,
               (Error (or_else m "Processing failed")), [RmSync d true].
        split; [|split; [exact I|split; [|right; exists d; reflexivity]]].
        -- cbn [emit trace]. rewrite T. unfold entered, emit. cbn [trace].
           rewrite <- !app_assoc. reflexivity.
        -- repeat (apply Forall_app; split);
             try apply RequestFacts.headers_silent;
             try (apply RequestFacts.progress_silent; assumption);
             repeat constructor.
    + exists headers. split; [reflexivity | apply RequestFacts.headers_silent].
  - exists headers, (Error m), []. cbn [fst snd emit trace].
    repeat split; [apply RequestFacts.headers_silent | left; reflexivity].
  - exists headers. split; [reflexivity | apply RequestFacts.headers_silent].
Qed.

(** X9.  The keys of the registry stay distinct under requests, sweeps
    and downloads, and a request changes at most the entry of its own job
    id. *)
Theorem registry_stays_a_map (e : env) (s : state) :
  NoDup (keys (jobs s)) ->
  (forall body,
      NoDup (keys (jobs (snd (process e body s))))
      /\ forall id, id <> randomUUID e ->
                    JsMap.get (jobs (snd (process e body s))) id = JsMap.get (jobs s) id)
  /\ NoDup (keys (jobs (snd (cleanupOldJobs e s))))
  /\ forall id, jobs (snd (download e id s)) = jobs s.
Proof.
  intros Hnd. split; [|split].
  - intros body. destruct (RequestFacts.process_jobs e body s) as [-> | [info ->]].
    + split; [exact Hnd | reflexivity].
    + split; [apply RequestFacts.NoDup_set, Hnd|].
      intros id Hid. apply RegistryFacts.get_set_other, Hid.
  - destruct (RegistryFacts.for_each_evict e (now e (reads s) - retention) (jobs s)
                (mkState (trace s) (jobs s) (procs s) (S (reads s)))) as (t & E & _).
    unfold cleanupOldJobs, bind, Date_now, get_jobs. cbn [fst snd trace jobs procs reads] in *.
    rewrite E. apply RequestFacts.NoDup_sweep, Hnd.
  - intros id. rewrite RegistryFacts.download_spec.
    destruct (JsMap.get (jobs s) id); reflexivity.
Qed.

(** The registry with one job, a request of another job, a sweep and a
    download. *)
Lemma registry_stays_a_map_witness :
  NoDup (keys (jobs one_job))
  /\ NoDup (keys (jobs (snd (process (quiet "id-2" 1000) (batch two_segments) one_job))))
  /\ JsMap.get (jobs (snd (process (quiet "id-2" 1000) (batch two_segments) one_job))) "id-1"
     = Some old_job.
Proof.
  assert (NoDup (keys (jobs one_job))) as H by (repeat constructor; simpl; tauto).
  split; [exact H|].
  destruct (registry_stays_a_map (quiet "id-2" 1000) one_job H) as [Hp _].
  destruct (Hp (batch two_segments)) as [Hn Hg].
  split; [exact Hn|]. rewrite Hg; [reflexivity | discriminate].
Defined.

(* ================================================================== *)
(** ** More about eviction *)

Module SweepFacts.
Import MonadFacts.

Lemma evicts_incl e cutoff l l' a :
  (forall x, In x l -> In x l') -> evicts e cutoff l a -> evicts e cutoff l' a.
Proof.
  intros Hi (id & info & Hin & Hc & H). exists id, info. auto.
Qed.

Lemma evict_trace e cutoff id info s :
  exists t,
    evict e cutoff (id, info) s
    = (inl tt, mkState (trace s ++ t)
                       (if created info <? cutoff then JsMap.delete (jobs s) id else jobs s)
                       (procs s) (reads s))
    /\ Forall (evicts e cutoff [(id, info)]) t.
Proof.
  unfold evict. destruct (created info <? cutoff) eqn:Ex.
  - apply Z.ltb_lt in Ex.
    assert (evicts e cutoff [(id, info)] (RmSync (job_path info) false)) as H1
        by (exists id, info;
            split; [left; reflexivity | split; [exact Ex | left; reflexivity]]).
    unfold try_catch, fs_call, bind, act, throw, ret, get_jobs, put_jobs. simpl.
    destruct (rmSync e (job_path info)) as [m|] eqn:E1; simpl.
    + eexists. split; [reflexivity|]. repeat constructor. exact H1.
    + destruct (String.eqb (job_tempDir info) "") eqn:E2; simpl.
      * eexists. split; [reflexivity|]. repeat constructor. exact H1.
      * apply String.eqb_neq in E2.
        assert (evicts e cutoff [(id, info)] (RmSync (job_tempDir info) true)) as H2
            by (exists id, info;
                split; [left; reflexivity | split; [exact Ex | right; auto]]).
        destruct (rmSync e (job_tempDir info)); simpl; rewrite <- app_assoc;
          (eexists; split; [reflexivity|]); repeat constructor; assumption.
  - exists []. rewrite app_nil_r. split; [destruct s; reflexivity | constructor].
Qed.

Lemma for_each_evict_trace e cutoff l :
  forall s,
    exists t,
      for_each (evict e cutoff) l s
      = (inl tt, mkState (trace s ++ t) (sweep cutoff l (jobs s)) (procs s) (reads s))
      /\ Forall (evicts e cutoff l) t.
Proof.
  induction l as [|[id0 info0] l IH]; intros s.
  - exists []. rewrite app_nil_r. split; [destruct s; reflexivity | constructor].
  - destruct (evict_trace e cutoff id0 info0 s) as (t0 & E0 & F0).
    destruct (IH (mkState (trace s ++ t0)
                          (if created info0 <? cutoff
                           then JsMap.delete (jobs s) id0 else jobs s)
                          (procs s) (reads s))) as (t1 & E1 & F1).
    exists (t0 ++ t1)%list. split.
    + cbn [for_each]. rewrite (bind_inl _ _ _ _ _ E0), E1. simpl.
      rewrite app_assoc. reflexivity.
    + apply Forall_app. split.
      * eapply Forall_impl; [|exact F0]. intros a Ha.
        apply (evicts_incl e cutoff [(id0, info0)]); [|exact Ha].
        intros x Hx. simpl in Hx. destruct Hx as [<-|[]]. left. reflexivity.
      * eapply Forall_impl; [|exact F1]. intros a Ha.
        apply (evicts_incl e cutoff l); [|exact Ha].
        intros x Hx. right. exact Hx.
Qed.

End SweepFacts.

(** X10.  [cleanupOldJobs] never throws, whatever [rmSync] does, and it
    removes nothing but the artifacts of jobs older than the retention
    window and, after an artifact was removed without error, the working
    directory recorded with it. *)
Theorem sweep_removes_expired_only (e : env) (s : state) :
  let cutoff := now e (reads s) - retention in
  exists t,
    cleanupOldJobs e s
    = (inl tt, mkState (trace s ++ t) (sweep cutoff (jobs s) (jobs s))
                       (procs s) (S (reads s)))
    /\ Forall (evicts e cutoff (jobs s)) t.
Proof.
  cbv zeta.
  destruct (SweepFacts.for_each_evict_trace e (now e (reads s) - retention) (jobs s)
              (mkState (trace s) (jobs s) (procs s) (S (reads s)))) as (t & E & F).
  exists t. split; [|exact F].
  unfold cleanupOldJobs, bind, Date_now, get_jobs. simpl. exact E.
Qed.

(** X11.  When the removal of an artifact throws, the sweep does not
    attempt to remove the working directory of that job, and it drops the
    entry all the same: if this happens for every job that is older than
    the retention window, the sweep removes no directory at all and the
    registry no longer knows the jobs. *)
Theorem failed_removal_skips_directory (e : env) (s : state) :
  NoDup (keys (jobs s)) ->
  (forall id info,
      In (id, info) (jobs s) -> created info < now e (reads s) - retention ->
      rmSync e (job_path info) <> None) ->
  exists t,
    trace (snd (cleanupOldJobs e s)) = (trace s ++ t)%list
    /\ (forall p, ~ In (RmSync p true) t)
    /\ forall id info,
        In (id, info) (jobs s) -> created info < now e (reads s) - retention ->
        In (RmSync (job_path info) false) t
        /\ JsMap.get (jobs (snd (cleanupOldJobs e s))) id = None.
Proof.
  intros Hnd Hfail.
  destruct (SweepFacts.for_each_evict_trace e (now e (reads s) - retention) (jobs s)
              (mkState (trace s) (jobs s) (procs s) (S (reads s)))) as (t & E & F).
  destruct (RegistryFacts.for_each_evict e (now e (reads s) - retention) (jobs s)
              (mkState (trace s) (jobs s) (procs s) (S (reads s)))) as (t' & E' & Hrm).
  assert (t' = t) as ->.
  { rewrite E in E'. injection E' as E'. apply app_inv_head in E'. congruence. }
  assert (cleanupOldJobs e s
          = (inl tt, mkState (trace s ++ t)
                             (sweep (now e (reads s) - retention) (jobs s) (jobs s))
                             (procs s) (S (reads s)))) as Ec
      by (unfold cleanupOldJobs, bind, Date_now, get_jobs; simpl; exact E).
  exists t. rewrite Ec. cbn [snd trace jobs]. split; [reflexivity|]. split.
  - intros p Hin. rewrite Forall_forall in F.
    destruct (F _ Hin) as (id & info & Hi & Hc & [H|(H & Hr & _)]); [discriminate|].
    exact (Hfail id info Hi Hc Hr).
  - intros id info Hi Hc.
    assert ((created info <? now e (reads s) - retention) = true) as Hlt
        by (apply Z.ltb_lt; exact Hc).
    split; [apply (Hrm id info Hi Hlt)|].
    rewrite RegistryFacts.get_sweep;
      [|exact Hnd|exact Hnd|intros k v; apply RegistryFacts.In_get, Hnd].
    rewrite (RegistryFacts.In_get _ _ _ Hnd Hi), Hlt.
    rewrite (RegistryFacts.existsb_key _ _ _ (RegistryFacts.In_get _ _ _ Hnd Hi)).
    reflexivity.
Qed.

(** The registry with the job of time 1, swept at time 4000000 in a
    world where [rmSync] always throws. *)
Lemma failed_removal_skips_directory_witness :
  exists t,
    trace (snd (cleanupOldJobs
                  (mkEnv "/srv" "/tmp" "x" (fun p => inl p) (fun _ _ _ => ok_proc "")
                         (fun _ _ => None) (fun _ _ => None) (fun _ => Some "EPERM")
                         (fun _ => None) (fun _ => 4000000))
                  one_job))
    = (trace one_job ++ t)%list
    /\ (forall p, ~ In (RmSync p true) t)
    /\ forall id info,
        In (id, info) (jobs one_job) ->
        created info < 4000000 - retention ->
        In (RmSync (job_path info) false) t
        /\ JsMap.get
             (jobs (snd (cleanupOldJobs
                           (mkEnv "/srv" "/tmp" "x" (fun p => inl p)
                                  (fun _ _ _ => ok_proc "")
                                  (fun _ _ => None) (fun _ _ => None)
                                  (fun _ => Some "EPERM")
                                  (fun _ => None) (fun _ => 4000000))
                           one_job))) id = None.
Proof.
  cbv zeta.
  apply (failed_removal_skips_directory
           (mkEnv "/srv" "/tmp" "x" (fun p => inl p) (fun _ _ _ => ok_proc "")
                  (fun _ _ => None) (fun _ _ => None) (fun _ => Some "EPERM")
                  (fun _ => None) (fun _ => 4000000))
           one_job).
  - repeat constructor. simpl. tauto.
  - intros id info _ _. discriminate.
Defined.

(* ================================================================== *)
(** ** More about the timestamp codec *)

Module CodecMore.
Import Str Num StrFacts NumFacts CodecFacts.

Lemma length_append s t : String.length (s ++ t) = (String.length s + String.length t)%nat.
Proof. induction s as [|c s IH]; simpl; [reflexivity | rewrite IH; reflexivity]. Qed.

Lemma length_repeat_char c n : String.length (repeat_char c n) = n.
Proof. induction n as [|n IH]; simpl; [reflexivity | rewrite IH; reflexivity]. Qed.

Lemma length_padStart k c s :
  String.length (padStart k c s) = Nat.max k (String.length s).
Proof. unfold padStart. rewrite length_append, length_repeat_char. lia. Qed.

Lemma digits_small n : 0 <= n < 10 -> digits n = String (digit_char n) "".
Proof.
  intros H. unfold digits. cbn [digits_fuel].
  assert ((n <? 10) = true) as -> by (apply Z.ltb_lt; lia). reflexivity.
Qed.

Lemma length_digits_two n : 10 <= n < 100 -> String.length (digits n) = 2%nat.
Proof.
  intros H. unfold digits.
  assert (3 <= Z.log2 n) as Hl
      by (change 3 with (Z.log2 8); apply Z.log2_le_mono; lia).
  destruct (Z.to_nat (Z.log2 n)) as [|f] eqn:Ef; [lia|].
  change (digits_fuel (S (S f)) n)
    with (if n <? 10 then String (digit_char n) ""
          else digits_fuel (S f) (n / 10) ++ String (digit_char (n mod 10)) "").
  assert ((n <? 10) = false) as -> by (apply Z.ltb_ge; lia).
  cbn [digits_fuel].
  assert ((n / 10 <? 10) = true) as ->
      by (apply Z.ltb_lt, Z.div_lt_upper_bound; lia).
  reflexivity.
Qed.

(** A field below 100 is printed with exactly two digits. *)
Lemma length_two_digits n :
  0 <= n < 100 -> String.length (padStart 2 "0" (Str.of_Z n)) = 2%nat.
Proof.
  intros H. rewrite length_padStart. unfold Str.of_Z.
  assert ((n <? 0) = false) as -> by (apply Z.ltb_ge; lia).
  destruct (Z_lt_ge_dec n 10) as [Hs|Hb].
  - rewrite digits_small by lia. reflexivity.
  - rewrite length_digits_two by lia. reflexivity.
Qed.

Lemma parse_one ss s :
  renders ss s -> s < safe -> parseTimestamp (VStr ss) = Some (of_Z s).
Proof.
  intros H Hb. pose proof (renders_test _ _ H) as Ht.
  pose proof (Number_renders _ _ H Hb) as Hn.
  destruct H as (Ha & Hne & _). unfold parseTimestamp.
  rewrite (trim_digits ss Ha), Ht, Hn.
  destruct ss; [congruence | reflexivity].
Qed.

Lemma parse_two ms ss m s :
  renders ms m -> renders ss s -> m * 60 + s < safe ->
  parseTimestamp (VStr (ms ++ ":" ++ ss)) = Some (of_Z (m * 60 + s)).
Proof.
  intros Hm Hs Hb.
  pose proof (renders_nonneg _ _ Hm) as Pm.
  pose proof (renders_nonneg _ _ Hs) as Ps.
  pose proof (Number_renders _ _ Hm ltac:(lia)) as Nm.
  pose proof (Number_renders _ _ Hs ltac:(lia)) as Ns.
  destruct Hm as (Am & Em & _), Hs as (As & Es & _).
  unfold parseTimestamp.
  assert (trim (ms ++ ":" ++ ss) = ms ++ ":" ++ ss) as ->.
  { destruct ms as [|c ms]; [congruence|].
    simpl in Am. apply andb_prop in Am as [Hc _].
    replace (String c ms ++ ":" ++ ss) with (String c (ms ++ ":") ++ ss).
    - apply trim_digit_ends; assumption.
    - simpl. f_equal. rewrite append_assoc. reflexivity. }
  assert (String.eqb (ms ++ ":" ++ ss) "" = false) as ->
    by (destruct ms; [congruence | reflexivity]).
  assert (test_digits (ms ++ ":" ++ ss) = false) as ->.
  { unfold test_digits. change (":" ++ ss) with (String ":" ss).
    rewrite all_digits_colon. apply andb_false_r. }
  change (":" ++ ss) with (String ":" ss).
  rewrite (split_digits_colon ms _ Am), (split_digits ss As).
  cbn [map]. rewrite Nm, Ns. cbn [existsb isNaN of_Z orb].
  change (Fin (inject_Z m)) with (of_Z m).
  change (Fin (inject_Z s)) with (of_Z s).
  rewrite !mul_Z, !add_Z by lia. reflexivity.
Qed.

Lemma trimStart_head s :
  trimStart s = "" \/ exists c r, trimStart s = String c r /\ is_space c = false.
Proof.
  induction s as [|c s IH]; simpl; [left; reflexivity|].
  destruct (is_space c) eqn:E; [exact IH|]. right. exists c, s. split; [reflexivity | exact E].
Qed.

Lemma trimEnd_cons c r :
  is_space c = false -> trimEnd (String c r) = String c (trimEnd r).
Proof. intros H. simpl. rewrite H. destruct (trimEnd r); reflexivity. Qed.

Lemma trimEnd_idem s : trimEnd (trimEnd s) = trimEnd s.
Proof.
  induction s as [|c s IH]; [reflexivity|].
  simpl. destruct (trimEnd s) as [|d r] eqn:E.
  - destruct (is_space c) eqn:Ec; [reflexivity|]. simpl. rewrite Ec. reflexivity.
  - change (trimEnd (String c (String d r)))
      with (match trimEnd (String d r) with
            | EmptyString => if is_space c then EmptyString else String c EmptyString
            | r' => String c r'
            end).
    rewrite IH. reflexivity.
Qed.

(** Trimming twice is trimming once. *)
Lemma trim_idem s : trim (trim s) = trim s.
Proof.
  unfold trim. destruct (trimStart_head s) as [-> | (c & r & -> & Hc)]; [reflexivity|].
  rewrite (trimEnd_cons c r Hc). simpl trimStart. rewrite Hc.
  rewrite <- (trimEnd_cons c r Hc). apply trimEnd_idem.
Qed.

End CodecMore.

(** X12.  For a non-negative integer below [2^53], [formatTimestamp]
    prints the hours, the minutes below 60 and the seconds below 60,
    separated by colons: minutes and seconds with exactly two digits,
    hours with two digits or more. *)
Theorem format_has_three_fields (n : Z) :
  0 <= n < 2 ^ 53 ->
  exists hs ms ss,
    formatTimestamp (Num.of_Z n) = hs ++ ":" ++ ms ++ ":" ++ ss
    /\ Str.renders hs (n / 3600)
    /\ Str.renders ms ((n / 60) mod 60)
    /\ Str.renders ss (n mod 60)
    /\ (2 <= String.length hs)%nat
    /\ String.length ms = 2%nat /\ String.length ss = 2%nat.
Proof.
  intros H. change (2 ^ 53) with Num.safe in H.
  rewrite (CodecFacts.format_fields n H). unfold Num.safe in H.
  pose proof (Z.mod_pos_bound n 60 ltac:(lia)) as Hs.
  pose proof (Z.mod_pos_bound (n / 60) 60 ltac:(lia)) as Hm.
  assert (0 <= n / 3600) as Hh by (apply Z.div_pos; lia).
  eexists _, _, _. split; [reflexivity|].
  split; [apply StrFacts.padStart_renders, StrFacts.of_Z_renders; lia|].
  split; [apply StrFacts.padStart_renders, StrFacts.of_Z_renders; lia|].
  split; [apply StrFacts.padStart_renders, StrFacts.of_Z_renders; lia|].
  split; [rewrite CodecMore.length_padStart; lia|].
  split; apply CodecMore.length_two_digits; lia.
Qed.

(** One hour, one minute and one second, and a thousand hours. *)
Lemma format_has_three_fields_witness :
  formatTimestamp (Num.of_Z 3661) = "01:01:01"
  /\ formatTimestamp (Num.of_Z 3600000) = "1000:00:00"
  /\ exists hs ms ss,
      formatTimestamp (Num.of_Z 3600000) = hs ++ ":" ++ ms ++ ":" ++ ss
      /\ Str.renders hs (3600000 / 3600)
      /\ Str.renders ms ((3600000 / 60) mod 60)
      /\ Str.renders ss (3600000 mod 60)
      /\ (2 <= String.length hs)%nat
      /\ String.length ms = 2%nat /\ String.length ss = 2%nat.
Proof.
  split; [vm_compute; reflexivity|]. split; [vm_compute; reflexivity|].
  apply (format_has_three_fields 3600000). lia.
Defined.

(** X13.  Groups of digits are read as numbers and weighed by 3600, 60
    and 1, whatever their number of digits, as long as the sum is below
    [2^53]: minutes and seconds are not limited to 59, and leading zeros
    are ignored. *)
Theorem digit_groups_are_not_range_checked (hs ms ss : string) (h m s : Z) :
  Str.renders hs h -> Str.renders ms m -> Str.renders ss s ->
  h * 3600 + m * 60 + s < 2 ^ 53 ->
  parseTimestamp (VStr ss) = Some (Num.of_Z s)
  /\ parseTimestamp (VStr (ms ++ ":" ++ ss)) = Some (Num.of_Z (m * 60 + s))
  /\ parseTimestamp (VStr (hs ++ ":" ++ ms ++ ":" ++ ss))
     = Some (Num.of_Z (h * 3600 + m * 60 + s)).
Proof.
  intros Hh Hm Hs Hb. change (2 ^ 53) with Num.safe in Hb.
  pose proof (CodecFacts.renders_nonneg _ _ Hh) as Ph.
  pose proof (CodecFacts.renders_nonneg _ _ Hm) as Pm.
  pose proof (CodecFacts.renders_nonneg _ _ Hs) as Ps.
  split; [|split].
  - apply CodecMore.parse_one; [exact Hs | lia].
  - apply CodecMore.parse_two; [exact Hm | exact Hs | lia].
  - apply CodecFacts.parse_three; assumption.
Qed.

(** ["0:90"] and ["001:150:0090"]. *)
Lemma digit_groups_are_not_range_checked_witness :
  parseTimestamp (VStr "0:90") = Some (Num.of_Z 90)
  /\ parseTimestamp (VStr "001:150:0090") = Some (Num.of_Z 12690).
Proof.
  assert (Str.renders "001" 1) as R1 by (repeat split; discriminate).
  assert (Str.renders "0" 0) as R2 by (repeat split; discriminate).
  assert (Str.renders "90" 90) as R3 by (repeat split; discriminate).
  assert (Str.renders "150" 150) as R4 by (repeat split; discriminate).
  assert (Str.renders "0090" 90) as R5 by (repeat split; discriminate).
  split.
  - exact (proj1 (proj2 (digit_groups_are_not_range_checked
                           "001" "0" "90" 1 0 90 R1 R2 R3 ltac:(lia)))).
  - exact (proj2 (proj2 (digit_groups_are_not_range_checked
                           "001" "150" "0090" 1 150 90 R1 R4 R5 ltac:(lia)))).
Defined.

(** X14.  White space around a timestamp is ignored: a string parses
    like its trimmed form. *)
Theorem parse_ignores_outer_space (s : string) :
  parseTimestamp (VStr s) = parseTimestamp (VStr (Str.trim s)).
Proof.
  unfold parseTimestamp. rewrite CodecMore.trim_idem. reflexivity.
Qed.

(* ================================================================== *)
(** ** The web client *)

Module ClientFacts.

Lemma parse_agrees v : Client.parseTimestamp v = parseTimestamp v.
Proof.
  destruct v as [| |b|n|s|l|o]; try reflexivity.
  - destruct b; reflexivity.
  - destruct n as [| | |q]; try reflexivity. simpl.
    unfold Client.parseTimestamp. simpl. rewrite orb_true_r. reflexivity.
  - unfold Client.parseTimestamp, parseTimestamp. simpl.
    destruct (String.eqb s "") eqn:E; simpl; [|reflexivity].
    apply String.eqb_eq in E. subst s. reflexivity.
Qed.

Lemma rows_of_payload rows : rows_of (Client.payload rows) = map posted rows.
Proof.
  unfold rows_of, Client.payload, Client.parsedSegments. simpl.
  rewrite map_map. reflexivity.
Qed.

(** The server's check of a posted row, in terms of the client's
    message for it. *)
Lemma check_posted r :
  check_row (posted r)
  = if String.eqb (Client.row_error (item_of r)) "" then
      match parseTimestamp (VStr (Client.r_start r)),
            parseTimestamp (VStr (Client.r_end r)) with
      | Some a, Some b => RowOk (mkSegment (Str.trim (Client.r_url r)) a b)
      | _, _ => RowBad ": Invalid timestamps"
      end
    else if String.eqb (Client.row_error (item_of r)) "URL required"
         then RowBad ": URL required" else RowBad ": Invalid timestamps".
Proof.
  unfold check_row.
  change (get_prop (posted r) "url") with (Some (VStr (Client.r_url r))).
  change (get_prop (posted r) "start") with (Some (VStr (Client.r_start r))).
  change (get_prop (posted r) "end") with (Some (VStr (Client.r_end r))).
  cbv beta iota zeta.
  unfold Client.row_error, item_of.
  cbn [Client.item_row Client.startSeconds Client.endSeconds].
  rewrite !parse_agrees.
  destruct (String.eqb (Str.trim (Client.r_url r)) ""); [reflexivity|].
  destruct (parseTimestamp (VStr (Client.r_start r))) as [a|]; [|reflexivity].
  destruct (parseTimestamp (VStr (Client.r_end r))) as [b|]; [|reflexivity].
  destruct (Num.ge a b); reflexivity.
Qed.

Lemma check_posted_ok r :
  Client.row_error (item_of r) = "" <-> exists p, check_row (posted r) = RowOk p.
Proof.
  rewrite check_posted. split.
  - intros E. rewrite E. cbn [String.eqb].
    unfold Client.row_error, item_of in E.
    cbn [Client.item_row Client.startSeconds Client.endSeconds] in E.
    rewrite !parse_agrees in E.
    destruct (String.eqb (Str.trim (Client.r_url r)) ""); [discriminate|].
    destruct (parseTimestamp (VStr (Client.r_start r))) as [a|]; [|discriminate].
    destruct (parseTimestamp (VStr (Client.r_end r))) as [b|]; [|discriminate].
    eexists. reflexivity.
  - intros [p H]. destruct (String.eqb (Client.row_error (item_of r)) "") eqn:E.
    + apply String.eqb_eq, E.
    + destruct (String.eqb (Client.row_error (item_of r)) "URL required"); discriminate.
Qed.

Lemma validate_fold rows : Client.validate rows = fold_left step (map item_of rows) (true, rows).
Proof. reflexivity. Qed.

Lemma fold_verdict items :
  forall st,
    fst (fold_left step items st)
    = fst st && forallb (fun item => String.eqb (Client.row_error item) "") items.
Proof.
  induction items as [|item items IH]; intros st; simpl.
  - rewrite andb_true_r. reflexivity.
  - rewrite IH. simpl. destruct (String.eqb (Client.row_error item) ""); simpl.
    + reflexivity.
    + rewrite andb_false_r. reflexivity.
Qed.

Lemma update_other id p rows :
  (forall r, In r rows -> Client.r_id r <> id) -> Client.update id p rows = rows.
Proof.
  induction rows as [|r rows IH]; intros H; simpl; [reflexivity|].
  assert (String.eqb (Client.r_id r) id = false) as ->
      by (apply String.eqb_neq, H; left; reflexivity).
  rewrite IH; [reflexivity|]. intros x Hx. apply H. right. exact Hx.
Qed.

Lemma fold_rows todo :
  forall b done,
    NoDup (map Client.r_id (done ++ todo)) ->
    snd (fold_left step (map item_of todo) (b, (map stamped done ++ todo)%list))
    = map stamped (done ++ todo).
Proof.
  induction todo as [|r todo IH]; intros b done Hnd.
  - simpl. rewrite !app_nil_r. reflexivity.
  - cbn [map fold_left]. unfold step at 2. cbn [fst snd].
    change (Client.item_row (item_of r)) with r.
    assert (Client.update (Client.r_id r)
              (Client.mkPatch None None None (Some (Client.row_error (item_of r))))
              (map stamped done ++ r :: todo)
            = (map stamped (done ++ [r]) ++ todo)%list) as ->.
    { unfold Client.update. rewrite map_app. cbn [map].
      rewrite String.eqb_refl.
      rewrite map_app, <- app_assoc. cbn [map app].
      rewrite map_app in Hnd. apply NoDup_remove_2 in Hnd.
      f_equal; [|f_equal].
      - apply (update_other (Client.r_id r)). intros x Hx.
        apply in_map_iff in Hx as (y & <- & Hy). intros E. apply Hnd.
        apply in_or_app. left. apply in_map_iff. exists y. split; [exact E | exact Hy].
      - apply (update_other (Client.r_id r)). intros x Hx E. apply Hnd.
        apply in_or_app. right. apply in_map_iff. exists x. split; [exact E | exact Hx]. }
    rewrite IH.
    + rewrite <- app_assoc. reflexivity.
    + rewrite <- app_assoc. exact Hnd.
Qed.

End ClientFacts.

(** X15.  The client's copies of the codec agree with the server's:
    [parseTimestamp] on every value, and [formatTimestamp] on every
    number but [NaN], for which, as for [null], the client prints nothing
    where the server prints [NaN:NaN:NaN]. *)
Theorem client_codec_agrees :
  (forall v, Client.parseTimestamp v = parseTimestamp v)
  /\ (forall x, Client.formatTimestamp (Some x)
                = if Num.isNaN x then "" else formatTimestamp x)
  /\ Client.formatTimestamp None = ""
  /\ formatTimestamp NaN = "NaN:NaN:NaN".
Proof.
  split; [exact ClientFacts.parse_agrees|].
  split; [intros [| | |q]; reflexivity|]. split; reflexivity.
Qed.

(** X16.  The client lets a form through exactly when the server's
    validation accepts the batch that the client posts for it. *)
Theorem client_and_server_validate_alike (rows : list Client.row) :
  fst (Client.validate rows) = true
  <-> exists parsed, validate 0 (rows_of (Client.payload rows)) [] = Valid parsed.
Proof.
  rewrite ClientFacts.validate_fold, ClientFacts.fold_verdict,
    ClientFacts.rows_of_payload.
  cbn [fst andb]. rewrite forallb_forall. split.
  - intros H.
    assert (exists ps, Forall2 (fun seg p => check_row seg = RowOk p)
                               (map posted rows) ps) as [ps Hps].
    { induction rows as [|r rows IH]; [exists []; constructor|].
      destruct IH as [ps Hps].
      - intros x Hx. apply H. right. exact Hx.
      - assert (Client.row_error (item_of r) = "") as Hr
            by (apply String.eqb_eq, H; left; reflexivity).
        apply ClientFacts.check_posted_ok in Hr as [p Hp].
        exists (p :: ps). constructor; assumption. }
    exists ps. apply RowFacts.validate_rows. exists ps. split; [reflexivity | exact Hps].
  - intros [parsed Hv] item Hin.
    apply RowFacts.validate_rows in Hv as (ps & _ & Hf).
    apply in_map_iff in Hin as (r & <- & Hr).
    apply String.eqb_eq, ClientFacts.check_posted_ok.
    apply (in_map posted) in Hr.
    apply In_nth_error in Hr as [i Hi].
    destruct (RowFacts.Forall2_nth _ _ _ Hf i _ Hi) as (p & _ & Hp).
    exists p. exact Hp.
Qed.

(** X17.  When the rows of the form have distinct ids, [validate] leaves
    on every row the message computed for that row, and changes nothing
    else. *)
Theorem validate_stamps_each_row (rows : list Client.row) :
  NoDup (map Client.r_id rows) ->
  snd (Client.validate rows) = map stamped rows.
Proof.
  intros H. rewrite ClientFacts.validate_fold.
  apply (ClientFacts.fold_rows rows true []). exact H.
Qed.

(** A row without URL and a row whose start is after its end. *)
Lemma validate_stamps_each_row_witness :
  snd (Client.validate [Client.mkRow "a" "" "0" "1" ""; Client.mkRow "b" "u" "10" "5" "old"])
  = [Client.mkRow "a" "" "0" "1" "URL required";
     Client.mkRow "b" "u" "10" "5" "Start must be before end"].
Proof.
  rewrite (validate_stamps_each_row
             [Client.mkRow "a" "" "0" "1" ""; Client.mkRow "b" "u" "10" "5" "old"]).
  - reflexivity.
  - repeat constructor; simpl; intuition discriminate.
Defined.

(* ================================================================== *)
(** ** The client's reader of the stream *)

Module StreamFacts.

Section Reader.

Variable A : Type.
Variable parse : string -> option A.

Lemma cut_line_none s : Client.cut_line s = None -> Str.split Client.LF s = [s].
Proof.
  induction s as [|c s IH]; simpl; [reflexivity|].
  destruct (Ascii.eqb c Client.LF); [discriminate|].
  destruct (Client.cut_line s) as [[l r]|]; [discriminate|].
  intros _. rewrite (IH eq_refl). reflexivity.
Qed.

(** The first line of a buffer stays the first line when text is added
    at the end. *)
Lemma cut_line_some s :
  forall l rest,
    Client.cut_line s = Some (l, rest) ->
    (String.length rest < String.length s)%nat
    /\ forall tail, Str.split Client.LF (s ++ tail) = l :: Str.split Client.LF (rest ++ tail).
Proof.
  induction s as [|c s IH]; intros l rest; simpl; [discriminate|].
  destruct (Ascii.eqb c Client.LF) eqn:Ec.
  - intros [= <- <-]. split; [lia|]. intros tail. reflexivity.
  - destruct (Client.cut_line s) as [[l0 r0]|]; [|discriminate].
    intros [= <- <-]. destruct (IH l0 r0 eq_refl) as [Hl Hs].
    split; [lia|]. intros tail. rewrite Hs. reflexivity.
Qed.

(** The inner loop hands over the complete lines of the buffer and keeps
    the text after the last line feed. *)
Lemma pump_lines fuel :
  forall buffer,
    (String.length buffer < fuel)%nat ->
    match Client.pump A parse fuel buffer with
    | (d, Some rest) =>
        Client.cut_line rest = None
        /\ forall tail,
            Client.hand_over A parse (Str.split Client.LF (buffer ++ tail))
            = let '(d', ok) := Client.hand_over A parse (Str.split Client.LF (rest ++ tail)) in
              ((d ++ d')%list, ok)
    | (d, None) =>
        forall tail,
          Client.hand_over A parse (Str.split Client.LF (buffer ++ tail)) = (d, false)
    end.
Proof.
  induction fuel as [|fuel IH]; intros buffer Hlen; [lia|].
  cbn [Client.pump].
  destruct (Client.cut_line buffer) as [[l rest]|] eqn:Ec.
  - destruct (cut_line_some buffer l rest Ec) as [Hl Hs].
    specialize (IH rest ltac:(lia)).
    destruct (String.eqb (Str.trim l) "") eqn:Eb.
    + destruct (Client.pump A parse fuel rest) as [d [r|]].
      * destruct IH as [Hc Hh]. split; [exact Hc|]. intros tail.
        rewrite Hs. cbn [Client.hand_over]. rewrite Eb. apply Hh.
      * intros tail. rewrite Hs. cbn [Client.hand_over]. rewrite Eb. apply IH.
    + destruct (parse (Str.trim l)) as [a|] eqn:Ep.
      * destruct (Client.pump A parse fuel rest) as [d [r|]].
        -- destruct IH as [Hc Hh]. split; [exact Hc|]. intros tail.
           rewrite Hs. cbn [Client.hand_over]. rewrite Eb, Ep, Hh.
           destruct (Client.hand_over A parse (Str.split Client.LF (r ++ tail))).
           reflexivity.
        -- intros tail. rewrite Hs. cbn [Client.hand_over]. rewrite Eb, Ep, IH.
           reflexivity.
      * intros tail. rewrite Hs. cbn [Client.hand_over]. rewrite Eb, Ep. reflexivity.
  - split; [exact Ec|]. intros tail.
    destruct (Client.hand_over A parse (Str.split Client.LF (buffer ++ tail))).
    reflexivity.
Qed.

(** The outer loop, from a buffer without line feed. *)
Lemma reading_lines chunks :
  forall buffer,
    Client.cut_line buffer = None ->
    Client.reading A parse chunks buffer
    = Client.hand_over A parse (Str.split Client.LF (buffer ++ whole chunks)).
Proof.
  induction chunks as [|value more IH]; intros buffer Hb.
  - cbn [whole fold_right]. rewrite RunnerFacts.append_empty_r, (cut_line_none _ Hb).
    cbn [Client.reading Client.hand_over].
    destruct (String.eqb (Str.trim buffer) ""); [reflexivity|].
    destruct (parse (Str.trim buffer)); reflexivity.
  - cbn [Client.reading whole fold_right]. cbv zeta.
    fold (whole more). rewrite <- StrFacts.append_assoc.
    pose proof (pump_lines (S (String.length (buffer ++ value))) (buffer ++ value)
                           ltac:(lia)) as H.
    destruct (Client.pump A parse (S (String.length (buffer ++ value))) (buffer ++ value))
      as [d [rest|]].
    + destruct H as [Hc Hh]. rewrite (Hh (whole more)), (IH rest Hc). reflexivity.
    + rewrite (H (whole more)). reflexivity.
Qed.

Lemma decodeStream_lines chunks :
  Client.decodeStream A parse chunks
  = Client.hand_over A parse (Str.split Client.LF (whole chunks)).
Proof. apply (reading_lines chunks ""). reflexivity. Qed.

End Reader.

End StreamFacts.

(** X18.  [decodeStream] hands over, in order, the lines of the whole
    text of the stream, cut at the line feeds, trimmed, without the blank
    ones and with the text after the last line feed as last line, and it
    stops at the first line that [JSON.parse] rejects. *)
Theorem decodeStream_hands_over_lines
        (A : Type) (parse : string -> option A) (chunks : list string) :
  Client.decodeStream A parse chunks
  = Client.hand_over A parse (Str.split Client.LF (whole chunks)).
Proof. apply StreamFacts.decodeStream_lines. Qed.

(** X19.  What [decodeStream] hands over does not depend on how the
    stream is cut into chunks. *)
Theorem decodeStream_ignores_chunking
        (A : Type) (parse : string -> option A) (chunks chunks' : list string) :
  whole chunks = whole chunks' ->
  Client.decodeStream A parse chunks = Client.decodeStream A parse chunks'.
Proof.
  intros H. rewrite !StreamFacts.decodeStream_lines, H. reflexivity.
Qed.

(** Two lines, in one chunk and cut in the middle of each line. *)
Lemma decodeStream_ignores_chunking_witness :
  let text := "a" ++ String "010" "" ++ " b" ++ String "010" "" in
  Client.decodeStream string Some [text]
  = Client.decodeStream string Some ["a"; String "010" " "; "b"; String "010" ""]
  /\ Client.decodeStream string Some [text] = (["a"; "b"], true).
Proof.
  cbv zeta. split; [|reflexivity].
  apply (decodeStream_ignores_chunking string Some). reflexivity.
Defined.

(* ================================================================== *)
(** ** The rows of the form and the status panel *)

Module FormFacts.

Lemma ids_update id p rows : ids (Client.update id p rows) = ids rows.
Proof.
  unfold ids, Client.update. rewrite map_map. apply map_ext.
  intros r. destruct (String.eqb (Client.r_id r) id); reflexivity.
Qed.

Lemma filter_keeps_others id rows :
  ~ In id (ids rows) ->
  filter (fun item => negb (String.eqb (Client.r_id item) id)) rows = rows.
Proof.
  induction rows as [|r rows IH]; simpl; intros H; [reflexivity|].
  assert (String.eqb (Client.r_id r) id = false) as -> by (apply String.eqb_neq; tauto).
  simpl. rewrite IH; [reflexivity | tauto].
Qed.

(** Among rows with distinct ids, at most one has a given id. *)
Lemma filter_drops_one id rows :
  NoDup (ids rows) ->
  (List.length rows
   <= S (List.length (filter (fun item => negb (String.eqb (Client.r_id item) id)) rows)))%nat.
Proof.
  induction rows as [|r rows IH]; simpl; intros H; [lia|].
  inversion H as [|? ? Hn Hd]; subst.
  destruct (String.eqb (Client.r_id r) id) eqn:E; simpl.
  - apply String.eqb_eq in E. subst id. rewrite (filter_keeps_others _ _ Hn). lia.
  - specialize (IH Hd). lia.
Qed.

Lemma NoDup_filter_ids (f : Client.row -> bool) rows :
  NoDup (ids rows) -> NoDup (ids (filter f rows)).
Proof.
  unfold ids. induction rows as [|r rows IH]; simpl; intros H; [constructor|].
  inversion H as [|? ? Hn Hd]; subst.
  destruct (f r); simpl; [|apply IH, Hd].
  constructor; [|apply IH, Hd].
  intros Hin. apply Hn. apply in_map_iff in Hin as (x & E & Hx).
  apply in_map_iff. exists x. split; [exact E|]. apply filter_In in Hx. tauto.
Qed.

Lemma length_slice_last {A} n (l : list A) : (List.length (Client.slice_last n l) <= n)%nat.
Proof. unfold Client.slice_last. rewrite length_skipn. lia. Qed.

Lemma logs_on_line debug line u :
  (List.length (Client.logs u) <= 401 ->
   List.length (Client.logs (Client.on_line debug line u)) <= 401)%nat.
Proof.
  intros H. destruct line as [st m|ch m|m|id url]; simpl; try exact H.
  destruct debug; [|exact H]. simpl. rewrite length_app. simpl.
  pose proof (length_slice_last 400 (Client.logs u)). lia.
Qed.

Lemma lines_of_app t1 t2 : lines_of (t1 ++ t2) = (lines_of t1 ++ lines_of t2)%list.
Proof.
  induction t1 as [|a t1 IH]; [reflexivity|].
  destruct a; simpl; rewrite IH; reflexivity.
Qed.

Lemma shown_app debug l1 l2 u :
  shown debug (l1 ++ l2) u = shown debug l2 (shown debug l1 u).
Proof. unfold shown. apply fold_left_app. Qed.

(** The lines of a response that the handler has ended: some lines, and
    then an error line or the [done] line of the job that is now
    registered. *)
Lemma returned_lines e body s :
  fst (process e body s) = inl tt ->
  exists t before,
    trace (snd (process e body s)) = (trace s ++ t)%list
    /\ ((exists m, lines_of t = (before ++ [Error m])%list)
        \/ (lines_of t
            = (before ++ [Done (randomUUID e) ("/api/download/" ++ randomUUID e)])%list
            /\ exists info,
                JsMap.get (jobs (snd (process e body s))) (randomUUID e) = Some info)).
Proof.
  rewrite MonadFacts.process_unfold. cbv zeta.
  destruct (match body_segments body with VArr items => items | _ => [] end)
    as [|x rest].
  { intros _. exists (headers ++ [WriteLine (Error "No segments provided"); End_])%list, [].
    split; [reflexivity|]. left. eexists. reflexivity. }
  destruct (validate 0 (x :: rest) []) as [parsed|m|m]; [| |discriminate].
  - destruct (mkdtempSync e _) as [d|m]; [|discriminate].
    pose proof (StageFacts.pipeline_run e (randomUUID e) d parsed (entered d s)) as H.
    cbv zeta in H.
    destruct (pipeline e (randomUUID e) d parsed (entered d s)) as [[[]|m] s2];
      cbn [fst snd] in *; intros _.
    + destruct H as (s1 & sc & (_ & _ & _ & t1 & T1 & F1) & (_ & _ & _ & t2 & T2 & F2) & ->).
      exists ((headers ++ [Mkdtemp d; WriteLine (Status "starting" "Validating inputs")]
               ++ t1 ++ [WriteLine (Status "stitching" "Stitching segments");
                         WriteFile (path_join d "concat-list.txt")
                                   (manifest d (List.length parsed))]
               ++ t2 ++ [CopyFile (path_join d "stitched.mp4")
                                  (path_join (publicDir e)
                                             (finalName (now e (reads (entered d s)))))])
              ++ [WriteLine (Done (randomUUID e) ("/api/download/" ++ randomUUID e)); End_])%list.
      eexists. split.
      * cbn [emit trace]. rewrite T2. cbn [emit trace]. rewrite T1.
        unfold entered, emit. cbn [trace]. rewrite <- !app_assoc. reflexivity.
      * right. split; [rewrite lines_of_app; reflexivity|].
        eexists. cbn [emit jobs]. apply RegistryFacts.get_set_same.
    + destruct H as (k & t & _ & _ & _ & T & F).
      exists ((headers ++ [Mkdtemp d; WriteLine (Status "starting" "Validating inputs")]
               ++ t)
              ++ [WriteLine (Error (or_else m "Processing failed")); RmSync d true; End_])%list.
      eexists. split.
      * cbn [emit trace]. rewrite T. unfold entered, emit. cbn [trace].
        rewrite <- !app_assoc. reflexivity.
      * left. eexists. rewrite lines_of_app. reflexivity.
  - intros _. exists (headers ++ [WriteLine (Error m); End_])%list, [].
    split; [reflexivity|]. left. eexists. reflexivity.
Qed.

End FormFacts.

(** X20.  The rows of the form keep distinct ids under [update],
    [remove] and [add] with a fresh id; [update] changes neither the
    number nor the ids of the rows, and [remove] never removes the last
    row. *)
Theorem form_rows_stay_distinct (rows : list Client.row) :
  NoDup (ids rows) ->
  rows <> [] ->
  (forall id p, ids (Client.update id p rows) = ids rows)
  /\ (forall id, ~ In id (ids rows) -> NoDup (ids (Client.add id rows)))
  /\ (forall id, NoDup (ids (Client.remove id rows)) /\ Client.remove id rows <> []).
Proof.
  intros Hnd Hne. split; [|split].
  - intros id p. apply FormFacts.ids_update.
  - intros id Hid. unfold Client.add, ids. rewrite map_app. simpl.
    apply NoDup_app; [exact Hnd | repeat constructor; simpl; tauto |].
    intros x Hx [<-|[]]. exact (Hid Hx).
  - intros id. unfold Client.remove.
    destruct (List.length rows =? 1)%nat eqn:E; [split; assumption|].
    split; [apply FormFacts.NoDup_filter_ids, Hnd|].
    apply Nat.eqb_neq in E.
    pose proof (FormFacts.filter_drops_one id rows Hnd) as Hl.
    destruct rows as [|r rows]; [congruence|].
    intros Hf. rewrite Hf in Hl. simpl in *. lia.
Qed.

(** Two rows, of which the first is removed, and then the second is not. *)
Lemma form_rows_stay_distinct_witness :
  Client.remove "a" [Client.emptySegment "a"; Client.emptySegment "b"]
  = [Client.emptySegment "b"]
  /\ Client.remove "b" [Client.emptySegment "b"] = [Client.emptySegment "b"]
  /\ NoDup (ids (Client.remove "a" [Client.emptySegment "a"; Client.emptySegment "b"]))
  /\ Client.remove "a" [Client.emptySegment "a"; Client.emptySegment "b"] <> [].
Proof.
  split; [reflexivity|]. split; [reflexivity|].
  apply (form_rows_stay_distinct [Client.emptySegment "a"; Client.emptySegment "b"]).
  - repeat constructor; simpl; intuition discriminate.
  - discriminate.
Defined.

(** X21.  The log panel never holds more than 401 lines, whatever the
    server sends. *)
Theorem log_panel_is_bounded (debug : bool) (lines : list event) :
  (List.length (Client.logs (shown debug lines Client.fresh_ui)) <= 401)%nat.
Proof.
  assert (forall u, (List.length (Client.logs u) <= 401)%nat ->
                    (List.length (Client.logs (shown debug lines u)) <= 401)%nat) as H.
  { unfold shown. induction lines as [|line lines IH]; intros u Hu; [exact Hu|].
    simpl. apply IH, FormFacts.logs_on_line, Hu. }
  apply H. simpl. lia.
Qed.

(** X22.  After the lines of a response that the handler has ended, the
    page shows either the badge [Error], or the badge [Complete] with the
    download link of the job of this request, which is registered. *)
Theorem page_ends_in_error_or_complete
        (e : env) (body : value) (s : state) (debug : bool) :
  trace s = [] ->
  fst (process e body s) = inl tt ->
  let u := shown debug (lines_of (trace (snd (process e body s)))) Client.fresh_ui in
  Client.badge u = "Error"
  \/ (Client.badge u = "Complete"
      /\ Client.downloadUrl u = "/api/download/" ++ randomUUID e
      /\ exists info, JsMap.get (jobs (snd (process e body s))) (randomUUID e) = Some info).
Proof.
  intros Hs Hr. cbv zeta.
  destruct (FormFacts.returned_lines e body s Hr) as (t & before & T & H).
  rewrite T, Hs. cbn [app].
  destruct H as [[m ->] | [-> Hinfo]]; rewrite FormFacts.shown_app.
  - left. reflexivity.
  - right. split; [reflexivity|]. split; [reflexivity | exact Hinfo].
Qed.

(** The sample request in a world where everything works, and in one
    where the second resolver fails. *)
Lemma page_ends_in_error_or_complete_witness :
  Client.badge (shown true (lines_of (trace (snd (process (quiet "id-1" 1000)
                                                         (batch two_segments) start))))
                      Client.fresh_ui) = "Complete"
  /\ (Client.badge (shown true (lines_of (trace (snd (process second_resolver_fails
                                                             (batch two_segments) start))))
                          Client.fresh_ui) = "Error"
      \/ (Client.badge (shown true (lines_of (trace (snd (process second_resolver_fails
                                                                 (batch two_segments) start))))
                              Client.fresh_ui) = "Complete"
          /\ Client.downloadUrl
               (shown true (lines_of (trace (snd (process second_resolver_fails
                                                          (batch two_segments) start))))
                      Client.fresh_ui)
             = "/api/download/" ++ randomUUID second_resolver_fails
          /\ exists info,
              JsMap.get (jobs (snd (process second_resolver_fails
                                            (batch two_segments) start)))
                        (randomUUID second_resolver_fails) = Some info)).
Proof.
  split; [vm_compute; reflexivity|].
  apply (page_ends_in_error_or_complete second_resolver_fails (batch two_segments)
           start true); reflexivity.
Defined.
